(** * ColdReach, yc_companies: the record enrichment and merge scripts

    A shallow embedding of the record-level functions of the scripts under
    [yc_companies/] and the properties of the enrichment pipeline.

    - A Python [str] is a sequence of Unicode code points, [list N].
    - A CSV row (a [dict] from column name to text) is a finite map
      [gmap str str]; [d[k]] may raise [KeyError], [d.get(k, default)] may not.
      Rows are equal as Python dicts are: the order of the columns does
      not count.  A line of the file that is shorter than the header is
      read as a row with [None] in the columns it leaves out: these are
      the rows of [DictReader], on which the functions are given again,
      with [AttributeError] where they call a method of [str] on [None].
    - The tables of the interpreter's Unicode database that the scripts
      reach through [str.lower], [\d] and [re.IGNORECASE] are not part of
      the repository; outside ASCII they are the fields of [UnicodeTables]. *)

From Stdlib Require Import NArith Ascii String Bool Lia.
From stdpp Require Import base option list gmap.

Local Open Scope string_scope.
Local Open Scope list_scope.

(** ** Python values used by the scripts *)

Module Py.

Definition str : Type := list N.

Definition str_of_string (s : string) : str :=
  map N_of_ascii (list_ascii_of_string s).

Coercion str_of_string : string >-> str.
#[global] Arguments str_of_string : simpl never.

#[global] Typeclasses Transparent str.

(** [a + b] on strings; the arguments are typed so that literals coerce. *)
Definition cat (a b : str) : str := a ++ b.

Class UnicodeTables := {
  (** [str.lower] of a string holding a code point outside ASCII *)
  lower_hi : str -> str;
  (** whether a code point outside ASCII is a decimal digit (what [\d] matches) *)
  decimal_hi : N -> bool;
  (** the representative of the case-insensitive class of a code point
      outside ASCII (what [re.IGNORECASE] compares) *)
  fold_hi : N -> N
}.

Definition is_ascii (c : N) : bool := (c <? 128)%N.

Definition is_upper_ascii (c : N) : bool := (65 <=? c)%N && (c <=? 90)%N.

Definition is_lower_ascii (c : N) : bool := (97 <=? c)%N && (c <=? 122)%N.

Definition lower_ascii (c : N) : N := if is_upper_ascii c then (c + 32)%N else c.

Definition upper_ascii (c : N) : N := if is_lower_ascii c then (c - 32)%N else c.

(** [s.lower()] *)
Definition lower `{UnicodeTables} (s : str) : str :=
  if forallb is_ascii s then map lower_ascii s else lower_hi s.

(** [a == b] *)
Definition eqb (a b : str) : bool := bool_decide (a = b).

(** [bool(s)]: a string is true unless it is empty. *)
Definition truthy (s : str) : bool :=
  match s with
  | [] => false
  | _ :: _ => true
  end.

(** A list display of string literals. *)
Definition strs (l : list string) : list str := map str_of_string l.

(** [s.startswith(prefix)] *)
Fixpoint startswith (s prefix : str) {struct prefix} : bool :=
  match prefix, s with
  | [], _ => true
  | p :: prefix', c :: s' => (c =? p)%N && startswith s' prefix'
  | _ :: _, [] => false
  end.

(** [sub in s] *)
Fixpoint contains (sub s : str) : bool :=
  startswith s sub ||
  match s with
  | [] => false
  | _ :: s' => contains sub s'
  end.

(** [s.replace(old, new)] for a non-empty [old]: occurrences are taken from
    the left and do not overlap.  [skip] counts the code points of the
    occurrence just replaced that are still to be passed over. *)
Fixpoint replace_from (old new : str) (skip : nat) (s : str) : str :=
  match s with
  | [] => []
  | c :: s' =>
      match skip with
      | S n => replace_from old new n s'
      | O =>
          if startswith s old
          then new ++ replace_from old new (length old - 1) s'
          else c :: replace_from old new 0 s'
      end
  end.

(** [s.replace(old, new)]; an empty [old] matches before every code point
    and at the end. *)
Definition replace (s old new : str) : str :=
  match old with
  | [] => new ++ flat_map (fun c => c :: new) s
  | _ :: _ => replace_from old new 0 s
  end.

(** [str.isspace] of one code point; also what [\s] matches. *)
Definition is_space (c : N) : bool :=
  ((0x09 <=? c) && (c <=? 0x0D)
   || (0x1C <=? c) && (c <=? 0x20)
   || (c =? 0x85) || (c =? 0xA0) || (c =? 0x1680)
   || (0x2000 <=? c) && (c <=? 0x200A)
   || (c =? 0x2028) || (c =? 0x2029) || (c =? 0x202F)
   || (c =? 0x205F) || (c =? 0x3000))%N.

(** The longest prefix of [s] whose code points all satisfy [P], and what
    follows it. *)
Fixpoint take_while (P : N -> bool) (s : str) : str :=
  match s with
  | c :: s' => if P c then c :: take_while P s' else []
  | [] => []
  end.

Fixpoint drop_while (P : N -> bool) (s : str) : str :=
  match s with
  | c :: s' => if P c then drop_while P s' else s
  | [] => []
  end.

Definition lstrip (s : str) : str := drop_while is_space s.

Definition rstrip (s : str) : str := rev (lstrip (rev s)).

(** [s.strip()] *)
Definition strip (s : str) : str := rstrip (lstrip s).

(** [ord(c)] of a one-character string *)
Definition ord (c : str) : N := default 0%N (head c).

(** [any(word in s for word in words)] *)
Definition any_in (words : list str) (s : str) : bool :=
  existsb (fun word => contains word s) words.

(** *** Dictionaries *)

Abbreviation dict := (gmap str str).

(** [d.get(k, default)] *)
Definition get (d : dict) (k default : str) : str :=
  from_option id default (d !! k).

(** [{**d, k: v}], and [d[k] = v] *)
Definition set (k v : str) (d : dict) : dict := <[k := v]> d.

(** [d.update(other)]: the entries of [other] win. *)
Definition update (d other : dict) : dict := other ∪ d.

(** One [k: v] of a dict display; the arguments are typed so that literals
    coerce. *)
Definition entry {V} (k : str) (v : V) : str * V := (k, v).

Definition item (k v : str) : str * str := (k, v).

(** A dict display [{k1: v1, ...}]: a later entry replaces an earlier one
    with the same key. *)
Definition display {V} (entries : list (str * V)) : gmap str V :=
  foldl (fun d kv => <[kv.1 := kv.2]> d) ∅ entries.

(** [{**d, k1: v1, ...}] *)
Definition with_items (d : dict) (entries : list (str * str)) : dict :=
  foldl (fun d kv => set kv.1 kv.2 d) d entries.
#[global] Arguments with_items : simpl never.

(** The value that [with_items d entries] has at [k] when an entry gives one:
    the last such entry. *)
Fixpoint find_item (k : str) (entries : list (str * str)) : option str :=
  match entries with
  | [] => None
  | (k', v) :: rest =>
      match find_item k rest with
      | Some v' => Some v'
      | None => if eqb k k' then Some v else None
      end
  end.

(** [k in d] *)
Definition has_key {V} (k : str) (d : gmap str V) : bool :=
  bool_decide (is_Some (d !! k)).

(** *** Exceptions *)

Inductive exn :=
| KeyError (key : str)
| TypeError
| AttributeError.

Inductive result (A : Type) :=
| Return (a : A)
| Raise (e : exn).
Arguments Return {A} a.
Arguments Raise {A} e.

#[global] Instance result_ret : MRet result := fun A a => Return a.

#[global] Instance result_bind : MBind result := fun A B k c =>
  match c with
  | Return a => k a
  | Raise e => Raise e
  end.

(** [d[k]] *)
Definition getitem (d : dict) (k : str) : result str :=
  match d !! k with
  | Some v => Return v
  | None => Raise (KeyError k)
  end.

End Py.

Import Py.

(** The entry of a row at a column, absent or present. *)
Notation "d '.[' k ']'" := (@lookup str str dict _ (k : str) d)
  (at level 1, k at level 200, left associativity, format "d .[ k ]").

(** ** The fragment of [re] the scripts use

    Backtracking search as [re.search] does it: the leftmost start, and at
    each start the first way to match in the order greedy repetition before
    fewer repetitions, present before absent, left alternative before right. *)

Module Re.

Inductive flag := NoFlags | IGNORECASE.

Inductive atom :=
| Chars (cs : str)        (* the listed characters *)
| Range (lo hi : N)       (* lo-hi *)
| Whitespace              (* \s *)
| Decimal.                (* \d *)

Record charset := { negated : bool; atoms : list atom }.

Definition one_of (atoms : list atom) : charset :=
  {| negated := false; atoms := atoms |}.

Definition none_of (atoms : list atom) : charset :=
  {| negated := true; atoms := atoms |}.

Inductive regex :=
| Lit (p : str)                 (* a literal text *)
| In (cs : charset)             (* [...] *)
| Plus (cs : charset)           (* [...]+ *)
| Seq (r1 r2 : regex)           (* r1 r2 *)
| Alt (r1 r2 : regex)           (* r1|r2 *)
| Opt (r : regex)               (* r? *)
| Group (i : nat) (r : regex).  (* (r), the i-th group of the pattern *)

Fixpoint count_groups (r : regex) : nat :=
  match r with
  | Lit _ | In _ | Plus _ => 0
  | Seq r1 r2 | Alt r1 r2 => count_groups r1 + count_groups r2
  | Opt r1 => count_groups r1
  | Group _ r1 => S (count_groups r1)
  end.

(** A match object, as far as the scripts look at it: [m.groups()]. *)
Abbreviation match_object := (list (option str)).

(** [m.group(i)] for [i >= 1] *)
Definition group (m : match_object) (i : nat) : option str :=
  mjoin (m !! pred i).

Section Matching.
Context `{UnicodeTables}.

Definition fold (c : N) : N :=
  if is_ascii c then lower_ascii c else fold_hi c.

Definition is_decimal (c : N) : bool :=
  if is_ascii c then (48 <=? c)%N && (c <=? 57)%N else decimal_hi c.

Definition same_char (f : flag) (p c : N) : bool :=
  match f with
  | NoFlags => (c =? p)%N
  | IGNORECASE => (fold c =? fold p)%N
  end.

Definition in_range (lo hi c : N) : bool := (lo <=? c)%N && (c <=? hi)%N.

Definition atom_matches (f : flag) (a : atom) (c : N) : bool :=
  match a with
  | Chars cs => existsb (fun p => same_char f p c) cs
  | Range lo hi =>
      match f with
      | NoFlags => in_range lo hi c
      | IGNORECASE =>
          in_range lo hi (fold c) || in_range lo hi (upper_ascii (fold c))
      end
  | Whitespace => is_space c
  | Decimal => is_decimal c
  end.

Definition in_charset (f : flag) (cs : charset) (c : N) : bool :=
  xorb (negated cs) (existsb (fun a => atom_matches f a c) (atoms cs)).

(** What is left of [s] after the literal [p], if [s] starts with it. *)
Fixpoint lit_rest (f : flag) (p s : str) : option str :=
  match p, s with
  | [], _ => Some s
  | a :: p', c :: s' => if same_char f a c then lit_rest f p' s' else None
  | _ :: _, [] => None
  end.

(** [[...]+] followed by [k]: the longest run first, then shorter ones. *)
Fixpoint plus {A} (f : flag) (cs : charset) (s : str) (k : str -> option A)
  : option A :=
  match s with
  | c :: s' =>
      if in_charset f cs c
      then match plus f cs s' k with
           | Some a => Some a
           | None => k s'
           end
      else None
  | [] => None
  end.

(** [exec f r s caps k]: match [r] at the start of [s], then [k] on the rest
    of the text and the groups captured so far; [None] once every way to
    match [r] here has been tried. *)
Fixpoint exec {A} (f : flag) (r : regex) (s : str) (caps : match_object)
  (k : str -> match_object -> option A) : option A :=
  match r with
  | Lit p =>
      match lit_rest f p s with
      | Some s' => k s' caps
      | None => None
      end
  | In cs =>
      match s with
      | c :: s' => if in_charset f cs c then k s' caps else None
      | [] => None
      end
  | Plus cs => plus f cs s (fun s' => k s' caps)
  | Seq r1 r2 => exec f r1 s caps (fun s1 caps1 => exec f r2 s1 caps1 k)
  | Alt r1 r2 =>
      match exec f r1 s caps k with
      | Some a => Some a
      | None => exec f r2 s caps k
      end
  | Opt r1 =>
      match exec f r1 s caps k with
      | Some a => Some a
      | None => k s caps
      end
  | Group i r1 =>
      exec f r1 s caps (fun s1 caps1 =>
        k s1 (<[pred i := Some (take (length s - length s1) s)]> caps1))
  end.

(** One attempt at each start position, from the left. *)
Fixpoint search_from (f : flag) (r : regex) (s : str) : option match_object :=
  match exec f r s (replicate (count_groups r) None) (fun _ caps => Some caps) with
  | Some m => Some m
  | None =>
      match s with
      | [] => None
      | _ :: s' => search_from f r s'
      end
  end.

(** [re.search(pattern, string, flags)] *)
Definition search (pattern : regex) (string : str) (flags : flag)
  : option match_object :=
  search_from flags pattern string.

(** What a match is, apart from the order in which [exec] tries the ways to
    match: [matches f r s s' caps caps'] when [r] matches the part of [s]
    before [s'] and takes the captured groups from [caps] to [caps']. *)
Inductive matches (f : flag)
  : regex -> str -> str -> match_object -> match_object -> Prop :=
| matches_Lit p s s' caps :
    lit_rest f p s = Some s' ->
    matches f (Lit p) s s' caps caps
| matches_In cs c s caps :
    in_charset f cs c = true ->
    matches f (In cs) (c :: s) s caps caps
| matches_Plus cs c run s caps :
    Forall (fun c => in_charset f cs c = true) (c :: run) ->
    matches f (Plus cs) (c :: run ++ s) s caps caps
| matches_Seq r1 r2 s s1 s2 caps caps1 caps2 :
    matches f r1 s s1 caps caps1 ->
    matches f r2 s1 s2 caps1 caps2 ->
    matches f (Seq r1 r2) s s2 caps caps2
| matches_Alt_l r1 r2 s s' caps caps' :
    matches f r1 s s' caps caps' ->
    matches f (Alt r1 r2) s s' caps caps'
| matches_Alt_r r1 r2 s s' caps caps' :
    matches f r2 s s' caps caps' ->
    matches f (Alt r1 r2) s s' caps caps'
| matches_Opt_some r s s' caps caps' :
    matches f r s s' caps caps' ->
    matches f (Opt r) s s' caps caps'
| matches_Opt_none r s caps :
    matches f (Opt r) s s caps caps
| matches_Group i r s s' caps caps' :
    matches f r s s' caps caps' ->
    matches f (Group i r) s s' caps
      (<[pred i := Some (take (length s - length s') s)]> caps').

(** The texts that [r] matches: [word f r w] when [w] is one of them. *)
Fixpoint word (f : flag) (r : regex) (w : str) : Prop :=
  match r with
  | Lit p => Forall2 (fun a c => same_char f a c = true) p w
  | In cs => exists c, w = [c] /\ in_charset f cs c = true
  | Plus cs => w <> [] /\ Forall (fun c => in_charset f cs c = true) w
  | Seq r1 r2 => exists w1 w2, w = w1 ++ w2 /\ word f r1 w1 /\ word f r2 w2
  | Alt r1 r2 => word f r1 w \/ word f r2 w
  | Opt r1 => w = [] \/ word f r1 w
  | Group _ r1 => word f r1 w
  end.

(** No text that [r] matches has the code point [x] in it. *)
Fixpoint rejects (f : flag) (x : N) (r : regex) : bool :=
  match r with
  | Lit p => forallb (fun a => negb (same_char f a x)) p
  | In cs | Plus cs => negb (in_charset f cs x)
  | Seq r1 r2 | Alt r1 r2 => rejects f x r1 && rejects f x r2
  | Opt r1 | Group _ r1 => rejects f x r1
  end.

End Matching.

(** What stands between the parentheses of group [i] in [r]. *)
Fixpoint group_bodies (i : nat) (r : regex) : list regex :=
  match r with
  | Lit _ | In _ | Plus _ => []
  | Seq r1 r2 | Alt r1 r2 => group_bodies i r1 ++ group_bodies i r2
  | Opt r1 => group_bodies i r1
  | Group j r1 =>
      (if decide (pred j = pred i) then [r1] else []) ++ group_bodies i r1
  end.

(** Groups that take part in every match of [r]: those under no option,
    and under an alternative only when each side has the group. *)
Fixpoint sure_groups (r : regex) : list nat :=
  match r with
  | Lit _ | In _ | Plus _ | Opt _ => []
  | Seq r1 r2 => sure_groups r1 ++ sure_groups r2
  | Alt r1 r2 => filter (fun i => i ∈ sure_groups r2) (sure_groups r1)
  | Group i r1 => i :: sure_groups r1
  end.

(** Group [i] took part: [m.group(i)] is a text. *)
Definition captured (m : match_object) (i : nat) : Prop :=
  is_Some (group m i).

End Re.

(** ** The rows of the two data-quality classes

    The marker written to [data_quality]: a check mark (U+2705) before
    [REAL], a robot face (U+1F916) before [PATTERN]. *)

Definition REAL_mark : str := 0x2705%N :: str_of_string " REAL".

Definition PATTERN_mark : str := 0x1F916%N :: str_of_string " PATTERN".

(** An entry of a table of verified founder data, as [main.py] and
    [update_with_real_founders.py] write it. *)
Record founder := Founder {
  founder_first : str;
  founder_last : str;
  founder_email : str;
  founder_linkedin : str;
  website : str;
  jobs : str;
  funding_stage : str;
  amount_raised : str;
  date_raised : str
}.

(** ** main.py *)

Module Main.

Definition REAL_FOUNDERS : gmap str founder := display [
  entry "F2"
     (Founder "Don" "Muir" "don@f2.com" "linkedin.com/in/don-muir"
      "f2.com" "ML Engineering Intern, Data Science Intern" "Seed" "$20M" "Summer 2025");
  entry "Nox Metals"
     (Founder "Zane" "Hengsperger" "zane@noxmetals.co" "linkedin.com/in/zanehh"
      "noxmetals.co" "Founding Software Engineer, Software Engineer" "Seed" "$2M" "Summer 2025");
  entry "Paloma"
     (Founder "Sarah" "Chen" "sarah@paloma.ai" "linkedin.com/in/sarahchen"
      "paloma.ai" "Product Engineer, Sales Operations Specialist" "Seed" "$3M" "Summer 2025");
  entry "Luminal"
     (Founder "Alex" "Martinez" "alex@luminal.ai" "linkedin.com/in/alexmartinez"
      "luminal.ai" "ML Infrastructure Engineer, Systems Engineer" "Seed" "$4M" "Summer 2025");
  entry "Metis"
     (Founder "James" "Park" "james@metis.ai" "linkedin.com/in/jamespark"
      "metis.ai" "Infrastructure Engineer, AI Engineer" "Seed" "$5M" "Summer 2025");
  entry "Modelence"
     (Founder "Emily" "Rodriguez" "emily@modelence.com" "linkedin.com/in/emilyrodriguez"
      "modelence.com" "Full Stack Engineer, DevOps Engineer" "Seed" "$3.5M" "Summer 2025");
  entry "Kernel"
     (Founder "David" "Kim" "david@kernel.sh" "linkedin.com/in/davidkim"
      "kernel.sh" "Infrastructure Engineer, Browser Engineer" "Seed" "$6M" "Summer 2025");
  entry "Outrove"
     (Founder "Rachel" "Thompson" "rachel@outrove.com" "linkedin.com/in/rachelthompson"
      "outrove.com" "AI Engineer, Recruiting Specialist" "Seed" "$2.5M" "Summer 2025");
  entry "Interfere"
     (Founder "Michael" "Anderson" "michael@interfere.dev" "linkedin.com/in/michaelanderson"
      "interfere.dev" "Software Engineer, QA Engineer" "Seed" "$3M" "Summer 2025");
  entry "stagewise"
     (Founder "Priya" "Patel" "priya@stagewise.io" "linkedin.com/in/priyapatel"
      "stagewise.io" "Frontend Engineer, AI Engineer" "Seed" "$2.8M" "Summer 2025");
  entry "Okibi"
     (Founder "Chris" "Wu" "chris@okibi.ai" "linkedin.com/in/chriswu"
      "okibi.ai" "AI Engineer, Product Engineer" "Seed" "$4M" "Summer 2025");
  entry "Pally"
     (Founder "Jessica" "Lee" "jessica@pally.app" "linkedin.com/in/jessicalee"
      "pally.app" "Product Engineer, Backend Engineer" "Seed" "$3.2M" "Summer 2025");
  entry "Keystone"
     (Founder "Ryan" "O'Connor" "ryan@keystone.ai" "linkedin.com/in/ryanoconnor"
      "keystone.ai" "AI Engineer, DevOps Engineer" "Seed" "$4.5M" "Summer 2025");
  entry "Async"
     (Founder "Lisa" "Zhang" "lisa@async.so" "linkedin.com/in/lisazhang"
      "async.so" "Product Engineer, Full Stack Engineer" "Seed" "$3.8M" "Summer 2025");
  entry "Hyprnote"
     (Founder "Kevin" "Nguyen" "kevin@hyprnote.com" "linkedin.com/in/kevinnguyen"
      "hyprnote.com" "ML Engineer, Product Engineer" "Seed" "$2.2M" "Summer 2025");
  entry "ZeroEval"
     (Founder "Amanda" "Foster" "amanda@zeroeval.ai" "linkedin.com/in/amandafoster"
      "zeroeval.ai" "AI Engineer, Research Engineer" "Seed" "$3.5M" "Summer 2025");
  entry "Fulcrum"
     (Founder "Brian" "Taylor" "brian@fulcrum.ai" "linkedin.com/in/briantaylor"
      "fulcrum.ai" "AI Engineer, Software Engineer" "Seed" "$4.2M" "Summer 2025");
  entry "RowFlow"
     (Founder "Sophie" "Brown" "sophie@rowflow.ai" "linkedin.com/in/sophiebrown"
      "rowflow.ai" "AI Engineer, UX Engineer" "Seed" "$2.7M" "Summer 2025");
  entry "RealRoots"
     (Founder "Maya" "Johnson" "maya@realroots.app" "linkedin.com/in/mayajohnson"
      "realroots.app" "Mobile Engineer, Product Designer" "Seed" "$2.3M" "Summer 2025");
  entry "Certus AI"
     (Founder "Daniel" "Garcia" "daniel@certus.ai" "linkedin.com/in/danielgarcia"
      "certus.ai" "Voice AI Engineer, Product Engineer" "Seed" "$3M" "Summer 2025");
  entry "Blue"
     (Founder "Omar" "Abdelaziz" "omar@heyblue.com" "linkedin.com/in/oabdelaziz"
      "heyblue.com" "Software Engineering Intern, Product Intern" "Seed" "$1.5M" "Summer 2025")
].

Section Enrich.
Context `{UnicodeTables}.

Definition extract_domain (company_name : str) : str :=
  let domain := lower company_name in
  let domain :=
    foldl (fun domain remove => replace domain remove "") domain
          (strs [" "; ","; "."; "inc"; "llc"; "the"; "-"]) in
  cat domain ".com".

(** [enrich_company], with the table it consults as an argument. *)
Definition enrich (overrides : gmap str founder) (company : dict) : result dict :=
  company_name ← getitem company "Company_Name";
  match overrides !! company_name with
  | Some data =>
      mret (with_items company [
        item "founder_first_name" (founder_first data);
        item "founder_last_name" (founder_last data);
        item "founder_email" (founder_email data);
        item "founder_linkedin" (founder_linkedin data);
        item "website" (website data);
        item "job_openings" (jobs data);
        item "funding_stage" (funding_stage data);
        item "amount_raised" (amount_raised data);
        item "date_raised" (date_raised data);
        item "data_quality" REAL_mark ])
  | None =>
      let domain := extract_domain company_name in
      company_description ← getitem company "company_description";
      let desc_lower := lower company_description in
      let jobs : str :=
        if any_in (strs ["ai"; "ml"; "machine learning"; "llm"]) desc_lower
        then "ML Engineering Intern, AI Research Intern"
        else if any_in (strs ["developer"; "code"; "software"]) desc_lower
        then "Software Engineering Intern, Product Engineering Intern"
        else if any_in (strs ["data"; "analytics"]) desc_lower
        then "Data Science Intern, Analytics Intern"
        else "Software Engineering Intern, Product Intern" in
      mret (with_items company [
        item "founder_first_name" "Team";
        item "founder_last_name" "";
        item "founder_email" (cat "hello@" domain);
        item "founder_linkedin" "";
        item "website" domain;
        item "job_openings" jobs;
        item "funding_stage" "Seed";
        item "amount_raised" "$1.5M";
        item "date_raised" "Summer 2025";
        item "data_quality" PATTERN_mark ])
  end.

Definition enrich_company (company : dict) : result dict :=
  enrich REAL_FOUNDERS company.

End Enrich.

End Main.

(** ** update_with_real_founders.py *)

Module UpdateWithRealFounders.

Definition REAL_FOUNDER_DATA : gmap str founder := display [
  entry "Uplift AI"
     (Founder "Hammad" "Malik" "hammad@upliftai.org" "linkedin.com/in/hammad2"
      "upliftai.org" "Software Engineering Intern, Product Intern" "Seed" "$1.5M" "Summer 2025");
  entry "Freya"
     (Founder "Tunga" "Bayrak" "tunga@freyavoice.ai" "linkedin.com/in/tunga-bayrak"
      "freyavoice.ai" "ML Engineering Intern, AI Research Intern" "Seed" "$1.5M" "Summer 2025");
  entry "burnt"
     (Founder "Joseph" "Jacob" "joseph@getburnt.ai" "linkedin.com/in/josephjacob93"
      "getburnt.ai" "ML Engineering Intern, AI Research Intern" "Seed" "$1.5M" "Summer 2025")
].

Definition is_pattern_data (company : dict) : bool :=
  let founder_first := strip (get company "founder_first_name" "") in
  let founder_email := strip (get company "founder_email" "") in
  if eqb founder_first "Team" || eqb founder_first "" then true
  else if startswith founder_email "hello@" then true
  else if negb (truthy (strip (get company "founder_linkedin" ""))) then true
  else false.

Definition update_company_with_real_data (company : dict) (real_data : founder)
  : dict :=
  with_items company [
    item "founder_first_name" (founder_first real_data);
    item "founder_last_name" (founder_last real_data);
    item "founder_email" (founder_email real_data);
    item "founder_linkedin" (founder_linkedin real_data);
    item "website" (website real_data);
    item "job_openings" (jobs real_data);
    item "funding_stage" (funding_stage real_data);
    item "amount_raised" (amount_raised real_data);
    item "date_raised" (date_raised real_data);
    item "data_quality" REAL_mark ].

(** The body of the loop of [main] over the rows, with the table as an
    argument; the result is the row after the step. *)
Definition merge_update (overrides : gmap str founder) (company : dict) : dict :=
  let company_name := get company "Company_Name" "" in
  if has_key company_name overrides && is_pattern_data company then
    match overrides !! company_name with
    | Some real_data =>
        let updated_company := update_company_with_real_data company real_data in
        update company updated_company
    | None => company
    end
  else company.

Definition main_step (company : dict) : dict :=
  merge_update REAL_FOUNDER_DATA company.

End UpdateWithRealFounders.

(** ** batch_extract_founders.py *)

Module BatchExtractFounders.

(** An entry of this script's table: it carries no job or funding data. *)
Record founder := Founder {
  founder_first : str;
  founder_last : str;
  founder_email : str;
  founder_linkedin : str;
  website : str
}.

Definition REAL_FOUNDER_DATA : gmap str founder := display [
  entry "Uplift AI"
     (Founder "Hammad" "Malik" "hammad@upliftai.org" "linkedin.com/in/hammad2"
      "upliftai.org");
  entry "Freya"
     (Founder "Tunga" "Bayrak" "tunga@freyavoice.ai" "linkedin.com/in/tunga-bayrak"
      "freyavoice.ai");
  entry "burnt"
     (Founder "Joseph" "Jacob" "joseph@getburnt.ai" "linkedin.com/in/josephjacob93"
      "getburnt.ai");
  entry "Blue"
     (Founder "Omar" "Abdelaziz" "omar@heyblue.com" "linkedin.com/in/oabdelaziz"
      "heyblue.com");
  entry "Avent"
     (Founder "Abhay" "Kalra" "abhay@aventindustrial.com" "linkedin.com/in/abhay-kalra-683688214"
      "aventindustrial.com");
  entry "Cacao"
     (Founder "Alec" "Howard" "alec@cacaofi.com" "linkedin.com/in/alexandermhoward"
      "cacaofi.com");
  entry "Veritus Agent"
     (Founder "Joshua" "March" "joshua@veritusagent.ai" "linkedin.com/in/joshuamarch"
      "veritusagent.ai");
  entry "NOSO LABS"
     (Founder "Winston" "Chi" "winston@noso.so" "linkedin.com/in/lwchi"
      "noso.so");
  entry "Vulcan Technologies"
     (Founder "Tanner" "Jones" "tanner@vulcan-tech.com" "linkedin.com/in/tanner-jones-817192167"
      "vulcan-tech.com");
  entry "Spotlight Realty"
     (Founder "Raymond" "Allie" "raymond@spotlight.realty" "linkedin.com/in/raymond-allie"
      "spotlight.realty");
  entry "Munify"
     (Founder "Khalid" "Ashmawy" "khalid@munify.ai" "linkedin.com/in/khalidashmawy"
      "munify.ai");
  entry "TectoAI"
     (Founder "Niosha" "Afsharikia" "founders@tecto.ai" "linkedin.com/in/afsharikia"
      "tecto.ai");
  entry "Duranium"
     (Founder "Brenden" "Prins-McKinney" "brenden@duranium.co" "linkedin.com/in/brenden-prins-mckinney-96959a69"
      "duranium.co");
  entry "Perspectives Health"
     (Founder "Eshan" "Dosani" "eshan@perspectiveshealth.ai" "linkedin.com/in/eshan-dosani"
      "perspectiveshealth.ai");
  entry "Magnetic"
     (Founder "Thomas" "Shelley" "thomas@magnetictax.com" "linkedin.com/in/thomasjshelley"
      "magnetictax.com");
  entry "Fleetline"
     (Founder "Saurav" "Kumar" "saurav@fleetline.ai" "linkedin.com/in/sauravml"
      "fleetline.ai");
  entry "Clodo"
     (Founder "Sid" "Rajaram" "sid@clodo.ai" "linkedin.com/in/sidharthrajaram"
      "clodo.ai");
  entry "Flywheel AI"
     (Founder "Jash" "Mota" "jash@useflywheel.ai" "linkedin.com/in/jashmota"
      "useflywheel.ai");
  entry "Juxta"
     (Founder "John" "Ferrara" "john@usejuxta.org" "linkedin.com/in/ferrara-john"
      "juxta.com");
  entry "dScribe AI"
     (Founder "Warren" "Wijaya Wang" "warren@dscribeai.com" "linkedin.com/in/warrenwang-fnu"
      "dscribeai.com");
  entry "Reacher"
     (Founder "Jerry" "Qian" "jerry@reacherapp.com" "linkedin.com/in/j-qian"
      "reacherapp.com");
  entry "Hera"
     (Founder "Peter" "Tribelhorn" "peter@hera.video" "linkedin.com/in/peter-tribelhorn-36a967142"
      "hera.video");
  entry "Nottelabs"
     (Founder "Andrea" "Pinto" "andrea@notte.cc" "linkedin.com/in/pinto-andrea"
      "notte.cc");
  entry "Locata"
     (Founder "Alejandro" "Salinas" "alejandro@locatahealth.com" "linkedin.com/in/asalinas21"
      "locatahealth.com");
  entry "Pleom"
     (Founder "Royce" "Arockiasamy" "royce@pleom.com" "linkedin.com/in/roycea1"
      "pleom.com")
].

Definition is_pattern_data (company : dict) : bool :=
  let founder_first := strip (get company "founder_first_name" "") in
  let founder_email := strip (get company "founder_email" "") in
  if eqb founder_first "Team" || eqb founder_first "" then true
  else if startswith founder_email "hello@" then true
  else if negb (truthy (strip (get company "founder_linkedin" ""))) then true
  else false.

Definition update_company_with_real_data (company : dict) (real_data : founder)
  : dict :=
  let jobs := get company "job_openings" "Software Engineering Intern, Product Intern" in
  let funding_stage := get company "funding_stage" "Seed" in
  let amount_raised := get company "amount_raised" "$1.5M" in
  let date_raised := get company "date_raised" "Summer 2025" in
  with_items company [
    item "founder_first_name" (founder_first real_data);
    item "founder_last_name" (founder_last real_data);
    item "founder_email" (founder_email real_data);
    item "founder_linkedin" (founder_linkedin real_data);
    item "website" (website real_data);
    item "job_openings" jobs;
    item "funding_stage" funding_stage;
    item "amount_raised" amount_raised;
    item "date_raised" date_raised;
    item "data_quality" REAL_mark ].

Definition merge_update (overrides : gmap str founder) (company : dict) : dict :=
  let company_name := get company "Company_Name" "" in
  if has_key company_name overrides && is_pattern_data company then
    match overrides !! company_name with
    | Some real_data =>
        let updated_company := update_company_with_real_data company real_data in
        update company updated_company
    | None => company
    end
  else company.

Definition main_step (company : dict) : dict :=
  merge_update REAL_FOUNDER_DATA company.

End BatchExtractFounders.

(** ** find_funding_rounds.py *)

Module FindFundingRounds.
Import Re.

(** [r'/companies/([^/]+)'] *)
Definition slug_pattern : regex :=
  Seq (Lit "/companies/") (Group 1 (Plus (none_of [Chars "/"]))).

(** What [[^/]] accepts. *)
Definition not_slash (c : N) : bool := negb (c =? ord "/")%N.

(** One attempt of [slug_pattern] at the start of [s]. *)
Definition attempt_here `{UnicodeTables} (s : str) : option match_object :=
  exec NoFlags slug_pattern s [None] (fun _ caps => Some caps).

Definition extract_company_slug `{UnicodeTables} (yc_link : str) : option str :=
  if negb (truthy yc_link) then None
  else
    match search slug_pattern yc_link NoFlags with
    | Some m => group m 1
    | None => None
    end.

End FindFundingRounds.

(** ** find_actual_funding.py *)

Module FindActualFunding.
Import Re.

Definition space : charset := one_of [Whitespace].

(** [\$[\d.]+[MBK]?] *)
Definition amount : regex :=
  Seq (Lit "$")
      (Seq (Plus (one_of [Decimal; Chars "."]))
           (Opt (In (one_of [Chars "MBK"])))).

(** [Series\s+[A-Z]] *)
Definition series : regex :=
  Seq (Lit "Series") (Seq (Plus space) (In (one_of [Range (ord "A") (ord "Z")]))).

(** [r'raised\s+(\$[\d.]+[MBK]?)\s+(?:in\s+)?(?:a\s+)?(seed|Series\s+[A-Z]|pre-seed|Series\s+[A-Z])\s+round'] *)
Definition pattern1 : regex :=
  Seq (Lit "raised") (Seq (Plus space)
  (Seq (Group 1 amount) (Seq (Plus space)
  (Seq (Opt (Seq (Lit "in") (Plus space)))
  (Seq (Opt (Seq (Lit "a") (Plus space)))
  (Seq (Group 2 (Alt (Lit "seed") (Alt series (Alt (Lit "pre-seed") series))))
  (Seq (Plus space) (Lit "round")))))))).

(** [r'(seed|Series\s+[A-Z]|pre-seed)\s+round\s+of\s+(\$[\d.]+[MBK]?)'] *)
Definition pattern2 : regex :=
  Seq (Group 1 (Alt (Lit "seed") (Alt series (Lit "pre-seed"))))
  (Seq (Plus space) (Seq (Lit "round") (Seq (Plus space)
  (Seq (Lit "of") (Seq (Plus space) (Group 2 amount)))))).

(** [r'(\$[\d.]+[MBK]?)\s+(?:funding|raised)\s+(?:in\s+)?(seed|Series\s+[A-Z]|pre-seed)'] *)
Definition pattern3 : regex :=
  Seq (Group 1 amount) (Seq (Plus space)
  (Seq (Alt (Lit "funding") (Lit "raised")) (Seq (Plus space)
  (Seq (Opt (Seq (Lit "in") (Plus space)))
  (Group 2 (Alt (Lit "seed") (Alt series (Lit "pre-seed")))))))).

Definition patterns : list regex := [pattern1; pattern2; pattern3].

(** [sub in g] for a group [g]: a group that took no part in the match is
    [None], which [in] does not accept. *)
Definition contains_group (sub : str) (g : option str) : result bool :=
  match g with
  | Some s => Return (contains sub s)
  | None => Raise TypeError
  end.

Section Parse.
Context `{UnicodeTables}.

(** The [for pattern in patterns] loop, from the pattern it has reached;
    the result is [(funding_round, funding_amount)]. *)
Fixpoint parse_loop (patterns : list regex) (search_result_text : str)
  : result (option str * option str) :=
  match patterns with
  | [] => mret (None, None)
  | pattern :: rest =>
      match search pattern search_result_text IGNORECASE with
      | Some m =>
          if (length m =? 2)%nat then
            dollar ← contains_group "$" (group m 1);
            if dollar : bool
            then mret (group m 2, group m 1)
            else mret (group m 1, group m 2)
          else mret (None, None)
      | None => parse_loop rest search_result_text
      end
  end.

Definition parse_funding_info (search_result_text company_name : str)
  : result (option str * option str) :=
  parse_loop patterns search_result_text.

End Parse.

End FindActualFunding.

(** ** The operations under the names the specification gives them *)

Module Pipeline.

Inductive quality := REAL | PATTERN.

(** [classify]: the predicate [is_pattern_data] of the update scripts. *)
Definition classify (record : dict) : quality :=
  if UpdateWithRealFounders.is_pattern_data record then PATTERN else REAL.

(** The ten columns that enrichment writes. *)
Definition enriched_fields : list str := strs [
  "founder_first_name"; "founder_last_name"; "founder_email";
  "founder_linkedin"; "website"; "job_openings"; "funding_stage";
  "amount_raised"; "date_raised"; "data_quality" ].

(** The keyword groups of the job listing as the specification lists them,
    in their priority order, each with the listing it stands for. *)
Definition job_rules : list (list str * str) := [
  (strs ["ai"; "ml"; "machine learning"; "llm"],
   str_of_string "ML Engineering Intern, AI Research Intern");
  (strs ["developer"; "code"; "software"],
   str_of_string "Software Engineering Intern, Product Engineering Intern");
  (strs ["data"; "analytics"],
   str_of_string "Data Science Intern, Analytics Intern") ].

(** The classification rule as the specification words it, on the three
    texts it reads. *)
Definition pattern_rule (first_name email linkedin : str) : Prop :=
  first_name = [] ∨ first_name = str_of_string "Team"
  ∨ startswith email "hello@" = true
  ∨ linkedin = [].

(** A table entry that the classification rule takes for real data. *)
Definition verified (data : founder) : Prop :=
  ¬ pattern_rule (strip (founder_first data)) (strip (founder_email data))
                 (strip (founder_linkedin data)).

#[global] Instance pattern_rule_dec (first_name email linkedin : str) :
  Decision (pattern_rule first_name email linkedin).
Proof. unfold pattern_rule. apply _. Defined.

#[global] Instance verified_dec (data : founder) : Decision (verified data).
Proof. unfold verified. apply _. Defined.

(** A column read with [get] and the default [""]. *)
Definition field (record : dict) (k : str) : str := get record k "".

End Pipeline.

(** Text without case mappings, digits or case variants outside ASCII. *)
Definition ascii_only : UnicodeTables :=
  {| lower_hi := fun s => s; decimal_hi := fun _ => false; fold_hi := fun c => c |}.

(** Rows and a table to run the functions on. *)
Module Samples.

Definition blue : dict := with_items ∅ [
  item "Company_Name" "Blue";
  item "YC_Link" "https://www.ycombinator.com/companies/blue";
  item "Batch" "Summer 2025";
  item "company_description" "A voice assistant for every app on your phone" ].

Definition acme : dict := with_items ∅ [
  item "Company_Name" "Acme";
  item "YC_Link" "https://www.ycombinator.com/companies/acme";
  item "Batch" "Summer 2025";
  item "company_description" "Payroll software for dentists" ].

(** [acme] without its description. *)
Definition acme_no_description : dict := with_items ∅ [
  item "Company_Name" "Acme";
  item "YC_Link" "https://www.ycombinator.com/companies/acme";
  item "Batch" "Summer 2025" ].

(** An enriched row with white space after the placeholder name. *)
Definition padded : dict := with_items ∅ [
  item "Company_Name" "Acme";
  item "founder_first_name" "Team ";
  item "founder_email" "ann@acme.io";
  item "founder_linkedin" "linkedin.com/in/ann-lee" ].

(** An enriched row with verified founder data. *)
Definition freya : dict := with_items ∅ [
  item "Company_Name" "Freya";
  item "founder_first_name" "Tunga";
  item "founder_last_name" "Bayrak";
  item "founder_email" "tunga@freyavoice.ai";
  item "founder_linkedin" "linkedin.com/in/tunga-bayrak" ].

(** A verified founder who has no LinkedIn page. *)
Definition acme_table : gmap str founder := display [
  entry "Acme"
    (Founder "Ann" "Lee" "ann@acme.io" ""
       "acme.io" "Backend Engineer" "Seed" "$2M" "Summer 2025") ].

End Samples.


(** ** The derived domain and the job listing in the words of the
    specification

    These definitions do not use the functions of the scripts, nor the
    substring test and the replacement they are built from: an occurrence
    is a decomposition of the text, and removing is a relation between the
    text and what is left of it. *)

Module Spec.

(** [word] occurs in [s]. *)
Definition occurs (word s : str) : Prop :=
  ∃ before after, s = before ++ word ++ after.

(** [rest] is [s] without the occurrences of the non-empty text [old],
    which are taken from left to right and do not overlap. *)
Inductive without (old : str) : str → str → Prop :=
| without_end : without old [] []
| without_here (s rest : str) :
    old ≠ [] → without old s rest → without old (old ++ s) rest
| without_keep (c : N) (s rest : str) :
    ¬ old `prefix_of` (c :: s) → without old s rest →
    without old (c :: s) (c :: rest).

(** The strip list: spaces, punctuation and common suffixes, in the order
    in which they are removed. *)
Definition strip_list : list str :=
  strs [" "; ","; "."; "inc"; "llc"; "the"; "-"].

(** [stem] is [s] after the texts of [removes] were removed one after the
    other. *)
Fixpoint stripped (removes : list str) (s stem : str) : Prop :=
  match removes with
  | [] => stem = s
  | old :: removes' =>
      ∃ middle, without old s middle ∧ stripped removes' middle stem
  end.

(** The derived domain: the lowercased name with the strip list applied,
    then [".com"]. *)
Definition derived_domain `{UnicodeTables} (company_name domain : str) : Prop :=
  ∃ stem, stripped strip_list (lower company_name) stem
          ∧ domain = stem ++ str_of_string ".com".

(** The listing when no keyword group matches. *)
Definition default_jobs : str := "Software Engineering Intern, Product Intern".

(** The job listing chosen by keyword match: the first group of [rules]
    with a keyword that occurs in the lowercased description decides, and
    the default applies when no group has one. *)
Fixpoint job_choice (rules : list (list str * str)) (desc_lower jobs : str)
  : Prop :=
  match rules with
  | [] => jobs = default_jobs
  | (keywords, listing) :: rules' =>
      (Exists (fun word => occurs word desc_lower) keywords ∧ jobs = listing)
      ∨ (Forall (fun word => ¬ occurs word desc_lower) keywords
         ∧ job_choice rules' desc_lower jobs)
  end.

End Spec.

(** ** Rows as [csv.DictReader] gives them

    A column that the header of the file lacks is absent from every row.
    A line that is shorter than the header is another thing: its missing
    columns are present in the row, with the value [None].  The functions
    below are the functions of the scripts on such rows; [v.strip()] and
    [v.lower()] raise [AttributeError] when [v] is [None]. *)

Module DictReader.

Inductive value :=
| Text (s : str)
| NoneValue.

#[global] Instance value_eq_dec : EqDecision value.
Proof. solve_decision. Defined.

Abbreviation row := (gmap str value).

(** A row all of whose values are texts. *)
Definition of_dict (d : dict) : row := Text <$> d.

(** The entry of a row at a column: absent, a text or [None]. *)
Definition column (company : row) (k : str) : option value := company !! k.

(** The three columns that [is_pattern_data] reads. *)
Definition founder_columns : list str :=
  strs ["founder_first_name"; "founder_email"; "founder_linkedin"].

(** [company.get(k, default)] *)
Definition get (company : row) (k default : str) : value :=
  from_option id (Text default) (company !! k).

(** [company[k]] *)
Definition getitem (company : row) (k : str) : result value :=
  match company !! k with
  | Some v => Return v
  | None => Raise (KeyError k)
  end.

(** [{**company, k: v}] *)
Definition set (k : str) (v : value) (company : row) : row := <[k := v]> company.

(** One [k: v] of a dict display, for a text and for a value read from
    the row. *)
Definition item (k v : str) : str * value := (k, Text v).

Definition kept (k : str) (v : value) : str * value := (k, v).

(** [{**company, k1: v1, ...}] *)
Definition with_items (company : row) (entries : list (str * value)) : row :=
  foldl (fun d kv => set kv.1 kv.2 d) company entries.
#[global] Arguments with_items : simpl never.

(** [company.update(other)] *)
Definition update (company other : row) : row := other ∪ company.

(** [v.strip()] *)
Definition strip (v : value) : result str :=
  match v with
  | Text s => Return (Py.strip s)
  | NoneValue => Raise AttributeError
  end.

(** [v in table] and [table[v]] for a table whose keys are texts: [None]
    is no key of it. *)
Definition lookup_value {V} (table : gmap str V) (v : value) : option V :=
  match v with
  | Text s => table !! s
  | NoneValue => None
  end.

Definition in_table {V} (v : value) (table : gmap str V) : bool :=
  bool_decide (is_Some (lookup_value table v)).

Section Rows.
Context `{UnicodeTables}.

(** [v.lower()] *)
Definition lower (v : value) : result str :=
  match v with
  | Text s => Return (Py.lower s)
  | NoneValue => Raise AttributeError
  end.

(** *** main.py *)

Definition extract_domain (company_name : value) : result str :=
  domain ← lower company_name;
  let domain :=
    foldl (fun domain remove => replace domain remove "") domain
          (strs [" "; ","; "."; "inc"; "llc"; "the"; "-"]) in
  mret (cat domain ".com").

Definition enrich (overrides : gmap str founder) (company : row) : result row :=
  company_name ← getitem company "Company_Name";
  if in_table company_name overrides then
    match lookup_value overrides company_name with
    | Some data =>
        mret (with_items company [
          item "founder_first_name" (founder_first data);
          item "founder_last_name" (founder_last data);
          item "founder_email" (founder_email data);
          item "founder_linkedin" (founder_linkedin data);
          item "website" (website data);
          item "job_openings" (jobs data);
          item "funding_stage" (funding_stage data);
          item "amount_raised" (amount_raised data);
          item "date_raised" (date_raised data);
          item "data_quality" REAL_mark ])
    | None => mret company   (* not reached: the name is a key *)
    end
  else
    domain ← extract_domain company_name;
    company_description ← getitem company "company_description";
    desc_lower ← lower company_description;
    let jobs : str :=
      if any_in (strs ["ai"; "ml"; "machine learning"; "llm"]) desc_lower
      then "ML Engineering Intern, AI Research Intern"
      else if any_in (strs ["developer"; "code"; "software"]) desc_lower
      then "Software Engineering Intern, Product Engineering Intern"
      else if any_in (strs ["data"; "analytics"]) desc_lower
      then "Data Science Intern, Analytics Intern"
      else "Software Engineering Intern, Product Intern" in
    mret (with_items company [
      item "founder_first_name" "Team";
      item "founder_last_name" "";
      item "founder_email" (cat "hello@" domain);
      item "founder_linkedin" "";
      item "website" domain;
      item "job_openings" jobs;
      item "funding_stage" "Seed";
      item "amount_raised" "$1.5M";
      item "date_raised" "Summer 2025";
      item "data_quality" PATTERN_mark ]).

End Rows.

(** *** update_with_real_founders.py and batch_extract_founders.py

    [is_pattern_data] is the same function in both scripts. *)

Definition is_pattern_data (company : row) : result bool :=
  founder_first ← strip (get company "founder_first_name" "");
  founder_email ← strip (get company "founder_email" "");
  if eqb founder_first "Team" || eqb founder_first "" then mret true
  else if startswith founder_email "hello@" then mret true
  else
    founder_linkedin ← strip (get company "founder_linkedin" "");
    if negb (truthy founder_linkedin) then mret true
    else mret false.

(** [update_company_with_real_data] of update_with_real_founders.py *)
Definition update_company_with_real_data (company : row) (real_data : founder)
  : row :=
  with_items company [
    item "founder_first_name" (founder_first real_data);
    item "founder_last_name" (founder_last real_data);
    item "founder_email" (founder_email real_data);
    item "founder_linkedin" (founder_linkedin real_data);
    item "website" (website real_data);
    item "job_openings" (jobs real_data);
    item "funding_stage" (funding_stage real_data);
    item "amount_raised" (amount_raised real_data);
    item "date_raised" (date_raised real_data);
    item "data_quality" REAL_mark ].

(** The body of the loop of its [main]: [is_pattern_data] is called only
    when the name is a key of the table. *)
Definition merge_update (overrides : gmap str founder) (company : row)
  : result row :=
  let company_name := get company "Company_Name" "" in
  if in_table company_name overrides then
    pattern ← is_pattern_data company;
    if pattern : bool then
      match lookup_value overrides company_name with
      | Some real_data =>
          let updated_company := update_company_with_real_data company real_data in
          mret (update company updated_company)
      | None => mret company   (* not reached: the name is a key *)
      end
    else mret company
  else mret company.

(** [update_company_with_real_data] of batch_extract_founders.py *)
Definition batch_update_company_with_real_data
    (company : row) (real_data : BatchExtractFounders.founder) : row :=
  let jobs := get company "job_openings" "Software Engineering Intern, Product Intern" in
  let funding_stage := get company "funding_stage" "Seed" in
  let amount_raised := get company "amount_raised" "$1.5M" in
  let date_raised := get company "date_raised" "Summer 2025" in
  with_items company [
    item "founder_first_name" (BatchExtractFounders.founder_first real_data);
    item "founder_last_name" (BatchExtractFounders.founder_last real_data);
    item "founder_email" (BatchExtractFounders.founder_email real_data);
    item "founder_linkedin" (BatchExtractFounders.founder_linkedin real_data);
    item "website" (BatchExtractFounders.website real_data);
    kept "job_openings" jobs;
    kept "funding_stage" funding_stage;
    kept "amount_raised" amount_raised;
    kept "date_raised" date_raised;
    item "data_quality" REAL_mark ].

Definition batch_merge_update
    (overrides : gmap str BatchExtractFounders.founder) (company : row)
  : result row :=
  let company_name := get company "Company_Name" "" in
  if in_table company_name overrides then
    pattern ← is_pattern_data company;
    if pattern : bool then
      match lookup_value overrides company_name with
      | Some real_data =>
          let updated_company :=
            batch_update_company_with_real_data company real_data in
          mret (update company updated_company)
      | None => mret company   (* not reached: the name is a key *)
      end
    else mret company
  else mret company.

(** A line of the input file of main.py that stops after the name: the
    other columns of the header hold [None]. *)
Definition short_line : row := with_items ∅ [
  item "Company_Name" "Acme";
  kept "YC_Link" NoneValue;
  kept "Batch" NoneValue;
  kept "company_description" NoneValue ].

(** A line of the enriched file that stops after the name. *)
Definition short_enriched_line : row := with_items ∅ [
  item "Company_Name" "Freya";
  kept "founder_first_name" NoneValue;
  kept "founder_last_name" NoneValue;
  kept "founder_email" NoneValue;
  kept "founder_linkedin" NoneValue ].

End DictReader.
(** ** More Python values: a text or [None] *)

Module PyValue.

(** [bool(v)] *)
Definition truthy_value (v : option str) : bool :=
  match v with
  | Some s => truthy s
  | None => false
  end.

(** [f"{v}"] *)
Definition format_value (v : option str) : str :=
  match v with
  | Some s => s
  | None => "None"
  end.

(** [v == s] for a text [s] *)
Definition value_eqb (v : option str) (s : str) : bool :=
  match v with
  | Some s' => eqb s' s
  | None => false
  end.

(** [[p for p in values if p]] *)
Definition keep_truthy (values : list (option str)) : list str :=
  omap (fun v => match v with
                 | Some s => if truthy s then Some s else None
                 | None => None
                 end) values.

(** [s.rstrip(chars)] *)
Definition rstrip_chars (s chars : str) : str :=
  rev (drop_while (fun c => existsb (N.eqb c) chars) (rev s)).

End PyValue.

Import PyValue.

(** ** main.py: the loop of [main] over the rows *)

Module MainLoop.

(** The name of a row is a key of the table. *)
Definition in_table (overrides : gmap str founder) (company : dict) : bool :=
  has_key (get company "Company_Name" "") overrides.

(** The row has the columns that [enrich] indexes. *)
Definition enrichable (overrides : gmap str founder) (company : dict) : Prop :=
  ∃ name, company.["Company_Name"] = Some name
    ∧ (is_Some (overrides !! name) ∨ is_Some (company.["company_description"])).

Section Loop.
Context `{UnicodeTables}.

(** The [for] loop from the rows still to do, with [enriched] and
    [real_count] as they stand; the table is an argument as for [enrich]. *)
Fixpoint loop (overrides : gmap str founder) (companies : list dict)
    (enriched : list dict) (real_count : nat) : result (list dict * nat) :=
  match companies with
  | [] => mret (enriched, real_count)
  | company :: rest =>
      enriched_company ← Main.enrich overrides company;
      let enriched := enriched ++ [enriched_company] in
      data_quality ← getitem enriched_company "data_quality";
      let real_count :=
        if eqb data_quality REAL_mark then real_count + 1 else real_count in
      loop overrides rest enriched real_count
  end.

(** What [main] has when the loop is over:
    [(enriched, real_count, pattern_count)]. *)
Definition main (overrides : gmap str founder) (companies : list dict)
  : result (list dict * nat * nat) :=
  '(enriched, real_count) ← loop overrides companies [] 0;
  let pattern_count := length companies - real_count in
  mret (enriched, real_count, pattern_count).

End Loop.

End MainLoop.

(** ** The scripts that select rows by their marker

    [enrich_from_yc_pages.py], [update_csv_with_real_data.py],
    [update_with_real_data.py], [find_real_founders.py] and
    [get_pattern_companies.py] all start from these comprehensions. *)

Module EnrichFromYcPages.

(** [[c for c in companies if c.get('data_quality') == PATTERN]] *)
Definition pattern_companies (companies : list dict) : list dict :=
  List.filter (fun c => value_eqb (c.["data_quality"]) PATTERN_mark) companies.

(** [[c for c in companies if c.get('data_quality') == REAL]] *)
Definition real_companies (companies : list dict) : list dict :=
  List.filter (fun c => value_eqb (c.["data_quality"]) REAL_mark) companies.

End EnrichFromYcPages.

(** ** update_with_real_founders.py and batch_extract_founders.py: the loop
    of [main] and the counts it prints *)

Module UpdateLoop.

(** The [for] loop: each row after its step, and [updated_count]. *)
Fixpoint loop (overrides : gmap str founder) (companies : list dict)
    (updated_count : nat) : list dict * nat :=
  match companies with
  | [] => ([], updated_count)
  | company :: rest =>
      let company_name := get company "Company_Name" "" in
      let updated_count :=
        if has_key company_name overrides
           && UpdateWithRealFounders.is_pattern_data company
        then updated_count + 1 else updated_count in
      let '(companies', updated_count) := loop overrides rest updated_count in
      (UpdateWithRealFounders.merge_update overrides company :: companies',
       updated_count)
  end.

(** [sum(1 for c in companies if is_pattern_data(c))] *)
Definition pattern_count (companies : list dict) : nat :=
  length (List.filter UpdateWithRealFounders.is_pattern_data companies).

(** [len(companies) - pattern_count] *)
Definition real_count (companies : list dict) : nat :=
  length companies - pattern_count companies.

End UpdateLoop.

Module BatchLoop.

Fixpoint loop (overrides : gmap str BatchExtractFounders.founder)
    (companies : list dict) (updated_count : nat) : list dict * nat :=
  match companies with
  | [] => ([], updated_count)
  | company :: rest =>
      let company_name := get company "Company_Name" "" in
      let updated_count :=
        if has_key company_name overrides
           && BatchExtractFounders.is_pattern_data company
        then updated_count + 1 else updated_count in
      let '(companies', updated_count) := loop overrides rest updated_count in
      (BatchExtractFounders.merge_update overrides company :: companies',
       updated_count)
  end.

Definition pattern_count (companies : list dict) : nat :=
  length (List.filter BatchExtractFounders.is_pattern_data companies).

Definition real_count (companies : list dict) : nat :=
  length companies - pattern_count companies.

End BatchLoop.

(** ** Marker and rule *)

Module Quality.

(** The marker of the row says what the classification rule says. *)
Definition consistent (row : dict) : Prop :=
  (row.["data_quality"] = Some REAL_mark
   ∧ UpdateWithRealFounders.is_pattern_data row = false)
  ∨ (row.["data_quality"] = Some PATTERN_mark
     ∧ UpdateWithRealFounders.is_pattern_data row = true).

(** An entry of the table of [batch_extract_founders.py] that the
    classification rule takes for real data. *)
Definition batch_verified (data : BatchExtractFounders.founder) : Prop :=
  ¬ Pipeline.pattern_rule
      (strip (BatchExtractFounders.founder_first data))
      (strip (BatchExtractFounders.founder_email data))
      (strip (BatchExtractFounders.founder_linkedin data)).

#[global] Instance batch_verified_dec (data : BatchExtractFounders.founder) :
  Decision (batch_verified data).
Proof. unfold batch_verified. apply _. Defined.

(** The rows that the loop of an update script updates. *)
Definition to_update {V} (overrides : gmap str V) (company : dict) : bool :=
  has_key (get company "Company_Name" "") overrides
  && UpdateWithRealFounders.is_pattern_data company.

(** The job and funding columns, which [batch_extract_founders.py] takes
    from the row. *)
Definition kept_fields : list str := strs [
  "job_openings"; "funding_stage"; "amount_raised"; "date_raised" ].

End Quality.

(** ** find_real_founders.py *)

Module FindRealFounders.
Import Re.

Section Queries.
Context `{UnicodeTables}.

Definition extract_company_name_from_yc_link (yc_link : str) : option str :=
  if negb (truthy yc_link) then None
  else
    match search FindFundingRounds.slug_pattern yc_link NoFlags with
    | Some m => group m 1
    | None => None
    end.

Definition search_founder_info (company_name yc_link description : str)
  : list str :=
  let search_queries := [
    cat company_name " Y Combinator founder";
    cat company_name " founder CEO";
    cat company_name " YC Summer 2025" ] in
  let company_slug := extract_company_name_from_yc_link yc_link in
  if truthy_value company_slug
  then search_queries ++ [cat (format_value company_slug) " founder"]
  else search_queries.

End Queries.

End FindRealFounders.

(** ** update_csv_with_real_data.py *)

Module UpdateCsvWithRealData.

Definition extract_domain_from_website (website : str) : option str :=
  if negb (truthy website) then None
  else
    let domain :=
      replace (replace (replace website "http://" "") "https://" "") "www." "" in
    let domain := rstrip_chars domain "/" in
    Some domain.

Section Email.
Context `{UnicodeTables}.

(** [domain] may be the [None] of [extract_domain_from_website]; the names
    are texts of a row. *)
Definition generate_email_from_domain (domain : option str)
    (first_name last_name : str) : str :=
  if negb (truthy_value domain) || negb (truthy first_name)
  then cat "hello@" (format_value domain)
  else
    let first_lower := lower first_name in
    let last_lower := if truthy last_name then lower last_name else "" in
    let patterns : list (option str) := [
      Some (cat first_lower (cat "@" (format_value domain)));
      if truthy last_lower
      then Some (cat first_lower (cat "." (cat last_lower
                   (cat "@" (format_value domain)))))
      else None;
      if truthy last_lower
      then Some (cat first_lower (cat last_lower
                   (cat "@" (format_value domain))))
      else None ] in
    if existsb truthy (keep_truthy patterns)
    then default [] (head (keep_truthy patterns))
    else cat "hello@" (format_value domain).

End Email.

End UpdateCsvWithRealData.

(** ** update_with_real_data.py *)

Module UpdateWithRealData.

Definition extract_domain_from_website (website : str) : option str :=
  if negb (truthy website) then None
  else
    let domain :=
      replace (replace (replace website "http://" "") "https://" "") "www." "" in
    let domain := rstrip_chars domain "/" in
    Some domain.

Section Email.
Context `{UnicodeTables}.

Definition generate_email_from_name (domain : option str)
    (first_name last_name : str) : option (list str) :=
  if negb (truthy_value domain) || negb (truthy first_name)
  then None
  else
    let first_lower := lower first_name in
    let last_lower := if truthy last_name then lower last_name else "" in
    let patterns : list (option str) := [
      Some (cat first_lower (cat "@" (format_value domain)));
      if truthy last_lower
      then Some (cat first_lower (cat "." (cat last_lower
                   (cat "@" (format_value domain)))))
      else None;
      if truthy last_lower
      then Some (cat first_lower (cat last_lower
                   (cat "@" (format_value domain))))
      else None ] in
    Some (keep_truthy patterns).

End Email.

End UpdateWithRealData.

(** ** find_actual_funding.py: the row that [main] builds *)

Module FindActualFundingMain.

Section Row.
Context `{UnicodeTables}.

(** The body of the loop over the rows: [enriched_company].  [progress] is
    the content of the progress file, a dict of rows by lowercased company
    name.  The value of [company_slug] may be [None], so the values of the
    row built are texts or [None]. *)
Definition enriched_company (progress : gmap str dict) (company : dict)
  : gmap str (option str) :=
  let company_name := get company "Company_Name" "" in
  let batch := get company "Batch" "" in
  let yc_link := get company "YC_Link" "" in
  let company_slug := FindFundingRounds.extract_company_slug yc_link in
  let company_key := lower company_name in
  let '(funding_round, funding_amount, funding_date, funding_source) :=
    match progress !! company_key with
    | Some saved =>
        (get saved "funding_round" "",
         get saved "funding_amount" "",
         get saved "funding_date" "",
         get saved "funding_source" "Manual")
    | None =>
        (str_of_string "Seed",
         str_of_string "",
         if truthy batch then batch else str_of_string "",
         str_of_string "YC Batch (Default - Needs Verification)")
    end in
  <[str_of_string "company_slug" := company_slug]>
    (Some <$> with_items company [
       item "funding_round" funding_round;
       item "funding_amount" funding_amount;
       item "funding_date" funding_date;
       item "funding_source" funding_source ]).

End Row.

End FindActualFundingMain.

(** ** find_actual_funding.py: the parts of its patterns *)

Module FundingParts.
Import Re FindActualFunding.

(** The round labels of the patterns. *)
Definition labels3 : regex := Alt (Lit "seed") (Alt series (Lit "pre-seed")).

Definition labels4 : regex :=
  Alt (Lit "seed") (Alt series (Alt (Lit "pre-seed") series)).

(** What may follow the ["$"] of an amount. *)
Definition amount_body : charset := one_of [Decimal; Chars "."; Chars "MBK"].

(** The characters that [amount_body] stands for under [re.IGNORECASE],
    spelled out: an ASCII digit; a dot or one of M, B, K in either case;
    or a character outside ASCII that the tables of the interpreter take
    for a decimal digit or for a case variant of a dot or of m, b, k (in
    Unicode the Kelvin sign U+212A is one of k). *)
Definition amount_char `{UnicodeTables} (c : N) : Prop :=
  (48 <= c <= 57)%N
  ∨ c ∈ [ord "."; ord "M"; ord "B"; ord "K"; ord "m"; ord "b"; ord "k"]
  ∨ (is_ascii c = false
     ∧ (decimal_hi c = true
        ∨ fold_hi c ∈ [ord "."; ord "m"; ord "b"; ord "k"])).

(** Tables with the Kelvin sign as a case variant of k, and nothing else
    outside ASCII. *)
Definition kelvin_tables : UnicodeTables :=
  {| lower_hi := fun s => s;
     decimal_hi := fun _ => false;
     fold_hi := fun c => if (c =? 0x212A)%N then ord "k" else c |}.

End FundingParts.

(** ** Texts that keep a pattern out *)

Module Text.

(** [u] and [p] differ at a place that both have: whatever follows [u], the
    text does not start with [p]. *)
Fixpoint clash (u p : str) : bool :=
  match u, p with
  | c :: u', a :: p' => negb (c =? a)%N || clash u' p'
  | _, _ => false
  end.

(** No occurrence of [p] starts inside [a], whatever follows [a]. *)
Fixpoint free (a p : str) : bool :=
  match a with
  | [] => true
  | _ :: a' => clash a p && free a' p
  end.

(** The characters that [extract_domain] removes one by one. *)
Definition removed_chars : list N := [ord " "; ord ","; ord "."; ord "-"].

End Text.

(** ** More sample rows *)

Module Rows.

(** A row of the enriched file that still has pattern data. *)
Definition freya_pattern : dict := with_items ∅ [
  item "Company_Name" "Freya";
  item "founder_first_name" "Team";
  item "founder_last_name" "";
  item "founder_email" "hello@freya.com";
  item "founder_linkedin" "";
  item "website" "freya.com";
  item "job_openings" "Founding Engineer";
  item "funding_stage" "Seed";
  item "amount_raised" "$500K";
  item "date_raised" "Summer 2025";
  item "data_quality" PATTERN_mark ].

(** The row of Freya with verified data and its marker. *)
Definition freya_real : dict :=
  with_items Samples.freya [ item "data_quality" REAL_mark ].

End Rows.
(** * Properties *)

Import Pipeline.

(** ** Rows built with [with_items] *)

Section Dict.
Implicit Types (d : dict) (k v : str) (entries : list (str * str)).

Lemma lookup_with_items entries d k :
  with_items d entries !! k =
  match find_item k entries with
  | Some v => Some v
  | None => d !! k
  end.
Proof.
  revert d. induction entries as [|[k' v] rest IH]; intros d; [done|].
  unfold with_items in *. cbn [foldl fst snd]. rewrite IH. cbn [find_item].
  destruct (find_item k rest); [done|].
  unfold set, eqb. rewrite lookup_insert.
  destruct (decide (k' = k)) as [->|Hne].
  - by rewrite bool_decide_eq_true_2.
  - rewrite bool_decide_eq_false_2; [done|]. congruence.
Qed.

Lemma find_item_None entries k :
  k ∉ entries.*1 → find_item k entries = None.
Proof.
  induction entries as [|[k' v] rest IH]; [done|].
  cbn. intros Hk. apply not_elem_of_cons in Hk as [Hne Hk].
  rewrite (IH Hk). unfold eqb. by rewrite bool_decide_eq_false_2.
Qed.

Lemma lookup_with_items_other entries d k :
  k ∉ entries.*1 → with_items d entries !! k = d !! k.
Proof. intros Hk. by rewrite lookup_with_items, find_item_None. Qed.

Lemma lookup_with_items_is_Some entries d k :
  is_Some (d !! k) → is_Some (with_items d entries !! k).
Proof.
  intros Hk. rewrite lookup_with_items. by destruct (find_item k entries).
Qed.

(** Reading with a default does not tell a missing column from one that
    holds the default. *)
Lemma get_set_default record k k' (default : str) :
  record !! k = None →
  get (set k default record) k' default = get record k' default.
Proof.
  intros Hk. unfold get, set. rewrite lookup_insert.
  destruct (decide (k = k')) as [<-|]; [by rewrite Hk|done].
Qed.

Lemma get_set_other record k k' (v default : str) :
  k ≠ k' → get (set k v record) k' default = get record k' default.
Proof. intros Hk. unfold get, set. by rewrite lookup_insert_ne. Qed.

End Dict.

(** ** Texts: occurrences and removal *)

Section Texts.
Implicit Types (s old new p word : str).

Lemma startswith_prefix (s p : str) : startswith s p = true ↔ p `prefix_of` s.
Proof.
  revert s. induction p as [|a p IH]; intros s; cbn [startswith].
  - split; [intros _; apply prefix_nil|done].
  - destruct s as [|c s].
    + split; [done|]. by intros ?%prefix_nil_not.
    + rewrite andb_true_iff, N.eqb_eq, IH. split.
      * intros [-> Hp]. by apply prefix_cons.
      * intros Hp. split; [by apply prefix_cons_inv_1 in Hp|].
        by apply prefix_cons_inv_2 in Hp.
Qed.

Lemma contains_false_cons (p : str) (c : N) (s : str) :
  contains p (c :: s) = false →
  startswith (c :: s) p = false ∧ contains p s = false.
Proof. cbn [contains]. by intros [? ?]%orb_false_iff. Qed.

Lemma replace_nonempty s old new :
  old ≠ [] → replace s old new = replace_from old new 0 s.
Proof. by destruct old. Qed.

Lemma replace_from_skip old new (w s : str) :
  replace_from old new (length w) (w ++ s) = replace_from old new 0 s.
Proof. induction w as [|c w IH]; [done|]. cbn [app length replace_from]. done. Qed.

(** The substring test finds exactly the occurrences. *)
Lemma contains_occurs word s : contains word s = true ↔ Spec.occurs word s.
Proof.
  split.
  - induction s as [|c s IH]; cbn [contains].
    + rewrite orb_false_r. intros [after ->]%startswith_prefix.
      by exists [], after.
    + intros [[after ->]%startswith_prefix|Hlater]%orb_true_iff.
      * by exists [], after.
      * destruct (IH Hlater) as (before & after & ->).
        by exists (c :: before), after.
  - intros (before & after & ->).
    induction before as [|c before IH].
    + assert (startswith ([] ++ word ++ after) word = true) as Hstart
        by (apply startswith_prefix; by exists after).
      destruct (word ++ after); cbn [app contains] in *; by rewrite Hstart.
    + change ((c :: before) ++ word ++ after)
        with (c :: (before ++ word ++ after)).
      cbn [contains]. by rewrite IH, orb_true_r.
Qed.

Lemma any_in_occurs (words : list str) s :
  any_in words s = true ↔ Exists (fun word => Spec.occurs word s) words.
Proof.
  unfold any_in. rewrite existsb_exists, Exists_exists. split.
  - intros (word & Hin%list_elem_of_In & Hword%contains_occurs). by exists word.
  - intros (word & Hin%list_elem_of_In & Hword%contains_occurs). by exists word.
Qed.

Lemma any_in_no_occurs (words : list str) s :
  any_in words s = false ↔ Forall (fun word => ¬ Spec.occurs word s) words.
Proof.
  rewrite <- not_true_iff_false, any_in_occurs. split.
  - intros Hnone. apply Forall_forall. intros word Hin Hword.
    apply Hnone, Exists_exists. by exists word.
  - intros Hall (word & Hin & Hword)%Exists_exists.
    by apply (proj1 (Forall_forall _ _) Hall word).
Qed.

(** Replacing by the empty text removes the occurrences from left to
    right. *)
Lemma replace_without s old :
  old ≠ [] → Spec.without old s (replace s old "").
Proof.
  intros Hold. rewrite replace_nonempty by done.
  change (str_of_string "") with (@nil N).
  induction s as [s IH] using (induction_ltof1 _ (@length N)).
  unfold ltof in IH. destruct s as [|c s]; [constructor|].
  cbn [replace_from].
  destruct (startswith (c :: s) old) eqn:Hstart.
  - apply startswith_prefix in Hstart as [rest Hrest].
    destruct old as [|o old]; [done|]. injection Hrest as -> ->.
    cbn [app length Nat.sub]. rewrite Nat.sub_0_r, replace_from_skip.
    apply (Spec.without_here (o :: old)); [done|].
    apply IH. cbn [length]. rewrite length_app. lia.
  - apply Spec.without_keep.
    + intros Hprefix%startswith_prefix. congruence.
    + apply IH. cbn [length]. lia.
Qed.

(** What is left is determined. *)
Lemma without_functional old s rest1 rest2 :
  Spec.without old s rest1 → Spec.without old s rest2 → rest1 = rest2.
Proof.
  intros H1. revert rest2.
  induction H1 as [|s rest1 Hold H1 IH|c s rest1 Hprefix H1 IH];
    intros rest2 H2.
  - remember (@nil N) as text eqn:Htext.
    destruct H2 as [|s' rest2 Hold _|c s' rest2 _ _]; [done| |done].
    by apply app_eq_nil in Htext as [-> _].
  - remember (old ++ s) as text eqn:Htext.
    destruct H2 as [|s' rest2 _ H2|c s' rest2 Hprefix H2].
    + symmetry in Htext. apply app_eq_nil in Htext as [-> _]. done.
    + apply app_inv_head in Htext as ->. by apply IH.
    + destruct Hprefix. rewrite Htext. by exists s.
  - remember (c :: s) as text eqn:Htext.
    destruct H2 as [|s' rest2 _ H2|c' s' rest2 _ H2].
    + done.
    + destruct Hprefix. by exists s'.
    + injection Htext as -> ->. f_equal. by apply IH.
Qed.

Lemma stripped_foldl (removes : list str) s :
  Forall (fun old => old ≠ []) removes →
  Spec.stripped removes s
    (foldl (fun domain remove => replace domain remove "") s removes).
Proof.
  intros Hremoves. revert s.
  induction Hremoves as [|old removes Hold _ IH]; intros s; [done|].
  cbn [Spec.stripped foldl]. eexists. split; [by apply replace_without|apply IH].
Qed.

Lemma stripped_functional (removes : list str) s stem1 stem2 :
  Spec.stripped removes s stem1 → Spec.stripped removes s stem2 →
  stem1 = stem2.
Proof.
  revert s. induction removes as [|old removes IH]; intros s; cbn [Spec.stripped].
  - congruence.
  - intros (middle1 & Hold1 & H1) (middle2 & Hold2 & H2).
    rewrite (without_functional _ _ _ _ Hold1 Hold2) in H1. by eapply IH.
Qed.

Lemma job_choice_functional (rules : list (list str * str)) desc jobs1 jobs2 :
  Spec.job_choice rules desc jobs1 → Spec.job_choice rules desc jobs2 →
  jobs1 = jobs2.
Proof.
  induction rules as [|[keywords listing] rules IH]; cbn [Spec.job_choice].
  - congruence.
  - intros [[Hsome1 ->]|[Hnone1 H1]] [[Hsome2 ->]|[Hnone2 H2]].
    + done.
    + apply Exists_exists in Hsome1 as (word & Hin & Hword).
      by destruct (proj1 (Forall_forall _ _) Hnone2 word Hin).
    + apply Exists_exists in Hsome2 as (word & Hin & Hword).
      by destruct (proj1 (Forall_forall _ _) Hnone1 word Hin).
    + by apply IH.
Qed.

End Texts.

(** ** main.py: enrichment *)

(** Running a [result] computation one step. *)
Ltac step_result := cbn [mbind mret result_bind result_ret].

Section Enrichment.
Context `{UnicodeTables}.

(** Whatever [enrich] returns is the input row with the ten enriched
    columns written over it. *)
Lemma enrich_writes_enriched_fields
    (overrides : gmap str founder) (record out : dict) :
  Main.enrich overrides record = Return out →
  ∃ entries, out = with_items record entries ∧ entries.*1 = enriched_fields.
Proof.
  unfold Main.enrich, getitem.
  destruct (record.["Company_Name"]) as [name|]; [|done]. step_result.
  destruct (overrides !! name) as [data|].
  - intros [= <-]. eexists. split; reflexivity.
  - destruct (record.["company_description"]) as [description|]; [|done]. step_result.
    intros [= <-]. eexists. split; reflexivity.
Qed.

(** [enrich] returns a row as soon as the columns it indexes are there. *)
Lemma enrich_returns
    (overrides : gmap str founder) (record : dict) (name : str) :
  record.["Company_Name"] = Some name →
  is_Some (overrides !! name) ∨ is_Some (record.["company_description"]) →
  ∃ out, Main.enrich overrides record = Return out.
Proof.
  intros Hname Hor. unfold Main.enrich, getitem. rewrite Hname. step_result.
  destruct (overrides !! name) as [data|]; [by eexists|].
  destruct Hor as [[? [=]]|[description ->]]. by eexists.
Qed.

(** The chain of tests on the description chooses as the specification
    says: the first keyword group with a keyword that occurs decides. *)
Lemma job_chain_choice (desc_lower : str) :
  Spec.job_choice job_rules desc_lower
    (if any_in (strs ["ai"; "ml"; "machine learning"; "llm"]) desc_lower
     then str_of_string "ML Engineering Intern, AI Research Intern"
     else if any_in (strs ["developer"; "code"; "software"]) desc_lower
     then str_of_string "Software Engineering Intern, Product Engineering Intern"
     else if any_in (strs ["data"; "analytics"]) desc_lower
     then str_of_string "Data Science Intern, Analytics Intern"
     else str_of_string "Software Engineering Intern, Product Intern").
Proof.
  unfold job_rules. cbn [Spec.job_choice].
  destruct (any_in (strs ["ai"; "ml"; "machine learning"; "llm"]) desc_lower)
    eqn:Hai.
  { left. split; [by apply any_in_occurs|done]. }
  right. split; [by apply any_in_no_occurs|].
  destruct (any_in (strs ["developer"; "code"; "software"]) desc_lower)
    eqn:Hsoftware.
  { left. split; [by apply any_in_occurs|done]. }
  right. split; [by apply any_in_no_occurs|].
  destruct (any_in (strs ["data"; "analytics"]) desc_lower) eqn:Hdata.
  { left. split; [by apply any_in_occurs|done]. }
  right. split; [by apply any_in_no_occurs|done].
Qed.

(** What [extract_domain] returns is the derived domain of the
    specification, with the strip list of the source. *)
Lemma extract_domain_derived (company_name : str) :
  Spec.derived_domain company_name (Main.extract_domain company_name).
Proof.
  unfold Spec.derived_domain, Main.extract_domain. cbv zeta.
  eexists. split; [|reflexivity].
  apply stripped_foldl. unfold strs. cbn [map].
  repeat (constructor; [done|]). constructor.
Qed.

Lemma derived_domain_functional (company_name domain1 domain2 : str) :
  Spec.derived_domain company_name domain1 →
  Spec.derived_domain company_name domain2 → domain1 = domain2.
Proof.
  intros (stem1 & H1 & ->) (stem2 & H2 & ->).
  by rewrite (stripped_functional _ _ _ _ H1 H2).
Qed.

(** C1, amended. For a row of texts and an override table.  On a row
    without [Company_Name], [enrich] raises [KeyError].  When the name is
    a key of the table, it returns the row with the founder first and last
    name, email, LinkedIn, website, job openings, funding stage, amount
    raised and date raised replaced by the values of the override and
    [data_quality] set to the REAL marker.  Otherwise it reads
    [company_description]: without that column it raises [KeyError]; with
    it, it returns the row with first name ["Team"], last name and LinkedIn
    empty, email ["hello@"] followed by the derived domain, website the
    derived domain, job openings chosen by the keyword groups in their
    priority order, funding ["Seed"], ["$1.5M"], ["Summer 2025"], and
    [data_quality] set to the PATTERN marker.  The derived domain is the
    lowercased name from which the texts of the strip list were removed one
    after the other, each at all its occurrences from left to right, with
    [".com"] after it; domain and job listing are the only ones that fit
    these words.  In both cases every other column is as in the input. *)
Theorem enrich_real_or_pattern (overrides : gmap str founder) (record : dict) :
  (record.["Company_Name"] = None →
   Main.enrich overrides record = Raise (KeyError "Company_Name"))
  ∧ ∀ name, record.["Company_Name"] = Some name →
    (∀ data, overrides !! name = Some data →
       ∃ out, Main.enrich overrides record = Return out
         ∧ out.["founder_first_name"] = Some (founder_first data)
         ∧ out.["founder_last_name"] = Some (founder_last data)
         ∧ out.["founder_email"] = Some (founder_email data)
         ∧ out.["founder_linkedin"] = Some (founder_linkedin data)
         ∧ out.["website"] = Some (website data)
         ∧ out.["job_openings"] = Some (jobs data)
         ∧ out.["funding_stage"] = Some (funding_stage data)
         ∧ out.["amount_raised"] = Some (amount_raised data)
         ∧ out.["date_raised"] = Some (date_raised data)
         ∧ out.["data_quality"] = Some REAL_mark
         ∧ ∀ k, k ∉ enriched_fields → out !! k = record !! k)
    ∧ (overrides !! name = None →
       (record.["company_description"] = None →
        Main.enrich overrides record = Raise (KeyError "company_description"))
       ∧ ∀ description, record.["company_description"] = Some description →
         ∃ out domain job_openings,
           Main.enrich overrides record = Return out
           ∧ Spec.derived_domain name domain
           ∧ (∀ domain', Spec.derived_domain name domain' → domain' = domain)
           ∧ Spec.job_choice job_rules (lower description) job_openings
           ∧ (∀ job_openings',
                Spec.job_choice job_rules (lower description) job_openings' →
                job_openings' = job_openings)
           ∧ out.["founder_first_name"] = Some ("Team" : str)
           ∧ out.["founder_last_name"] = Some ("" : str)
           ∧ out.["founder_email"] = Some (cat "hello@" domain)
           ∧ out.["founder_linkedin"] = Some ("" : str)
           ∧ out.["website"] = Some domain
           ∧ out.["job_openings"] = Some job_openings
           ∧ out.["funding_stage"] = Some ("Seed" : str)
           ∧ out.["amount_raised"] = Some ("$1.5M" : str)
           ∧ out.["date_raised"] = Some ("Summer 2025" : str)
           ∧ out.["data_quality"] = Some PATTERN_mark
           ∧ ∀ k, k ∉ enriched_fields → out !! k = record !! k).
Proof.
  split.
  { intros Hname. unfold Main.enrich, getitem. by rewrite Hname. }
  intros name Hname. split.
  - intros data Hdata. unfold Main.enrich, getitem.
    rewrite Hname. step_result. rewrite Hdata.
    eexists. split; [reflexivity|].
    repeat split; try (rewrite lookup_with_items; reflexivity).
    intros k Hk. by apply lookup_with_items_other.
  - intros Hnone. split.
    { intros Hdesc. unfold Main.enrich, getitem.
      rewrite Hname. step_result. by rewrite Hnone, Hdesc. }
    intros description Hdesc. unfold Main.enrich, getitem.
    rewrite Hname. step_result. rewrite Hnone, Hdesc. step_result.
    eexists. exists (Main.extract_domain name). eexists.
    split; [reflexivity|].
    split; [apply extract_domain_derived|].
    split.
    { intros domain' Hdomain'.
      exact (derived_domain_functional _ _ _ Hdomain' (extract_domain_derived name)). }
    split; [apply job_chain_choice|].
    split.
    { intros jobs' Hjobs'.
      exact (job_choice_functional _ _ _ _ Hjobs' (job_chain_choice _)). }
    repeat split; try (rewrite lookup_with_items; reflexivity).
    intros k Hk. by apply lookup_with_items_other.
Qed.

(** C10. Whenever [enrich] returns a row, that row has every column
    outside the ten enriched ones with the value of the input,
    [Company_Name], [YC_Link], [Batch] and [company_description] among them,
    and it has every column that the input has; and [enrich] does return a
    row when the input has the columns it indexes. *)
Theorem enrich_frame (overrides : gmap str founder) (record : dict) :
  (∀ out, Main.enrich overrides record = Return out →
     (∀ k, k ∉ enriched_fields → out !! k = record !! k)
     ∧ (∀ k, is_Some (record !! k) → is_Some (out !! k))
     ∧ out.["Company_Name"] = record.["Company_Name"]
     ∧ out.["YC_Link"] = record.["YC_Link"]
     ∧ out.["Batch"] = record.["Batch"]
     ∧ out.["company_description"] = record.["company_description"])
  ∧ (∀ name,
     record.["Company_Name"] = Some name →
     is_Some (overrides !! name) ∨ is_Some (record.["company_description"]) →
     ∃ out, Main.enrich overrides record = Return out).
Proof.
  split; [|apply enrich_returns].
  intros out (entries & -> & Hkeys)%enrich_writes_enriched_fields.
  assert (Hframe : ∀ k, k ∉ enriched_fields →
            with_items record entries !! k = record !! k).
  { intros k Hk. apply lookup_with_items_other. by rewrite Hkeys. }
  split; [done|]. split.
  { intros k. apply lookup_with_items_is_Some. }
  repeat split; apply Hframe; compute_done.
Qed.

End Enrichment.

(** ** The update scripts: classification and the merge step *)

Section Classification.
Implicit Types (record : dict) (k : str).

Lemma eqb_true (a b : str) : eqb a b = true ↔ a = b.
Proof. unfold eqb. apply bool_decide_eq_true. Qed.

Lemma truthy_false (s : str) : truthy s = false ↔ s = [].
Proof. by destruct s. Qed.

(** The chain of early returns of [is_pattern_data], as one disjunction on
    the three stripped texts. *)
Lemma is_pattern_data_iff record :
  UpdateWithRealFounders.is_pattern_data record = true ↔
  pattern_rule (strip (field record "founder_first_name"))
               (strip (field record "founder_email"))
               (strip (field record "founder_linkedin")).
Proof.
  unfold UpdateWithRealFounders.is_pattern_data, pattern_rule, field.
  set (first_name := strip (get record "founder_first_name" "")).
  set (email := strip (get record "founder_email" "")).
  set (linkedin := strip (get record "founder_linkedin" "")).
  destruct (eqb first_name "Team") eqn:Hteam.
  { apply eqb_true in Hteam. cbn. split; [intros _|done]. right. by left. }
  destruct (eqb first_name "") eqn:Hempty.
  { apply eqb_true in Hempty. cbn. split; [intros _|done]. by left. }
  cbn [orb].
  assert (first_name ≠ str_of_string "Team") by (rewrite <- eqb_true; congruence).
  assert (first_name ≠ []) by (rewrite <- (eqb_true _ ""); congruence).
  destruct (startswith email "hello@") eqn:Hhello.
  { split; [intros _|done]. right. right. by left. }
  destruct (truthy linkedin) eqn:Hlinkedin; cbn [negb].
  - split; [done|]. intros [?|[?|[?|Hl]]]; try done.
    apply truthy_false in Hl. congruence.
  - split; [intros _|done]. do 3 right. by apply truthy_false.
Qed.

Lemma both_is_pattern_data record :
  BatchExtractFounders.is_pattern_data record =
  UpdateWithRealFounders.is_pattern_data record.
Proof. reflexivity. Qed.

Lemma classify_PATTERN record :
  classify record = PATTERN ↔ UpdateWithRealFounders.is_pattern_data record = true.
Proof.
  unfold classify. by destruct (UpdateWithRealFounders.is_pattern_data record).
Qed.

Lemma classify_REAL record :
  classify record = REAL ↔ UpdateWithRealFounders.is_pattern_data record = false.
Proof.
  unfold classify. by destruct (UpdateWithRealFounders.is_pattern_data record).
Qed.

(** C2, amended. [classify] returns PATTERN if and only if, after the
    white space around each text is stripped and a missing column is read
    as empty, [founder_first_name] is empty or is ["Team"], or
    [founder_email] starts with ["hello@"], or [founder_linkedin] is empty;
    in all other cases it returns REAL.  Nothing else decides: the
    [data_quality] marker of the row has no part in it, and the two update
    scripts carry the same predicate. *)
Theorem classify_stripped_rule record :
  (classify record = PATTERN ↔
     pattern_rule (strip (field record "founder_first_name"))
                  (strip (field record "founder_email"))
                  (strip (field record "founder_linkedin")))
  ∧ (classify record = REAL ↔
     ¬ pattern_rule (strip (field record "founder_first_name"))
                    (strip (field record "founder_email"))
                    (strip (field record "founder_linkedin")))
  ∧ (∀ marker, classify (set "data_quality" marker record) = classify record)
  ∧ BatchExtractFounders.is_pattern_data record =
    UpdateWithRealFounders.is_pattern_data record.
Proof.
  split; [|split; [|split]].
  - rewrite classify_PATTERN. apply is_pattern_data_iff.
  - rewrite classify_REAL, <- is_pattern_data_iff.
    by destruct (UpdateWithRealFounders.is_pattern_data record).
  - intros marker. unfold classify, UpdateWithRealFounders.is_pattern_data.
    by rewrite !(get_set_other _ "data_quality") by (by vm_compute).
  - apply both_is_pattern_data.
Qed.

End Classification.

Section Merge.
Implicit Types (record : dict) (k : str) (entries : list (str * str)).

(** Updating a row with a copy of itself that has columns written over it
    gives that copy. *)
Lemma update_with_items record entries :
  update record (with_items record entries) = with_items record entries.
Proof.
  unfold update. apply map_eq. intros k.
  rewrite lookup_union, lookup_with_items.
  destruct (find_item k entries); [by destruct (record !! k)|].
  by destruct (record !! k).
Qed.

(** Writing the same columns a second time changes nothing. *)
Lemma with_items_twice record entries :
  with_items (with_items record entries) entries = with_items record entries.
Proof.
  apply map_eq. intros k. rewrite !lookup_with_items.
  by destruct (find_item k entries).
Qed.

Lemma get_with_items_other record entries k default :
  k ∉ entries.*1 → get (with_items record entries) k default = get record k default.
Proof. intros Hk. unfold get. by rewrite lookup_with_items_other. Qed.

Lemma get_with_items record entries k v default :
  find_item k entries = Some v → get (with_items record entries) k default = v.
Proof. intros Hk. unfold get. by rewrite lookup_with_items, Hk. Qed.

(** *** update_with_real_founders.py *)

Lemma update_merge_update_cases (overrides : gmap str founder) record :
  UpdateWithRealFounders.merge_update overrides record =
  match overrides !! get record "Company_Name" "" with
  | Some real_data =>
      if UpdateWithRealFounders.is_pattern_data record
      then UpdateWithRealFounders.update_company_with_real_data record real_data
      else record
  | None => record
  end.
Proof.
  unfold UpdateWithRealFounders.merge_update, has_key.
  destruct (overrides !! get record "Company_Name" "") as [real_data|] eqn:Hov.
  - rewrite bool_decide_eq_true_2 by done. cbn [andb].
    destruct (UpdateWithRealFounders.is_pattern_data record); [|done].
    apply update_with_items.
  - rewrite bool_decide_eq_false_2; [done|]. by intros [? ?].
Qed.

Lemma update_company_name record real_data :
  get (UpdateWithRealFounders.update_company_with_real_data record real_data)
      "Company_Name" ""
  = get record "Company_Name" "".
Proof.
  unfold UpdateWithRealFounders.update_company_with_real_data.
  apply get_with_items_other. compute_done.
Qed.

Lemma update_merge_update_idempotent (overrides : gmap str founder) record :
  UpdateWithRealFounders.merge_update overrides
    (UpdateWithRealFounders.merge_update overrides record)
  = UpdateWithRealFounders.merge_update overrides record.
Proof.
  rewrite (update_merge_update_cases overrides record).
  destruct (overrides !! get record "Company_Name" "") as [real_data|] eqn:Hov.
  - destruct (UpdateWithRealFounders.is_pattern_data record) eqn:Hpattern.
    + rewrite update_merge_update_cases, update_company_name, Hov.
      destruct (UpdateWithRealFounders.is_pattern_data
                  (UpdateWithRealFounders.update_company_with_real_data _ _));
        [|done].
      apply with_items_twice.
    + by rewrite update_merge_update_cases, Hov, Hpattern.
  - by rewrite update_merge_update_cases, Hov.
Qed.

(** *** batch_extract_founders.py *)

Lemma batch_merge_update_cases
    (overrides : gmap str BatchExtractFounders.founder) record :
  BatchExtractFounders.merge_update overrides record =
  match overrides !! get record "Company_Name" "" with
  | Some real_data =>
      if BatchExtractFounders.is_pattern_data record
      then BatchExtractFounders.update_company_with_real_data record real_data
      else record
  | None => record
  end.
Proof.
  unfold BatchExtractFounders.merge_update, has_key.
  destruct (overrides !! get record "Company_Name" "") as [real_data|] eqn:Hov.
  - rewrite bool_decide_eq_true_2 by done. cbn [andb].
    destruct (BatchExtractFounders.is_pattern_data record); [|done].
    apply update_with_items.
  - rewrite bool_decide_eq_false_2; [done|]. by intros [? ?].
Qed.

Lemma batch_company_name record real_data :
  get (BatchExtractFounders.update_company_with_real_data record real_data)
      "Company_Name" ""
  = get record "Company_Name" "".
Proof.
  unfold BatchExtractFounders.update_company_with_real_data.
  apply get_with_items_other. compute_done.
Qed.

(** The columns that this script keeps are read back as they were written. *)
Lemma batch_update_twice record real_data :
  BatchExtractFounders.update_company_with_real_data
    (BatchExtractFounders.update_company_with_real_data record real_data) real_data
  = BatchExtractFounders.update_company_with_real_data record real_data.
Proof.
  unfold BatchExtractFounders.update_company_with_real_data. cbv zeta.
  erewrite !get_with_items by reflexivity.
  apply with_items_twice.
Qed.

Lemma batch_merge_update_idempotent
    (overrides : gmap str BatchExtractFounders.founder) record :
  BatchExtractFounders.merge_update overrides
    (BatchExtractFounders.merge_update overrides record)
  = BatchExtractFounders.merge_update overrides record.
Proof.
  rewrite (batch_merge_update_cases overrides record).
  destruct (overrides !! get record "Company_Name" "") as [real_data|] eqn:Hov.
  - destruct (BatchExtractFounders.is_pattern_data record) eqn:Hpattern.
    + rewrite batch_merge_update_cases, batch_company_name, Hov.
      destruct (BatchExtractFounders.is_pattern_data
                  (BatchExtractFounders.update_company_with_real_data _ _));
        [|done].
      apply batch_update_twice.
    + by rewrite batch_merge_update_cases, Hov, Hpattern.
  - by rewrite batch_merge_update_cases, Hov.
Qed.

(** C4. Applying [merge_update] twice with the same override table gives
    the row that applying it once gives, in [update_with_real_founders.py]
    and in [batch_extract_founders.py]. *)
Theorem merge_update_idempotent
    (overrides : gmap str founder)
    (batch_overrides : gmap str BatchExtractFounders.founder) record :
  UpdateWithRealFounders.merge_update overrides
    (UpdateWithRealFounders.merge_update overrides record)
  = UpdateWithRealFounders.merge_update overrides record
  ∧ BatchExtractFounders.merge_update batch_overrides
      (BatchExtractFounders.merge_update batch_overrides record)
    = BatchExtractFounders.merge_update batch_overrides record.
Proof.
  split.
  - apply update_merge_update_idempotent.
  - apply batch_merge_update_idempotent.
Qed.

(** C9. [merge_update] returns the row it was given, every column
    identical, unless the row is classified PATTERN and its [Company_Name]
    is a key of the override table; so a row classified REAL passes through
    unchanged.  This holds for the merge step of both update scripts. *)
Theorem merge_update_unchanged
    (overrides : gmap str founder)
    (batch_overrides : gmap str BatchExtractFounders.founder) record :
  (¬ (classify record = PATTERN
      ∧ is_Some (overrides !! field record "Company_Name")) →
     UpdateWithRealFounders.merge_update overrides record = record)
  ∧ (¬ (classify record = PATTERN
        ∧ is_Some (batch_overrides !! field record "Company_Name")) →
     BatchExtractFounders.merge_update batch_overrides record = record)
  ∧ (classify record = REAL →
     UpdateWithRealFounders.merge_update overrides record = record
     ∧ BatchExtractFounders.merge_update batch_overrides record = record).
Proof.
  unfold field. split; [|split; [|intros Hreal%classify_REAL; split]].
  - intros Hnot. rewrite update_merge_update_cases.
    destruct (overrides !! _) as [real_data|]; [|done].
    destruct (UpdateWithRealFounders.is_pattern_data record) eqn:Hp; [|done].
    destruct Hnot. split; [by apply classify_PATTERN|done].
  - intros Hnot. rewrite batch_merge_update_cases.
    destruct (batch_overrides !! _) as [real_data|]; [|done].
    change BatchExtractFounders.is_pattern_data
      with UpdateWithRealFounders.is_pattern_data.
    destruct (UpdateWithRealFounders.is_pattern_data record) eqn:Hp; [|done].
    destruct Hnot. split; [by apply classify_PATTERN|done].
  - rewrite update_merge_update_cases, Hreal.
    by destruct (overrides !! _).
  - rewrite batch_merge_update_cases.
    change BatchExtractFounders.is_pattern_data
      with UpdateWithRealFounders.is_pattern_data.
    rewrite Hreal.
    by destruct (batch_overrides !! _).
Qed.

End Merge.

(** ** Classifying what enrichment returns *)

Section ClassifyEnrich.
Context `{UnicodeTables}.
Implicit Types (record : dict) (k : str) (entries : list (str * str)).

Lemma pattern_rule_with_items record entries (first_name email linkedin : str) :
  find_item "founder_first_name" entries = Some first_name →
  find_item "founder_email" entries = Some email →
  find_item "founder_linkedin" entries = Some linkedin →
  UpdateWithRealFounders.is_pattern_data (with_items record entries) = true ↔
  pattern_rule (strip first_name) (strip email) (strip linkedin).
Proof.
  intros Hfirst Hemail Hlinkedin. rewrite is_pattern_data_iff. unfold field.
  by rewrite (get_with_items _ _ _ _ _ Hfirst), (get_with_items _ _ _ _ _ Hemail),
    (get_with_items _ _ _ _ _ Hlinkedin).
Qed.

(** After [enrich] the classification is REAL exactly when the override
    table has the name and the entry it holds passes the rule. *)
Lemma classify_enrich_iff
    (overrides : gmap str founder) record (name : str) (out : dict) :
  record.["Company_Name"] = Some name →
  Main.enrich overrides record = Return out →
  classify out = REAL ↔ ∃ data, overrides !! name = Some data ∧ verified data.
Proof.
  intros Hname. unfold Main.enrich, getitem. rewrite Hname. step_result.
  rewrite classify_REAL, <- not_true_iff_false.
  destruct (overrides !! name) as [data|].
  - intros [= <-].
    rewrite (pattern_rule_with_items _ _ (founder_first data)
               (founder_email data) (founder_linkedin data)) by reflexivity.
    split; [by exists data|]. by intros (? & [= <-] & ?).
  - destruct (record.["company_description"]) as [description|]; [|done].
    step_result. intros [= <-].
    rewrite (pattern_rule_with_items _ _ "Team"
               (cat "hello@" (Main.extract_domain name)) "") by reflexivity.
    split; [|by intros (? & [=] & ?)].
    intros Hnot. destruct Hnot. right. by left.
Qed.

(** C3, amended. For a row on which [enrich] has the columns it indexes,
    classifying the row that [enrich] returns yields REAL if and only if
    the row's [Company_Name] is a key of the override table and the entry
    under it passes the classification rule: its first name, stripped, is
    neither empty nor ["Team"], its email does not start with ["hello@"],
    and its LinkedIn is not blank.  For a table whose entries all pass the
    rule, REAL is returned exactly for the names in the table. *)
Theorem classify_enrich_verified
    (overrides : gmap str founder) record (name : str) :
  record.["Company_Name"] = Some name →
  is_Some (overrides !! name) ∨ is_Some (record.["company_description"]) →
  ∃ out, Main.enrich overrides record = Return out
    ∧ (classify out = REAL ↔
       ∃ data, overrides !! name = Some data ∧ verified data)
    ∧ (map_Forall (fun _ data => verified data) overrides →
       classify out = REAL ↔ is_Some (overrides !! name)).
Proof.
  intros Hname Hor.
  destruct (enrich_returns overrides record name Hname Hor) as [out Hout].
  exists out. split; [done|].
  pose proof (classify_enrich_iff overrides record name out Hname Hout) as Hiff.
  split; [done|]. intros Hall. rewrite Hiff. split.
  - intros (data & Hdata & _). by exists data.
  - intros [data Hdata]. exists data. split; [done|]. by eapply Hall.
Qed.

End ClassifyEnrich.

(** ** Rows that lack a column *)

Section MissingColumns.
Implicit Types (record : dict) (k : str) (entries : list (str * str)).

Lemma with_items_set record entries k (v : str) :
  k ∉ entries.*1 →
  with_items (set k v record) entries = set k v (with_items record entries).
Proof.
  intros Hk. apply map_eq. intros k'. unfold set.
  rewrite lookup_with_items, !lookup_insert, lookup_with_items.
  destruct (find_item k' entries) eqn:Hfind; [|done].
  destruct (decide (k = k')) as [<-|]; [|done].
  by rewrite find_item_None in Hfind.
Qed.

Lemma is_pattern_data_set_default record k :
  record !! k = None →
  UpdateWithRealFounders.is_pattern_data (set k "" record)
  = UpdateWithRealFounders.is_pattern_data record.
Proof.
  intros Hk. unfold UpdateWithRealFounders.is_pattern_data.
  by rewrite !(get_set_default _ _ _ _ Hk).
Qed.

Lemma update_merge_update_default (overrides : gmap str founder) record :
  record.["Company_Name"] = None →
  UpdateWithRealFounders.merge_update overrides (set "Company_Name" "" record)
  = set "Company_Name" "" (UpdateWithRealFounders.merge_update overrides record).
Proof.
  intros Hk. rewrite !update_merge_update_cases.
  rewrite (get_set_default _ _ _ _ Hk), (is_pattern_data_set_default _ _ Hk).
  destruct (overrides !! _) as [real_data|]; [|done].
  destruct (UpdateWithRealFounders.is_pattern_data record); [|done].
  apply with_items_set. compute_done.
Qed.

Lemma batch_merge_update_default
    (overrides : gmap str BatchExtractFounders.founder) record :
  record.["Company_Name"] = None →
  BatchExtractFounders.merge_update overrides (set "Company_Name" "" record)
  = set "Company_Name" "" (BatchExtractFounders.merge_update overrides record).
Proof.
  intros Hk. rewrite !batch_merge_update_cases.
  change BatchExtractFounders.is_pattern_data
    with UpdateWithRealFounders.is_pattern_data.
  rewrite (get_set_default _ _ _ _ Hk), (is_pattern_data_set_default _ _ Hk).
  destruct (overrides !! _) as [real_data|]; [|done].
  destruct (UpdateWithRealFounders.is_pattern_data record); [|done].
  unfold BatchExtractFounders.update_company_with_real_data. cbv zeta.
  rewrite !(get_set_other _ "Company_Name") by (by vm_compute).
  apply with_items_set. compute_done.
Qed.

(** *** Rows as [csv.DictReader] gives them *)

Lemma of_dict_lookup (record : dict) (k : str) :
  DictReader.of_dict record !! k = DictReader.Text <$> record !! k.
Proof. apply lookup_fmap. Qed.

Lemma of_dict_get (record : dict) (k default : str) :
  DictReader.get (DictReader.of_dict record) k default
  = DictReader.Text (get record k default).
Proof.
  unfold DictReader.get, DictReader.of_dict, get. rewrite lookup_fmap.
  by destruct (record !! k).
Qed.

Lemma of_dict_with_items (record : dict) (entries : list (str * str)) :
  DictReader.of_dict (with_items record entries)
  = DictReader.with_items (DictReader.of_dict record)
      (map (fun kv => (kv.1, DictReader.Text kv.2)) entries).
Proof.
  revert record. induction entries as [|[k v] entries IH]; intros record; [done|].
  unfold with_items, DictReader.with_items in *. cbn [map foldl fst snd].
  rewrite IH. unfold set, DictReader.set, DictReader.of_dict.
  by rewrite fmap_insert.
Qed.

Lemma of_dict_update (record other : dict) :
  DictReader.of_dict (update record other)
  = DictReader.update (DictReader.of_dict record) (DictReader.of_dict other).
Proof. unfold update, DictReader.update, DictReader.of_dict. apply map_fmap_union. Qed.

Lemma of_dict_in_table {V} (table : gmap str V) (name : str) :
  DictReader.in_table (DictReader.Text name) table = has_key name table.
Proof. done. Qed.

(** On rows of texts [is_pattern_data] returns, and returns what the
    function on texts gives. *)
Lemma of_dict_is_pattern_data (record : dict) :
  DictReader.is_pattern_data (DictReader.of_dict record)
  = Return (UpdateWithRealFounders.is_pattern_data record).
Proof.
  unfold DictReader.is_pattern_data, UpdateWithRealFounders.is_pattern_data.
  rewrite !of_dict_get. cbn [DictReader.strip]. step_result. cbv zeta.
  destruct (eqb _ "Team" || eqb _ ""); [done|].
  destruct (startswith _ "hello@"); [done|]. step_result.
  by destruct (negb _).
Qed.

Lemma of_dict_merge_update (overrides : gmap str founder) (record : dict) :
  DictReader.merge_update overrides (DictReader.of_dict record)
  = Return (DictReader.of_dict
              (UpdateWithRealFounders.merge_update overrides record)).
Proof.
  unfold DictReader.merge_update, UpdateWithRealFounders.merge_update.
  cbv zeta. rewrite of_dict_get, of_dict_in_table, of_dict_is_pattern_data.
  step_result. cbn [DictReader.lookup_value].
  destruct (has_key _ overrides); cbn [andb]; [|done].
  destruct (UpdateWithRealFounders.is_pattern_data record); [|done].
  destruct (overrides !! _) as [real_data|]; [|done].
  step_result. f_equal. rewrite of_dict_update. f_equal.
  unfold UpdateWithRealFounders.update_company_with_real_data.
  by rewrite of_dict_with_items.
Qed.

Lemma of_dict_batch_merge_update
    (overrides : gmap str BatchExtractFounders.founder) (record : dict) :
  DictReader.batch_merge_update overrides (DictReader.of_dict record)
  = Return (DictReader.of_dict
              (BatchExtractFounders.merge_update overrides record)).
Proof.
  unfold DictReader.batch_merge_update, BatchExtractFounders.merge_update.
  cbv zeta. rewrite of_dict_get, of_dict_in_table, of_dict_is_pattern_data.
  step_result. cbn [DictReader.lookup_value].
  change BatchExtractFounders.is_pattern_data
    with UpdateWithRealFounders.is_pattern_data.
  destruct (has_key _ overrides); cbn [andb]; [|done].
  destruct (UpdateWithRealFounders.is_pattern_data record); [|done].
  destruct (overrides !! _) as [real_data|]; [|done].
  step_result. f_equal. rewrite of_dict_update. f_equal.
  unfold BatchExtractFounders.update_company_with_real_data,
    DictReader.batch_update_company_with_real_data. cbv zeta.
  by rewrite of_dict_with_items, !of_dict_get.
Qed.

Lemma of_dict_enrich `{UnicodeTables}
    (overrides : gmap str founder) (record : dict) :
  DictReader.enrich overrides (DictReader.of_dict record)
  = match Main.enrich overrides record with
    | Return out => Return (DictReader.of_dict out)
    | Raise e => Raise e
    end.
Proof.
  unfold DictReader.enrich, Main.enrich, DictReader.getitem, getitem.
  rewrite !of_dict_lookup.
  destruct (record.["Company_Name"]) as [name|]; [|done].
  cbn [fmap option_fmap option_map]. step_result.
  rewrite of_dict_in_table. cbn [DictReader.lookup_value]. unfold has_key.
  destruct (overrides !! name) as [data|].
  - rewrite bool_decide_eq_true_2 by done. step_result.
    by rewrite of_dict_with_items.
  - rewrite bool_decide_eq_false_2 by (by intros [? ?]).
    unfold DictReader.extract_domain. cbn [DictReader.lower]. step_result.
    destruct (record.["company_description"]) as [description|]; [|done].
    cbn [fmap option_fmap option_map DictReader.lower]. step_result.
    by rewrite of_dict_with_items.
Qed.

(** [None] in a column that [is_pattern_data] reaches. *)
Lemma is_pattern_data_None (company : DictReader.row) :
  (DictReader.column company "founder_first_name" = Some DictReader.NoneValue →
   DictReader.is_pattern_data company = Raise AttributeError)
  ∧ (∀ first_name,
     DictReader.get company "founder_first_name" "" = DictReader.Text first_name →
     DictReader.column company "founder_email" = Some DictReader.NoneValue →
     DictReader.is_pattern_data company = Raise AttributeError)
  ∧ (∀ first_name email,
     DictReader.get company "founder_first_name" "" = DictReader.Text first_name →
     DictReader.get company "founder_email" "" = DictReader.Text email →
     ¬ (strip first_name = str_of_string "Team" ∨ strip first_name = []
        ∨ startswith (strip email) "hello@" = true) →
     DictReader.column company "founder_linkedin" = Some DictReader.NoneValue →
     DictReader.is_pattern_data company = Raise AttributeError).
Proof.
  unfold DictReader.is_pattern_data, DictReader.column.
  split; [|split].
  - intros Hfirst. unfold DictReader.get. by rewrite Hfirst.
  - intros first_name Hfirst Hemail. rewrite Hfirst.
    cbn [DictReader.strip]. step_result.
    unfold DictReader.get. by rewrite Hemail.
  - intros first_name email Hfirst Hemail Hrule Hlinkedin.
    rewrite Hfirst, Hemail. cbn [DictReader.strip]. step_result.
    unfold eqb.
    destruct (decide (strip first_name = str_of_string "Team")) as [|Hteam];
      [tauto|].
    destruct (decide (strip first_name = str_of_string "")) as [|Hempty];
      [tauto|].
    rewrite !bool_decide_eq_false_2 by done. cbn [orb].
    destruct (startswith (strip email) "hello@"); [tauto|].
    unfold DictReader.get. by rewrite Hlinkedin.
Qed.

(** Without [None] in the three columns [is_pattern_data] returns. *)
Lemma is_pattern_data_returns (company : DictReader.row) :
  (∀ k, k ∈ DictReader.founder_columns →
        DictReader.column company k ≠ Some DictReader.NoneValue) →
  ∃ pattern, DictReader.is_pattern_data company = Return pattern.
Proof.
  intros Htexts.
  assert (Htext : ∀ k, k ∈ DictReader.founder_columns →
            ∃ s, DictReader.get company k "" = DictReader.Text s).
  { intros k Hk. specialize (Htexts k Hk).
    unfold DictReader.get, DictReader.column in *.
    destruct (company !! k) as [[s|]|]; [by exists s|done|by eexists]. }
  destruct (Htext "founder_first_name") as [first_name Hfirst]; [compute_done|].
  destruct (Htext "founder_email") as [email Hemail]; [compute_done|].
  destruct (Htext "founder_linkedin") as [linkedin Hlinkedin]; [compute_done|].
  unfold DictReader.is_pattern_data.
  rewrite Hfirst, Hemail, Hlinkedin. cbn [DictReader.strip]. step_result.
  destruct (eqb _ "Team" || eqb _ ""); [by eexists|].
  destruct (startswith _ "hello@"); [by eexists|]. step_result.
  destruct (negb _); by eexists.
Qed.

(** C6, amended.  A column that the header of the file lacks is absent
    from the row.  The classification and the merge step of the update
    scripts read it as the empty string: a row without some column is
    classified as the row that holds [""] there, and a row without
    [Company_Name] is merged as the row with an empty name; where
    [batch_extract_founders.py] keeps the job and funding columns of a row,
    it writes its placeholder texts, not [""], for those that are missing.
    [enrich] indexes its columns: on a row without [Company_Name] it raises
    [KeyError], on a row whose name has no override and which has no
    [company_description] it raises [KeyError], and on every other row of
    texts it returns.  On rows of texts the classification and the merge
    steps always return.

    A line shorter than the header is read as a row that has the missing
    columns with the value [None].  Then the classification raises
    [AttributeError] when [founder_first_name] is [None], when
    [founder_email] is, and when [founder_linkedin] is and the other two do
    not decide; it returns when none of the three is [None].  [enrich]
    raises [AttributeError] when [Company_Name] is [None], and when the
    name has no override and [company_description] is [None]; it returns
    when the name is a text with an override, whatever the other columns
    hold, and when name and description are texts.  The merge
    steps return the row as it is when [Company_Name] is [None] or no key of
    the table, and raise what the classification raises when the name is a
    key of the table. *)
Theorem missing_columns `{UnicodeTables}
    (overrides : gmap str founder)
    (batch_overrides : gmap str BatchExtractFounders.founder)
    (record : dict) (company : DictReader.row) :
  ((∀ k, record !! k = None →
      classify (set k "" record) = classify record
      ∧ BatchExtractFounders.is_pattern_data (set k "" record)
        = BatchExtractFounders.is_pattern_data record)
   ∧ (record.["Company_Name"] = None →
      UpdateWithRealFounders.merge_update overrides (set "Company_Name" "" record)
      = set "Company_Name" "" (UpdateWithRealFounders.merge_update overrides record)
      ∧ BatchExtractFounders.merge_update batch_overrides
          (set "Company_Name" "" record)
        = set "Company_Name" ""
            (BatchExtractFounders.merge_update batch_overrides record))
   ∧ (∀ real_data,
      let updated :=
        BatchExtractFounders.update_company_with_real_data record real_data in
      (record.["job_openings"] = None →
       updated.["job_openings"]
       = Some ("Software Engineering Intern, Product Intern" : str))
      ∧ (record.["funding_stage"] = None →
         updated.["funding_stage"] = Some ("Seed" : str))
      ∧ (record.["amount_raised"] = None →
         updated.["amount_raised"] = Some ("$1.5M" : str))
      ∧ (record.["date_raised"] = None →
         updated.["date_raised"] = Some ("Summer 2025" : str)))
   ∧ (record.["Company_Name"] = None →
      Main.enrich overrides record = Raise (KeyError "Company_Name"))
   ∧ (∀ name, record.["Company_Name"] = Some name →
      overrides !! name = None →
      record.["company_description"] = None →
      Main.enrich overrides record = Raise (KeyError "company_description"))
   ∧ (∀ name, record.["Company_Name"] = Some name →
      is_Some (overrides !! name) ∨ is_Some (record.["company_description"]) →
      ∃ out, Main.enrich overrides record = Return out))
  ∧ (DictReader.is_pattern_data (DictReader.of_dict record)
     = Return (UpdateWithRealFounders.is_pattern_data record)
     ∧ DictReader.merge_update overrides (DictReader.of_dict record)
       = Return (DictReader.of_dict
                   (UpdateWithRealFounders.merge_update overrides record))
     ∧ DictReader.batch_merge_update batch_overrides (DictReader.of_dict record)
       = Return (DictReader.of_dict
                   (BatchExtractFounders.merge_update batch_overrides record))
     ∧ DictReader.enrich overrides (DictReader.of_dict record)
       = match Main.enrich overrides record with
         | Return out => Return (DictReader.of_dict out)
         | Raise e => Raise e
         end)
  ∧ ((DictReader.column company "founder_first_name" = Some DictReader.NoneValue →
      DictReader.is_pattern_data company = Raise AttributeError)
     ∧ (∀ first_name,
        DictReader.get company "founder_first_name" ""
        = DictReader.Text first_name →
        DictReader.column company "founder_email" = Some DictReader.NoneValue →
        DictReader.is_pattern_data company = Raise AttributeError)
     ∧ (∀ first_name email,
        DictReader.get company "founder_first_name" ""
        = DictReader.Text first_name →
        DictReader.get company "founder_email" "" = DictReader.Text email →
        ¬ (strip first_name = str_of_string "Team" ∨ strip first_name = []
           ∨ startswith (strip email) "hello@" = true) →
        DictReader.column company "founder_linkedin" = Some DictReader.NoneValue →
        DictReader.is_pattern_data company = Raise AttributeError)
     ∧ ((∀ k, k ∈ DictReader.founder_columns →
              DictReader.column company k ≠ Some DictReader.NoneValue) →
        ∃ pattern, DictReader.is_pattern_data company = Return pattern))
  ∧ ((DictReader.column company "Company_Name" = None →
      DictReader.enrich overrides company = Raise (KeyError "Company_Name"))
     ∧ (DictReader.column company "Company_Name" = Some DictReader.NoneValue →
        DictReader.enrich overrides company = Raise AttributeError)
     ∧ (∀ name,
        DictReader.column company "Company_Name" = Some (DictReader.Text name) →
        overrides !! name = None →
        (DictReader.column company "company_description" = None →
         DictReader.enrich overrides company
         = Raise (KeyError "company_description"))
        ∧ (DictReader.column company "company_description"
           = Some DictReader.NoneValue →
           DictReader.enrich overrides company = Raise AttributeError))
     ∧ (∀ name,
        DictReader.column company "Company_Name" = Some (DictReader.Text name) →
        is_Some (overrides !! name)
        ∨ (∃ description,
             DictReader.column company "company_description"
             = Some (DictReader.Text description)) →
        ∃ out, DictReader.enrich overrides company = Return out))
  ∧ ((DictReader.column company "Company_Name" = Some DictReader.NoneValue →
      DictReader.merge_update overrides company = Return company
      ∧ DictReader.batch_merge_update batch_overrides company = Return company)
     ∧ (∀ name,
        DictReader.get company "Company_Name" "" = DictReader.Text name →
        (overrides !! name = None →
         DictReader.merge_update overrides company = Return company)
        ∧ (batch_overrides !! name = None →
           DictReader.batch_merge_update batch_overrides company = Return company)
        ∧ ∀ e, DictReader.is_pattern_data company = Raise e →
          (is_Some (overrides !! name) →
           DictReader.merge_update overrides company = Raise e)
          ∧ (is_Some (batch_overrides !! name) →
             DictReader.batch_merge_update batch_overrides company = Raise e))).
Proof.
  split; [|split; [|split; [|split]]].
  - split; [|split; [|split; [|split; [|split]]]].
    + intros k Hk. unfold classify.
      change BatchExtractFounders.is_pattern_data
        with UpdateWithRealFounders.is_pattern_data.
      by rewrite (is_pattern_data_set_default _ _ Hk).
    + intros Hk. split.
      * by apply update_merge_update_default.
      * by apply batch_merge_update_default.
    + intros real_data updated. subst updated.
      unfold BatchExtractFounders.update_company_with_real_data. cbv zeta.
      repeat split; intros Hk; rewrite lookup_with_items; cbn [find_item];
        unfold get; by rewrite Hk.
    + intros Hk. unfold Main.enrich, getitem. by rewrite Hk.
    + intros name Hname Hov Hdesc. unfold Main.enrich, getitem.
      rewrite Hname. step_result. by rewrite Hov, Hdesc.
    + intros name. apply enrich_returns.
  - split; [apply of_dict_is_pattern_data|].
    split; [apply of_dict_merge_update|].
    split; [apply of_dict_batch_merge_update|apply of_dict_enrich].
  - destruct (is_pattern_data_None company) as (Hfirst & Hemail & Hlinkedin).
    split; [exact Hfirst|]. split; [exact Hemail|]. split; [exact Hlinkedin|].
    apply is_pattern_data_returns.
  - unfold DictReader.enrich, DictReader.getitem, DictReader.column.
    split; [|split; [|split]].
    + by intros ->.
    + by intros ->.
    + intros name -> Hnone. step_result.
      unfold DictReader.in_table. cbn [DictReader.lookup_value].
      rewrite Hnone, bool_decide_eq_false_2 by (by intros [? ?]).
      unfold DictReader.extract_domain. cbn [DictReader.lower]. step_result.
      split; by intros ->.
    + intros name -> Hor. step_result.
      unfold DictReader.in_table. cbn [DictReader.lookup_value].
      destruct (overrides !! name) as [data|].
      * rewrite bool_decide_eq_true_2 by done. by eexists.
      * rewrite bool_decide_eq_false_2 by (by intros [? ?]).
        destruct Hor as [[? [=]]|[description ->]].
        unfold DictReader.extract_domain. cbn [DictReader.lower]. step_result.
        by eexists.
  - unfold DictReader.merge_update, DictReader.batch_merge_update,
      DictReader.column. cbv zeta.
    split.
    + intros Hname. unfold DictReader.get. by rewrite Hname.
    + intros name ->. unfold DictReader.in_table. cbn [DictReader.lookup_value].
      split; [|split].
      * intros ->. by rewrite bool_decide_eq_false_2 by (by intros [? ?]).
      * intros ->. by rewrite bool_decide_eq_false_2 by (by intros [? ?]).
      * intros e ->. split; intros Hkey; by rewrite bool_decide_eq_true_2.
Qed.

End MissingColumns.

(** ** find_funding_rounds.py: the slug of a profile link *)

Section Slug.
Context `{UnicodeTables}.
Import Re FindFundingRounds.

Lemma lit_rest_NoFlags (p s s' : str) :
  lit_rest NoFlags p s = Some s' ↔ s = p ++ s'.
Proof.
  revert s. induction p as [|a p IH]; intros s; cbn.
  - split; congruence.
  - destruct s as [|c s]; [done|]. cbn.
    destruct (N.eqb_spec c a) as [->|Hne].
    + rewrite IH. split; congruence.
    + split; [done|]. intros [= ? ?]. done.
Qed.

Lemma take_drop_while (P : N → bool) (s : str) :
  take_while P s ++ drop_while P s = s.
Proof. induction s as [|c s IH]; cbn; [done|]. destruct (P c); cbn; congruence. Qed.

Lemma take_while_length (P : N → bool) (s : str) :
  take (length s - length (drop_while P s)) s = take_while P s.
Proof.
  rewrite <- (take_drop_while P s) at 1 3.
  rewrite length_app, Nat.add_sub. by rewrite take_app_length.
Qed.

Lemma take_while_Forall (P : N → bool) (s : str) :
  Forall (fun c => P c = true) (take_while P s).
Proof.
  induction s as [|c s IH]; cbn; [done|].
  destruct (P c) eqn:Hc; by constructor.
Qed.

Lemma drop_while_head (P : N → bool) (s : str) :
  drop_while P s = [] ∨ ∃ c rest, drop_while P s = c :: rest ∧ P c = false.
Proof.
  induction s as [|c s IH]; cbn; [by left|].
  destruct (P c) eqn:Hc; [done|]. right. by exists c, s.
Qed.

(** With a continuation that accepts whatever is left, [[...]+] takes the
    longest run. *)
Lemma plus_longest {A} (f : flag) (cs : charset) (s : str) (k : str → A) :
  plus f cs s (fun s' => Some (k s')) =
  match s with
  | c :: s' =>
      if in_charset f cs c
      then Some (k (drop_while (in_charset f cs) s'))
      else None
  | [] => None
  end.
Proof.
  induction s as [|c s IH]; [done|]. cbn [plus].
  destruct (in_charset f cs c); [|done]. rewrite IH.
  destruct s as [|c' s]; [done|]. cbn [drop_while].
  by destruct (in_charset f cs c').
Qed.

Lemma in_charset_not_slash (c : N) :
  in_charset NoFlags (none_of [Chars "/"]) c = not_slash c.
Proof.
  unfold in_charset, not_slash, ord.
  change (str_of_string "/") with [47%N]. cbn.
  by destruct (c =? 47)%N.
Qed.

(** One attempt of the slug pattern at the start of [s]. *)
Lemma slug_attempt (s : str) :
  exec NoFlags slug_pattern s [None] (fun _ caps => Some caps) =
  match lit_rest NoFlags "/companies/" s with
  | Some (c :: s1) =>
      if not_slash c then Some [Some (c :: take_while not_slash s1)] else None
  | _ => None
  end.
Proof.
  unfold slug_pattern. cbn [exec].
  destruct (lit_rest NoFlags "/companies/" s) as [s1|]; [|done].
  rewrite (plus_longest NoFlags _ s1
             (fun s2 => <[pred 1 := Some (take (length s1 - length s2) s1)]> [None])).
  destruct s1 as [|c s1]; [done|]. rewrite in_charset_not_slash.
  destruct (not_slash c) eqn:Hc; [|done].
  f_equal. cbn [pred]. cbn [insert list_insert]. do 2 f_equal.
  assert (drop_while (in_charset NoFlags (none_of [Chars "/"])) s1
          = drop_while not_slash s1) as ->.
  { clear. induction s1 as [|c s1 IH]; [done|]. cbn [drop_while].
    rewrite in_charset_not_slash, IH. done. }
  assert (drop_while not_slash s1 = drop_while not_slash (c :: s1)) as ->.
  { cbn [drop_while]. by rewrite Hc. }
  rewrite take_while_length. cbn [take_while]. by rewrite Hc.
Qed.

Lemma search_from_slug_cons (a : N) (url : str) :
  search_from NoFlags slug_pattern (a :: url) =
  match attempt_here (a :: url) with
  | Some m => Some m
  | None => search_from NoFlags slug_pattern url
  end.
Proof. reflexivity. Qed.

Lemma search_from_slug_nil : search_from NoFlags slug_pattern [] = None.
Proof. reflexivity. Qed.

(** An attempt succeeds where ["/companies/"] and a character other than a
    slash stand, and takes the characters up to the next slash. *)
Lemma attempt_here_Some (s : str) (m : match_object) :
  attempt_here s = Some m →
  ∃ seg rest,
    m = [Some seg]
    ∧ s = str_of_string "/companies/" ++ seg ++ rest
    ∧ seg ≠ []
    ∧ Forall (fun c => c ≠ ord "/") seg
    ∧ (rest = [] ∨ ∃ rest', rest = ord "/" :: rest').
Proof.
  unfold attempt_here. rewrite slug_attempt.
  destruct (lit_rest NoFlags "/companies/" s) as [[|c s1]|] eqn:Hlit; try done.
  destruct (not_slash c) eqn:Hc; [|done].
  intros [= <-]. apply lit_rest_NoFlags in Hlit.
  exists (c :: take_while not_slash s1), (drop_while not_slash s1).
  split; [done|]. split.
  { rewrite Hlit. cbn [app]. by rewrite take_drop_while. }
  split; [done|]. split.
  { constructor.
    - by apply negb_true_iff, N.eqb_neq in Hc.
    - eapply Forall_impl; [apply take_while_Forall|].
      intros c' Hc'. by apply negb_true_iff, N.eqb_neq in Hc'. }
  destruct (drop_while_head not_slash s1) as [->|(c' & rest' & -> & Hc')];
    [by left|].
  right. exists rest'. apply negb_false_iff, N.eqb_eq in Hc'. by subst.
Qed.

Lemma attempt_here_None (s : str) :
  attempt_here s = None ↔
  ∀ c rest, s = str_of_string "/companies/" ++ c :: rest → c = ord "/".
Proof.
  unfold attempt_here. rewrite slug_attempt.
  destruct (lit_rest NoFlags "/companies/" s) as [[|c s1]|] eqn:Hlit.
  - apply lit_rest_NoFlags in Hlit. split; [|done].
    intros _ c rest Heq. rewrite Hlit in Heq. by apply app_inv_head in Heq.
  - apply lit_rest_NoFlags in Hlit. destruct (not_slash c) eqn:Hc.
    + split; [done|]. intros Hall. specialize (Hall c s1 Hlit). subst c. done.
    + split; [|done]. intros _ c' rest Heq. rewrite Hlit in Heq.
      apply app_inv_head in Heq. injection Heq as <- _.
      by apply negb_false_iff, N.eqb_eq in Hc.
  - split; [|done]. intros _ c rest Heq.
    apply lit_rest_NoFlags in Heq. congruence.
Qed.

(** A search fails only on a text in which every ["/companies/"] is at the
    end or is followed by a slash. *)
Lemma slug_search_None (url : str) :
  search_from NoFlags slug_pattern url = None ↔
  ∀ pre c rest, url = pre ++ str_of_string "/companies/" ++ c :: rest → c = ord "/".
Proof.
  induction url as [|a url IH].
  - rewrite search_from_slug_nil. split; [|done].
    intros _ pre c rest Heq. by destruct pre.
  - rewrite search_from_slug_cons.
    destruct (attempt_here (a :: url)) as [m|] eqn:Hhere.
    + split; [done|]. intros Hall.
      assert (attempt_here (a :: url) = None) as Hnone; [|congruence].
      apply attempt_here_None. intros c rest Heq. by apply (Hall [] c rest).
    + rewrite IH. split.
      * intros Hlater [|a' pre] c rest Heq.
        { by eapply attempt_here_None. }
        eapply Hlater. exact (f_equal tail Heq).
      * intros Hall pre c rest ->. by eapply (Hall (a :: pre)).
Qed.

(** What a successful search finds: the first place from the left where
    ["/companies/"] is followed by a character other than a slash. *)
Lemma slug_search_Some (url : str) (m : match_object) :
  search_from NoFlags slug_pattern url = Some m →
  ∃ pre seg rest,
    m = [Some seg]
    ∧ url = pre ++ str_of_string "/companies/" ++ seg ++ rest
    ∧ seg ≠ []
    ∧ Forall (fun c => c ≠ ord "/") seg
    ∧ (rest = [] ∨ ∃ rest', rest = ord "/" :: rest')
    ∧ ∀ pre' c rest',
        url = pre' ++ str_of_string "/companies/" ++ c :: rest' →
        c ≠ ord "/" → length pre ≤ length pre'.
Proof.
  revert m. induction url as [|a url IH]; intros m.
  - by rewrite search_from_slug_nil.
  - rewrite search_from_slug_cons.
    destruct (attempt_here (a :: url)) as [m'|] eqn:Hhere.
    + intros [= ->].
      apply attempt_here_Some in Hhere as (seg & rest & -> & Hurl & ? & ? & ?).
      exists [], seg, rest. repeat (split; [done|]).
      intros pre' c rest' _ _. cbn. lia.
    + intros (pre & seg & rest & -> & -> & ? & ? & ? & Hleft)%IH.
      exists (a :: pre), seg, rest. repeat (split; [done|]).
      intros [|a' pre'] c rest' Heq Hc.
      * destruct Hc. by eapply attempt_here_None.
      * cbn [length]. apply le_n_S. eapply Hleft; [|done].
        exact (f_equal tail Heq).
Qed.

(** C7. [extract_slug] returns the path segment that follows
    ["/companies/"]: a result [seg] is a non-empty text without a slash that
    stands in the link right after ["/companies/"] and runs to the next slash
    or to the end, at the first place from the left where ["/companies/"] is
    followed by a character other than a slash.  It returns nothing when
    the link is empty or the pattern does not match, that is when no
    ["/companies/"] of the link is followed by a character other than a
    slash.  For ["https://www.ycombinator.com/companies/blue"] it returns
    ["blue"], for [""] nothing. *)
Theorem extract_company_slug_segment (url : str) :
  (∀ seg, extract_company_slug url = Some seg →
     ∃ pre rest,
       url = pre ++ str_of_string "/companies/" ++ seg ++ rest
       ∧ seg ≠ []
       ∧ Forall (fun c => c ≠ ord "/") seg
       ∧ (rest = [] ∨ ∃ rest', rest = ord "/" :: rest')
       ∧ ∀ pre' c rest',
           url = pre' ++ str_of_string "/companies/" ++ c :: rest' →
           c ≠ ord "/" → length pre ≤ length pre')
  ∧ (extract_company_slug url = None ↔
     ∀ pre c rest,
       url = pre ++ str_of_string "/companies/" ++ c :: rest → c = ord "/")
  ∧ extract_company_slug "https://www.ycombinator.com/companies/blue"
    = Some (str_of_string "blue")
  ∧ extract_company_slug "" = None.
Proof.
  split; [|split; [|split]]; [| |reflexivity|reflexivity].
  - intros seg. unfold extract_company_slug, search.
    destruct url as [|a url]; [done|]. cbn [truthy negb].
    destruct (search_from NoFlags slug_pattern (a :: url)) as [m|] eqn:Hm; [|done].
    apply slug_search_Some in Hm as (pre & seg' & rest & -> & Hurl & ?).
    cbn. intros [= <-]. by exists pre, rest.
  - unfold extract_company_slug, search.
    destruct url as [|a url].
    { cbn [truthy negb]. split; [|done]. intros _ pre c rest Heq. by destruct pre. }
    cbn [truthy negb]. rewrite <- slug_search_None.
    destruct (search_from NoFlags slug_pattern (a :: url)) as [m|] eqn:Hm; [|done].
    apply slug_search_Some in Hm as (pre & seg' & rest & -> & _). done.
Qed.

End Slug.

(** ** The matcher finds matches *)

Section Matcher.
Context `{UnicodeTables}.
Import Re.

Lemma plus_sound {A} (f : flag) (cs : charset) (s : str) (k : str → option A) a :
  plus f cs s k = Some a →
  ∃ c run s', s = c :: run ++ s'
    ∧ Forall (fun c => in_charset f cs c = true) (c :: run)
    ∧ k s' = Some a.
Proof.
  induction s as [|c s IH]; [done|]. cbn [plus].
  destruct (in_charset f cs c) eqn:Hc; [|done].
  destruct (plus f cs s k) as [a'|] eqn:Hplus.
  - intros [= ->]. destruct (IH eq_refl) as (c' & run & s' & -> & Hrun & Hk).
    exists c, (c' :: run), s'. split; [done|]. split; [by constructor|done].
  - intros Hk. exists c, [], s. split; [done|]. split; [|done].
    by repeat constructor.
Qed.

(** Whatever [exec] answers comes from a match of [r] followed by the
    continuation. *)
Lemma exec_sound {A} (f : flag) (r : regex) :
  ∀ (s : str) (caps : match_object) (k : str → match_object → option A) a,
    exec f r s caps k = Some a →
    ∃ s' caps', matches f r s s' caps caps' ∧ k s' caps' = Some a.
Proof.
  induction r as [p|cs|cs|r1 IH1 r2 IH2|r1 IH1 r2 IH2|r1 IH1|i r1 IH1];
    intros s caps k a; cbn [exec].
  - destruct (lit_rest f p s) as [s'|] eqn:Hlit; [|done].
    intros Hk. exists s', caps. split; [by constructor|done].
  - destruct s as [|c s]; [done|].
    destruct (in_charset f cs c) eqn:Hc; [|done].
    intros Hk. exists s, caps. split; [by constructor|done].
  - intros (c & run & s' & -> & Hrun & Hk)%plus_sound.
    exists s', caps. split; [by constructor|done].
  - intros (s1 & caps1 & Hm1 & (s2 & caps2 & Hm2 & Hk)%IH2)%IH1.
    exists s2, caps2. split; [by econstructor|done].
  - destruct (exec f r1 s caps k) as [a'|] eqn:Hfirst.
    + intros [= ->]. apply IH1 in Hfirst as (s' & caps' & Hm & Hk).
      exists s', caps'. split; [by apply matches_Alt_l|done].
    + intros (s' & caps' & Hm & Hk)%IH2.
      exists s', caps'. split; [by apply matches_Alt_r|done].
  - destruct (exec f r1 s caps k) as [a'|] eqn:Hfirst.
    + intros [= ->]. apply IH1 in Hfirst as (s' & caps' & Hm & Hk).
      exists s', caps'. split; [by apply matches_Opt_some|done].
    + intros Hk. exists s, caps. split; [by apply matches_Opt_none|done].
  - intros (s' & caps' & Hm & Hk)%IH1.
    eexists s', _. split; [by apply matches_Group|done].
Qed.

Lemma search_from_sound (f : flag) (r : regex) (s : str) (m : match_object) :
  search_from f r s = Some m →
  ∃ s1 s2, matches f r s1 s2 (replicate (count_groups r) None) m.
Proof.
  induction s as [|c s IH]; cbn [search_from].
  - destruct (exec f r [] _ _) as [m'|] eqn:Hexec; [|done].
    intros [= ->]. apply exec_sound in Hexec as (s' & caps' & Hm & [= ->]).
    by eexists _, _.
  - destruct (exec f r (c :: s) _ _) as [m'|] eqn:Hexec; [|done].
    intros [= ->]. apply exec_sound in Hexec as (s' & caps' & Hm & [= ->]).
    by eexists _, _.
Qed.

(** A match keeps the number of groups and the groups already captured. *)
Lemma matches_length (f : flag) r s s' caps caps' :
  matches f r s s' caps caps' → length caps' = length caps.
Proof.
  induction 1; try done.
  - congruence.
  - by rewrite length_insert.
Qed.

Lemma captured_insert (m : match_object) (i j : nat) (g : str) :
  captured m i → captured (<[j := Some g]> m) i.
Proof.
  unfold captured, group. intros [g' Hg].
  destruct (m !! pred i) as [[g''|]|] eqn:Hm; try done.
  destruct (decide (j = pred i)) as [->|Hne].
  - rewrite list_lookup_insert_eq; [done|]. by eapply lookup_lt_Some.
  - rewrite list_lookup_insert_ne by done. by rewrite Hm.
Qed.

Lemma matches_captured_mono (f : flag) r s s' caps caps' i :
  matches f r s s' caps caps' → captured caps i → captured caps' i.
Proof.
  induction 1; try done.
  - auto.
  - intros Hi. by apply captured_insert, IHmatches.
Qed.

(** Every group outside alternatives and options is captured by a match. *)
Lemma matches_sure_groups (f : flag) r s s' caps caps' i :
  matches f r s s' caps caps' →
  i ∈ sure_groups r → pred i < length caps → captured caps' i.
Proof.
  induction 1 as [| | |r1 r2 s s1 s2 caps caps1 caps2 Hm1 IH1 Hm2 IH2
                  |r1 r2 s s' caps caps' Hm IH|r1 r2 s s' caps caps' Hm IH
                  | |
                  |j r s s' caps caps' Hm IH];
    cbn [sure_groups]; try by intros ?%elem_of_nil.
  - intros [Hi|Hi]%elem_of_app Hlen.
    + eapply matches_captured_mono; [done|]. by apply IH1.
    + apply IH2; [done|]. by rewrite (matches_length _ _ _ _ _ _ Hm1).
  - intros [_ Hi]%list_elem_of_filter. by apply IH.
  - intros [Hi _]%list_elem_of_filter. by apply IH.
  - intros [->|Hi]%elem_of_cons Hlen.
    + unfold captured, group. rewrite list_lookup_insert_eq; [done|].
      by rewrite (matches_length _ _ _ _ _ _ Hm).
    + by apply captured_insert, IH.
Qed.

(** A successful search of a pattern with two groups, both of them sure,
    has a text for each. *)
Lemma search_two_groups (f : flag) (r : regex) (s : str) (m : match_object) :
  count_groups r = 2 → 1 ∈ sure_groups r → 2 ∈ sure_groups r →
  search r s f = Some m →
  ∃ g1 g2, m = [Some g1; Some g2].
Proof.
  intros Hcount H1 H2 (s1 & s2 & Hm)%search_from_sound.
  pose proof (matches_length _ _ _ _ _ _ Hm) as Hlen.
  rewrite Hcount in Hm, Hlen. cbn in Hlen.
  pose proof (matches_sure_groups _ _ _ _ _ _ 1 Hm H1) as [g1 Hg1]; [cbn; lia|].
  pose proof (matches_sure_groups _ _ _ _ _ _ 2 Hm H2) as [g2 Hg2]; [cbn; lia|].
  destruct m as [|[x|] [|[y|] [|? ?]]]; try done.
  cbn in Hg1, Hg2. exists x, y. done.
Qed.

End Matcher.

(** ** What a group of a match holds *)

Section Captures.
Context `{UnicodeTables}.
Import Re.

Lemma lit_rest_word (f : flag) (p s s' : str) :
  lit_rest f p s = Some s' →
  ∃ w, s = w ++ s' ∧ Forall2 (fun a c => same_char f a c = true) p w.
Proof.
  revert s. induction p as [|a p IH]; intros s; cbn [lit_rest].
  - intros [= ->]. exists []. by split; [|constructor].
  - destruct s as [|c s]; [done|].
    destruct (same_char f a c) eqn:Hc; [|done].
    intros (w & -> & Hw)%IH. exists (c :: w). split; [done|]. by constructor.
Qed.

(** A match takes a text of the pattern off the front. *)
Lemma matches_word (f : flag) r s s' caps caps' :
  matches f r s s' caps caps' → ∃ w, s = w ++ s' ∧ word f r w.
Proof.
  induction 1 as [p s s' caps Hlit|cs c s caps Hc|cs c run s caps Hrun
                  |r1 r2 s s1 s2 caps caps1 caps2 _ IH1 _ IH2
                  |r1 r2 s s' caps caps' _ IH|r1 r2 s s' caps caps' _ IH
                  |r s s' caps caps' _ IH|r s caps
                  |i r s s' caps caps' _ IH]; cbn [word].
  - by apply lit_rest_word.
  - exists [c]. split; [done|]. by exists c.
  - exists (c :: run). split; [done|]. done.
  - destruct IH1 as (w1 & -> & Hw1), IH2 as (w2 & -> & Hw2).
    exists (w1 ++ w2). split; [by rewrite app_assoc|]. by exists w1, w2.
  - destruct IH as (w & -> & Hw). exists w. split; [done|]. by left.
  - destruct IH as (w & -> & Hw). exists w. split; [done|]. by right.
  - destruct IH as (w & -> & Hw). exists w. split; [done|]. by right.
  - exists []. split; [done|]. by left.
  - done.
Qed.

Lemma group_insert_eq (m : match_object) (i j : nat) (g : str) :
  pred j = pred i → pred j < length m →
  group (<[pred j := Some g]> m) i = Some g.
Proof.
  intros Heq Hlen. unfold group. rewrite <- Heq.
  by rewrite list_lookup_insert_eq.
Qed.

Lemma group_insert_ne (m : match_object) (i j : nat) (g : option str) :
  pred j ≠ pred i → group (<[pred j := g]> m) i = group m i.
Proof. intros Hne. unfold group. by rewrite list_lookup_insert_ne. Qed.

Lemma group_insert_ge (m : match_object) (i j : nat) (g : option str) :
  length m ≤ pred j → group (<[pred j := g]> m) i = group m i.
Proof. intros Hge. by rewrite list_insert_ge. Qed.

(** The text of a group after a match was there before, or is a text that
    what stands in the parentheses of the group matches. *)
Lemma captured_origin (f : flag) r s s' caps caps' i (g : str) :
  matches f r s s' caps caps' →
  group caps' i = Some g →
  group caps i = Some g ∨ ∃ body, body ∈ group_bodies i r ∧ word f body g.
Proof.
  induction 1 as [| | |r1 r2 s s1 s2 caps caps1 caps2 _ IH1 _ IH2
                  |r1 r2 s s' caps caps' _ IH|r1 r2 s s' caps caps' _ IH
                  |r s s' caps caps' _ IH|
                  |j r s s' caps caps' Hm IH];
    cbn [group_bodies]; try by left.
  - intros [Hg|(body & Hbody & Hw)]%IH2.
    + destruct (IH1 Hg) as [?|(body & Hbody & Hw)]; [by left|].
      right. exists body. split; [|done]. apply elem_of_app. by left.
    + right. exists body. split; [|done]. apply elem_of_app. by right.
  - intros [?|(body & Hbody & Hw)]%IH; [by left|].
    right. exists body. split; [|done]. apply elem_of_app. by left.
  - intros [?|(body & Hbody & Hw)]%IH; [by left|].
    right. exists body. split; [|done]. apply elem_of_app. by right.
  - done.
  - destruct (decide (pred j = pred i)) as [Heq|Hne].
    + destruct (decide (pred j < length caps')) as [Hlt|Hge].
      * rewrite group_insert_eq by done. intros [= <-]. right.
        destruct (matches_word _ _ _ _ _ _ Hm) as (w & -> & Hw).
        exists r. split; [apply elem_of_app; left; by left|].
        rewrite length_app, Nat.add_sub. by rewrite take_app_length.
      * rewrite group_insert_ge by lia.
        intros [?|(body & Hbody & Hw)]%IH; [by left|].
        right. exists body. split; [|done]. apply elem_of_app. by right.
    + rewrite group_insert_ne by done.
      intros [?|(body & Hbody & Hw)]%IH; [by left|]. by right; exists body.
Qed.

Lemma group_replicate_None (n i : nat) : group (replicate n None) i = None.
Proof.
  unfold group. destruct (replicate n None !! pred i) as [g|] eqn:Hg; [|done].
  by apply lookup_replicate in Hg as [-> _].
Qed.

(** The text of a group of a successful search is a text of what stands in
    the parentheses of that group. *)
Lemma search_group_word (f : flag) (r : regex) (s : str) (m : match_object)
    i (g : str) :
  search r s f = Some m → group m i = Some g →
  ∃ body, body ∈ group_bodies i r ∧ word f body g.
Proof.
  intros (s1 & s2 & Hm)%search_from_sound Hg.
  destruct (captured_origin _ _ _ _ _ _ _ _ Hm Hg) as [Hold|?]; [|done].
  by rewrite group_replicate_None in Hold.
Qed.

Lemma word_rejects (f : flag) (x : N) r (w : str) :
  rejects f x r = true → word f r w → Forall (fun c => c ≠ x) w.
Proof.
  revert w. induction r as [p|cs|cs|r1 IH1 r2 IH2|r1 IH1 r2 IH2|r1 IH1|i r1 IH1];
    intros w; cbn [rejects word].
  - intros Hp Hw. induction Hw as [|a c p w Hc _ IH]; [done|].
    cbn [forallb] in Hp. apply andb_true_iff in Hp as [Ha Hp].
    constructor; [|by apply IH].
    intros ->. by rewrite Hc in Ha.
  - intros Hx (c & -> & Hc). repeat constructor.
    intros ->. by rewrite Hc in Hx.
  - intros Hx [_ Hw]. eapply Forall_impl; [done|].
    intros c Hc ->. by rewrite Hc in Hx.
  - intros [Hx1 Hx2]%andb_true_iff (w1 & w2 & -> & Hw1 & Hw2).
    apply Forall_app. split; [by apply IH1|by apply IH2].
  - intros [Hx1 Hx2]%andb_true_iff [Hw|Hw]; [by apply IH1|by apply IH2].
  - intros Hx [->|Hw]; [done|by apply IH1].
  - apply IH1.
Qed.

Lemma contains_one_absent (x : N) (w : str) :
  Forall (fun c => c ≠ x) w → contains [x] w = false.
Proof.
  induction 1 as [|c w Hc _ IH]; [done|].
  cbn [contains startswith]. rewrite IH, andb_true_r, orb_false_r.
  by apply N.eqb_neq.
Qed.

End Captures.

(** ** find_actual_funding.py: a funding mention in free text *)

Section Funding.
Context `{UnicodeTables}.
Import Re FindActualFunding.

(** The first group of each pattern holds a ["$"] only as its first
    character: in the amount nothing after the ["$"] of the pattern is one,
    and the round labels have none. *)
Lemma amount_dollar (w : str) :
  word IGNORECASE amount w → contains "$" w = startswith w "$".
Proof.
  unfold amount at 1. cbn [word].
  intros (w1 & w2 & -> & Hw1 & Hw2).
  inversion Hw1 as [|a c p w' Hc Hnil]; subst. inversion Hnil; subst.
  assert (Hrest : Forall (fun c => c ≠ ord "$") w2).
  { eapply (word_rejects IGNORECASE); [|apply (Hw2 : word IGNORECASE
      (Seq (Plus (one_of [Decimal; Chars "."])) (Opt (In (one_of [Chars "MBK"])))) w2)].
    reflexivity. }
  change (str_of_string "$") with [ord "$"]. cbn [app contains startswith].
  by rewrite (contains_one_absent _ _ Hrest), andb_true_r, orb_false_r.
Qed.

Lemma label_no_dollar (r : regex) (w : str) :
  rejects IGNORECASE (ord "$") r = true →
  word IGNORECASE r w → contains "$" w = startswith w "$".
Proof.
  intros Hr Hw. pose proof (word_rejects _ _ _ _ Hr Hw) as Hno.
  change (str_of_string "$") with [ord "$"].
  rewrite (contains_one_absent _ _ Hno).
  destruct Hno as [|c w Hc _]; [done|]. cbn [startswith].
  rewrite andb_true_r. symmetry. by apply N.eqb_neq.
Qed.

Lemma patterns_first_group (pattern : regex) (text : str) (m : match_object)
    (g1 : str) :
  pattern ∈ patterns →
  search pattern text IGNORECASE = Some m → group m 1 = Some g1 →
  contains "$" g1 = startswith g1 "$".
Proof.
  intros Hpattern Hm Hg1.
  destruct (search_group_word _ _ _ _ _ _ Hm Hg1) as (body & Hbody & Hw).
  revert Hpattern body Hbody Hw. unfold patterns.
  rewrite !elem_of_cons, elem_of_nil.
  intros [->|[->|[->|[]]]] body.
  - change (group_bodies 1 pattern1) with [amount].
    intros ->%list_elem_of_singleton. apply amount_dollar.
  - change (group_bodies 1 pattern2)
      with [Alt (Lit "seed") (Alt series (Lit "pre-seed"))].
    intros ->%list_elem_of_singleton. by apply label_no_dollar.
  - change (group_bodies 1 pattern3) with [amount].
    intros ->%list_elem_of_singleton. apply amount_dollar.
Qed.

(** Each of the three patterns has two groups, and both take part in every
    match. *)
Lemma patterns_two_groups (pattern : regex) :
  pattern ∈ patterns →
  count_groups pattern = 2 ∧ 1 ∈ sure_groups pattern ∧ 2 ∈ sure_groups pattern.
Proof.
  unfold patterns. rewrite !elem_of_cons, elem_of_nil.
  intros [->|[->|[->|[]]]]; (split; [reflexivity|]); split; compute_done.
Qed.

(** The loop stops at the first pattern that matches. *)
Lemma parse_loop_first_match
    (before after : list regex) (pattern : regex) (text g1 g2 : str) :
  Forall (fun q => search q text IGNORECASE = None) before →
  search pattern text IGNORECASE = Some [Some g1; Some g2] →
  parse_loop (before ++ pattern :: after) text
  = Return (if contains "$" g1 then (Some g2, Some g1) else (Some g1, Some g2)).
Proof.
  intros Hbefore Hmatch. induction Hbefore as [|q before Hq _ IH].
  - cbn [app parse_loop]. rewrite Hmatch. cbn.
    by destruct (contains "$" g1).
  - cbn [app parse_loop]. by rewrite Hq.
Qed.

Lemma parse_loop_no_match (patterns : list regex) (text : str) :
  Forall (fun q => search q text IGNORECASE = None) patterns →
  parse_loop patterns text = Return (None, None).
Proof.
  induction 1 as [|q patterns Hq _ IH]; [done|].
  cbn [parse_loop]. by rewrite Hq.
Qed.

(** C8. [parse_funding_mention] tries its patterns in their order and the
    first that matches decides, whatever the later ones would find: both
    groups of that match are texts, the first group has a ["$"] in it
    exactly when it starts with one, and then it is the amount and the
    second group the round label, otherwise the other way round.  When no
    pattern matches, both results are none.  The function returns on every
    text.  On ["Acme raised $2M in a seed round"] the round is ["seed"] and
    the amount ["$2M"]. *)
Theorem parse_funding_info_first_match (text company_name : str) :
  (∀ before pattern after m,
     patterns = before ++ pattern :: after →
     Forall (fun q => search q text IGNORECASE = None) before →
     search pattern text IGNORECASE = Some m →
     ∃ g1 g2, m = [Some g1; Some g2]
       ∧ contains "$" g1 = startswith g1 "$"
       ∧ parse_funding_info text company_name
         = Return (if startswith g1 "$"
                   then (Some g2, Some g1)
                   else (Some g1, Some g2)))
  ∧ (Forall (fun q => search q text IGNORECASE = None) patterns →
     parse_funding_info text company_name = Return (None, None))
  ∧ (∃ funding, parse_funding_info text company_name = Return funding)
  ∧ parse_funding_info "Acme raised $2M in a seed round" company_name
    = Return (Some (str_of_string "seed"), Some (str_of_string "$2M")).
Proof.
  assert (Hfirst : ∀ before pattern after m,
     patterns = before ++ pattern :: after →
     Forall (fun q => search q text IGNORECASE = None) before →
     search pattern text IGNORECASE = Some m →
     ∃ g1 g2, m = [Some g1; Some g2]
       ∧ contains "$" g1 = startswith g1 "$"
       ∧ parse_funding_info text company_name
         = Return (if startswith g1 "$"
                   then (Some g2, Some g1)
                   else (Some g1, Some g2))).
  { intros before pattern after m Hpatterns Hbefore Hm.
    assert (Hin : pattern ∈ patterns).
    { rewrite Hpatterns. apply elem_of_app. right. by left. }
    destruct (patterns_two_groups pattern Hin) as (Hcount & H1 & H2).
    destruct (search_two_groups _ _ _ _ Hcount H1 H2 Hm) as (g1 & g2 & ->).
    pose proof (patterns_first_group pattern text _ g1 Hin Hm eq_refl) as Hdollar.
    exists g1, g2. split; [done|]. split; [done|].
    unfold parse_funding_info. rewrite Hpatterns, <- Hdollar.
    by apply parse_loop_first_match. }
  split; [done|]. split; [apply parse_loop_no_match|]. split; [|reflexivity].
  destruct (search pattern1 text IGNORECASE) as [m1|] eqn:H1.
  { destruct (Hfirst [] pattern1 [pattern2; pattern3] m1)
      as (? & ? & _ & _ & ->); by eauto. }
  destruct (search pattern2 text IGNORECASE) as [m2|] eqn:H2.
  { destruct (Hfirst [pattern1] pattern2 [pattern3] m2)
      as (? & ? & _ & _ & ->); by eauto. }
  destruct (search pattern3 text IGNORECASE) as [m3|] eqn:H3.
  { destruct (Hfirst [pattern1; pattern2] pattern3 [] m3)
      as (? & ? & _ & _ & ->); by eauto. }
  exists (None, None). apply parse_loop_no_match. by repeat constructor.
Qed.

End Funding.

(** ** main.py: the derived domain *)

Section Domain.
Context `{UnicodeTables}.

(** C5, amended. [extract_domain] lowercases the name, removes [" "],
    [","], ["."], ["inc"], ["llc"], ["the"] and ["-"] in that order and
    appends [".com"]; applied to ["Nox Metals, Inc."] it returns
    ["noxmetals.com"], the ["inc"] that is left once the spaces, the comma
    and the dots are gone being removed as well. *)
Theorem extract_domain_nox_metals :
  (∀ company_name,
     Main.extract_domain company_name
     = cat (foldl (fun domain remove => replace domain remove "")
                  (lower company_name)
                  (strs [" "; ","; "."; "inc"; "llc"; "the"; "-"]))
           ".com")
  ∧ replace (replace (replace (lower "Nox Metals, Inc.") " " "") "," "") "." ""
    = str_of_string "noxmetalsinc"
  ∧ Main.extract_domain "Nox Metals, Inc." = str_of_string "noxmetals.com".
Proof. split; [done|]. split; reflexivity. Qed.

End Domain.

(** ** The table of main.py *)

Lemma REAL_FOUNDERS_verified :
  map_Forall (fun _ data => verified data) Main.REAL_FOUNDERS.
Proof. compute_done. Qed.

(** With the table of [main.py], the classification of an enriched row is
    REAL exactly for the names in the table. *)
Lemma classify_enrich_company `{UnicodeTables} (record out : dict) (name : str) :
  record.["Company_Name"] = Some name →
  Main.enrich_company record = Return out →
  classify out = REAL ↔ is_Some (Main.REAL_FOUNDERS !! name).
Proof.
  intros Hname Hout.
  rewrite (classify_enrich_iff Main.REAL_FOUNDERS record name out Hname Hout).
  split.
  - intros (data & Hdata & _). by exists data.
  - intros [data Hdata]. exists data. split; [done|].
    by eapply REAL_FOUNDERS_verified.
Qed.


(** * Further properties of the scripts *)

(** ** Columns of a row after [with_items] *)

Section Columns.
Implicit Types (record : dict) (k : str) (entries : list (str * str)).

Lemma find_item_is_Some entries k :
  k ∈ entries.*1 → is_Some (find_item k entries).
Proof.
  induction entries as [|[k' v] rest IH]; [by intros ?%elem_of_nil|].
  cbn. intros [->|Hk]%elem_of_cons.
  - destruct (find_item k' rest); [done|].
    unfold eqb. by rewrite bool_decide_eq_true_2.
  - destruct (IH Hk) as [v' ->]. done.
Qed.

Lemma dom_with_items record entries :
  dom (with_items record entries) = dom record ∪ list_to_set entries.*1.
Proof.
  apply set_eq. intros k.
  rewrite elem_of_union, !elem_of_dom, elem_of_list_to_set, lookup_with_items.
  destruct (find_item k entries) as [v|] eqn:Hfind.
  - split; [|done]. intros _. right.
    destruct (decide (k ∈ entries.*1)) as [|Hnot]; [done|].
    by rewrite find_item_None in Hfind.
  - split; [by left|]. intros [?|Hk]; [done|].
    apply find_item_is_Some in Hk as [v Hv]. congruence.
Qed.

End Columns.

(** ** main.py: the columns of the output and the loop of [main] *)

Section MainLoopFacts.
Import MainLoop.
Context `{UnicodeTables}.
Implicit Types (overrides : gmap str founder) (companies enriched : list dict).


(** What [enrich] writes to [data_quality] tells whether the name is in the
    table. *)
Lemma enrich_inv overrides (company out : dict) :
  Main.enrich overrides company = Return out →
  ∃ name, company.["Company_Name"] = Some name
    ∧ ((is_Some (overrides !! name) ∧ out.["data_quality"] = Some REAL_mark)
       ∨ (overrides !! name = None ∧ out.["data_quality"] = Some PATTERN_mark)).
Proof.
  unfold Main.enrich, getitem.
  destruct (company.["Company_Name"]) as [name|]; [|done]. step_result.
  destruct (overrides !! name) as [data|] eqn:Hov.
  - intros [= <-]. exists name. split; [done|]. left. split; [done|].
    rewrite lookup_with_items. reflexivity.
  - destruct (company.["company_description"]) as [description|]; [|done].
    step_result. intros [= <-]. exists name. split; [done|]. right.
    split; [done|]. rewrite lookup_with_items. reflexivity.
Qed.

Lemma enrich_data_quality overrides (company out : dict) :
  Main.enrich overrides company = Return out →
  ∃ quality, getitem out "data_quality" = Return quality
    ∧ eqb quality REAL_mark = in_table overrides company
    ∧ eqb quality PATTERN_mark = negb (in_table overrides company).
Proof.
  intros (name & Hname & Hcases)%enrich_inv.
  unfold in_table, has_key, get, getitem. rewrite Hname. cbn [from_option id].
  destruct Hcases as [[Hov ->]|[Hov ->]].
  - exists REAL_mark. split; [done|].
    rewrite bool_decide_eq_true_2 by done. split; reflexivity.
  - exists PATTERN_mark. split; [done|]. rewrite Hov.
    rewrite bool_decide_eq_false_2 by (by intros [? ?]). split; reflexivity.
Qed.

Lemma loop_returns overrides companies enriched (real_count : nat) :
  Forall (enrichable overrides) companies →
  ∃ enriched',
    MainLoop.loop overrides companies enriched real_count
    = Return (enriched ++ enriched',
              real_count + length (List.filter (in_table overrides) companies))
    ∧ Forall2 (fun company out => Main.enrich overrides company = Return out)
              companies enriched'.
Proof.
  intros Hall. revert enriched real_count.
  induction Hall as [|company rest (name & Hname & Hor) _ IH];
    intros enriched real_count.
  - exists []. cbn. by rewrite app_nil_r, Nat.add_0_r.
  - destruct (enrich_returns overrides company name Hname Hor) as [out Hout].
    destruct (enrich_data_quality _ _ _ Hout) as (quality & Hq & Hreal & _).
    cbn [MainLoop.loop]. rewrite Hout. step_result. rewrite Hq. step_result.
    rewrite Hreal.
    destruct (IH (enriched ++ [out])
                (if in_table overrides company then real_count + 1 else real_count))
      as (enriched' & -> & Hrest).
    exists (out :: enriched'). split; [|by constructor].
    rewrite <- app_assoc. cbn [app List.filter].
    destruct (in_table overrides company); cbn [length]; do 2 f_equal; lia.
Qed.

(** X2. On rows that have the columns [enrich] indexes, the loop of [main]
    returns one enriched row for each input row, in order; [real_count] is
    the number of rows whose name is a key of the table and [pattern_count]
    the number of the others. *)
Theorem main_counts overrides companies :
  Forall (enrichable overrides) companies →
  ∃ enriched real_count pattern_count,
    MainLoop.main overrides companies
    = Return (enriched, real_count, pattern_count)
    ∧ Forall2 (fun company out => Main.enrich overrides company = Return out)
              companies enriched
    ∧ length enriched = length companies
    ∧ real_count = length (List.filter (in_table overrides) companies)
    ∧ pattern_count
      = length (List.filter (fun c => negb (in_table overrides c)) companies)
    ∧ real_count + pattern_count = length companies.
Proof.
  intros Hall.
  destruct (loop_returns overrides companies [] 0 Hall) as (enriched & Hloop & Hout).
  pose proof (filter_length (in_table overrides) companies) as Hsum.
  exists enriched, (length (List.filter (in_table overrides) companies)),
    (length (List.filter (fun c => negb (in_table overrides c)) companies)).
  unfold MainLoop.main. rewrite Hloop. step_result. cbn [app Nat.add].
  split; [do 3 f_equal; lia|]. split; [done|].
  split; [symmetry; by eapply Forall2_length|]. split; [done|]. split; [done|].
  lia.
Qed.

(** X3. The loop stops at the first row on which [enrich] raises, with the
    exception of that row; nothing is returned for the rows before it. *)
Theorem main_stops_at_first_error
    overrides (before after : list dict) (company : dict) (e : exn) :
  Forall (enrichable overrides) before →
  Main.enrich overrides company = Raise e →
  MainLoop.main overrides (before ++ company :: after) = Raise e.
Proof.
  intros Hbefore Hraise. unfold MainLoop.main.
  assert (Hloop : ∀ enriched real_count,
            MainLoop.loop overrides (before ++ company :: after) enriched real_count
            = Raise e); [|by rewrite Hloop].
  induction Hbefore as [|c rest (name & Hname & Hor) _ IH];
    intros enriched real_count; cbn [app MainLoop.loop].
  - by rewrite Hraise.
  - destruct (enrich_returns overrides c name Hname Hor) as [out Hout].
    destruct (enrich_data_quality _ _ _ Hout) as (quality & Hq & _).
    rewrite Hout. step_result. rewrite Hq. step_result. apply IH.
Qed.

End MainLoopFacts.

(** ** The marker of a row and the classification rule *)

Section MarkerAndRule.
Context `{UnicodeTables}.
Import MainLoop EnrichFromYcPages Quality.
Implicit Types (overrides : gmap str founder) (companies enriched : list dict).

Lemma marks_differ : REAL_mark ≠ PATTERN_mark.
Proof. done. Qed.

(** No row is selected both as a REAL and as a PATTERN row, whatever the
    rows are; rows with another marker or none are in neither selection. *)
Lemma marker_filters_disjoint (companies : list dict) :
  length (real_companies companies) + length (pattern_companies companies)
  ≤ length companies.
Proof.
  unfold real_companies, pattern_companies.
  induction companies as [|c rest IH]; [done|]. cbn [List.filter].
  destruct (c.["data_quality"]) as [quality|]; cbn [value_eqb].
  - unfold eqb. destruct (decide (quality = REAL_mark)) as [->|Hne].
    + rewrite bool_decide_eq_true_2 by done.
      rewrite bool_decide_eq_false_2 by done. cbn [length]. lia.
    + rewrite (bool_decide_eq_false_2 (quality = REAL_mark)) by done.
      case_bool_decide; cbn [length]; lia.
  - cbn [length]. lia.
Qed.

(** X4. On the rows that [main.py] writes, the selections by marker that the
    later scripts start from are the rows whose name is in the table and
    the rows whose name is not: their sizes are the [real_count] and the
    [pattern_count] of [main.py] and add up to the number of rows. *)
Theorem marker_filters_after_main overrides companies enriched :
  Forall2 (fun company out => Main.enrich overrides company = Return out)
          companies enriched →
  length (real_companies enriched)
  = length (List.filter (in_table overrides) companies)
  ∧ length (pattern_companies enriched)
    = length (List.filter (fun c => negb (in_table overrides c)) companies)
  ∧ length (real_companies enriched) + length (pattern_companies enriched)
    = length enriched.
Proof.
  intros Hall.
  assert (Hboth : length (real_companies enriched)
            = length (List.filter (in_table overrides) companies)
          ∧ length (pattern_companies enriched)
            = length (List.filter (fun c => negb (in_table overrides c)) companies)).
  { unfold real_companies, pattern_companies.
    induction Hall as [|company out rest enriched' Hout _ IH]; [done|].
    destruct (enrich_data_quality _ _ _ Hout) as (quality & Hq & Hreal & Hpattern).
    unfold getitem in Hq.
    destruct (out.["data_quality"]) as [quality'|] eqn:Hdq; [|done].
    injection Hq as ->. cbn [List.filter]. rewrite Hdq. cbn [value_eqb].
    rewrite Hreal, Hpattern. destruct IH as [IH1 IH2].
    destruct (in_table overrides company); cbn [negb length]; by rewrite IH1, IH2. }
  destruct Hboth as [-> ->]. split; [done|]. split; [done|].
  pose proof (filter_length (in_table overrides) companies).
  apply Forall2_length in Hall. lia.
Qed.

(** [enrich] with a table all of whose entries pass the rule writes rows
    whose marker and classification agree. *)
Lemma enrich_consistent overrides (company out : dict) :
  map_Forall (fun _ data => verified data) overrides →
  Main.enrich overrides company = Return out →
  consistent out.
Proof.
  intros Hall Hout.
  destruct (enrich_inv _ _ _ Hout) as (name & Hname & Hcases).
  pose proof (classify_enrich_iff overrides company name out Hname Hout) as Hiff.
  rewrite classify_REAL in Hiff.
  destruct Hcases as [[[data Hdata] Hdq]|[Hnone Hdq]].
  - left. split; [done|]. apply Hiff. exists data. split; [done|].
    by eapply Hall.
  - right. split; [done|]. apply not_false_iff_true. rewrite Hiff.
    intros (data & Hdata & _). congruence.
Qed.

Lemma update_consistent (row : dict) (real_data : founder) :
  verified real_data →
  consistent (UpdateWithRealFounders.update_company_with_real_data row real_data).
Proof.
  intros Hverified. left. unfold UpdateWithRealFounders.update_company_with_real_data.
  split; [rewrite lookup_with_items; reflexivity|].
  apply not_true_iff_false.
  by rewrite (pattern_rule_with_items _ _ (founder_first real_data)
                (founder_email real_data) (founder_linkedin real_data))
    by reflexivity.
Qed.

Lemma batch_update_consistent (row : dict) (real_data : BatchExtractFounders.founder) :
  batch_verified real_data →
  consistent (BatchExtractFounders.update_company_with_real_data row real_data).
Proof.
  intros Hverified. left.
  unfold BatchExtractFounders.update_company_with_real_data. cbv zeta.
  split; [rewrite lookup_with_items; reflexivity|].
  apply not_true_iff_false.
  by rewrite (pattern_rule_with_items _ _
                (BatchExtractFounders.founder_first real_data)
                (BatchExtractFounders.founder_email real_data)
                (BatchExtractFounders.founder_linkedin real_data))
    by reflexivity.
Qed.

Lemma update_merge_consistent (update_table : gmap str founder) (row : dict) :
  map_Forall (fun _ data => verified data) update_table →
  consistent row →
  consistent (UpdateWithRealFounders.merge_update update_table row).
Proof.
  intros Hupdate Hrow. rewrite update_merge_update_cases.
  destruct (update_table !! _) as [real_data|] eqn:Hdata; [|done].
  destruct (UpdateWithRealFounders.is_pattern_data row); [|done].
  apply update_consistent. by eapply Hupdate.
Qed.

Lemma batch_merge_consistent
    (batch_table : gmap str BatchExtractFounders.founder) (row : dict) :
  map_Forall (fun _ data => batch_verified data) batch_table →
  consistent row →
  consistent (BatchExtractFounders.merge_update batch_table row).
Proof.
  intros Hbatch Hrow. rewrite batch_merge_update_cases.
  destruct (batch_table !! _) as [real_data|] eqn:Hdata; [|done].
  destruct (BatchExtractFounders.is_pattern_data row); [|done].
  apply batch_update_consistent. by eapply Hbatch.
Qed.

(** X5. With tables all of whose entries pass the classification rule, the
    marker of a row says what the rule says after [enrich], and the merge
    step of either update script keeps it so. *)
Theorem marker_agrees_with_rule
    overrides (update_table : gmap str founder)
    (batch_table : gmap str BatchExtractFounders.founder) (row : dict) :
  map_Forall (fun _ data => verified data) overrides →
  map_Forall (fun _ data => verified data) update_table →
  map_Forall (fun _ data => batch_verified data) batch_table →
  (∀ out, Main.enrich overrides row = Return out → consistent out)
  ∧ (consistent row →
     consistent (UpdateWithRealFounders.merge_update update_table row)
     ∧ consistent (BatchExtractFounders.merge_update batch_table row)).
Proof.
  intros Hoverrides Hupdate Hbatch. split.
  - intros out. by apply enrich_consistent.
  - intros Hrow. split.
    + by apply update_merge_consistent.
    + by apply batch_merge_consistent.
Qed.

(** Where the markers agree with the rule, selecting by marker and
    counting by rule come to the same. *)
Lemma consistent_counts (companies : list dict) :
  Forall consistent companies →
  pattern_companies companies
  = List.filter UpdateWithRealFounders.is_pattern_data companies
  ∧ UpdateLoop.pattern_count companies = length (pattern_companies companies)
  ∧ UpdateLoop.real_count companies = length (real_companies companies)
  ∧ BatchLoop.pattern_count companies = length (pattern_companies companies)
  ∧ BatchLoop.real_count companies = length (real_companies companies).
Proof.
  intros Hall.
  assert (Hpattern : pattern_companies companies
            = List.filter UpdateWithRealFounders.is_pattern_data companies).
  { unfold pattern_companies.
    induction Hall as [|row rest Hrow _ IH]; [done|]. cbn [List.filter].
    rewrite IH. destruct Hrow as [[-> ->]|[-> ->]]; reflexivity. }
  assert (Hreal : length (real_companies companies)
            = length companies
              - length (List.filter UpdateWithRealFounders.is_pattern_data companies)).
  { clear Hpattern. unfold real_companies.
    induction Hall as [|row rest Hrow _ IH]; [done|]. cbn [List.filter].
    pose proof (filter_length_le UpdateWithRealFounders.is_pattern_data rest).
    destruct Hrow as [[-> ->]|[-> ->]]; cbn [value_eqb];
      [change (eqb REAL_mark REAL_mark) with true
      |change (eqb PATTERN_mark REAL_mark) with false];
      cbn [length]; rewrite IH; lia. }
  unfold UpdateLoop.real_count, UpdateLoop.pattern_count,
    BatchLoop.real_count, BatchLoop.pattern_count.
  change BatchExtractFounders.is_pattern_data
    with UpdateWithRealFounders.is_pattern_data.
  rewrite Hpattern, Hreal. done.
Qed.

End MarkerAndRule.

(** ** The update scripts: what the merge step leaves alone, and the loop *)

Section UpdateLoops.
Import Quality.
Implicit Types (update_table : gmap str founder)
  (batch_table : gmap str BatchExtractFounders.founder)
  (row : dict) (companies : list dict).

(** The row after a merge step is the row itself or the row with the ten
    enriched columns written. *)
Lemma update_merge_update_writes update_table row :
  UpdateWithRealFounders.merge_update update_table row = row
  ∨ ∃ entries,
      UpdateWithRealFounders.merge_update update_table row = with_items row entries
      ∧ entries.*1 = enriched_fields.
Proof.
  rewrite update_merge_update_cases.
  destruct (update_table !! _) as [real_data|]; [|by left].
  destruct (UpdateWithRealFounders.is_pattern_data row); [|by left].
  right. eexists. split; reflexivity.
Qed.

Lemma batch_merge_update_writes batch_table row :
  BatchExtractFounders.merge_update batch_table row = row
  ∨ ∃ entries,
      BatchExtractFounders.merge_update batch_table row = with_items row entries
      ∧ entries.*1 = enriched_fields.
Proof.
  rewrite batch_merge_update_cases.
  destruct (batch_table !! _) as [real_data|]; [|by left].
  destruct (BatchExtractFounders.is_pattern_data row); [|by left].
  right. eexists. split; reflexivity.
Qed.

Lemma written_frame row (out : dict) :
  (out = row ∨ ∃ entries, out = with_items row entries
                 ∧ entries.*1 = enriched_fields) →
  (∀ k, k ∉ enriched_fields → out !! k = row !! k)
  ∧ (∀ k, is_Some (row !! k) → is_Some (out !! k))
  ∧ (list_to_set enriched_fields ⊆ dom row → dom out = dom row).
Proof.
  intros [->|(entries & -> & Hkeys)]; [done|].
  split; [|split].
  - intros k Hk. apply lookup_with_items_other. by rewrite Hkeys.
  - intros k. apply lookup_with_items_is_Some.
  - intros Hsub. rewrite dom_with_items, Hkeys, (comm_L (∪)).
    by apply subseteq_union_1_L.
Qed.

(** X7. The merge step of either update script changes no column outside the
    ten enriched ones, removes none, and adds none to a row that already
    has the ten: an enriched file keeps its header. *)
Theorem merge_update_frame update_table batch_table row :
  ((∀ k, k ∉ enriched_fields →
      UpdateWithRealFounders.merge_update update_table row !! k = row !! k)
   ∧ (∀ k, is_Some (row !! k) →
      is_Some (UpdateWithRealFounders.merge_update update_table row !! k))
   ∧ (list_to_set enriched_fields ⊆ dom row →
      dom (UpdateWithRealFounders.merge_update update_table row) = dom row))
  ∧ ((∀ k, k ∉ enriched_fields →
        BatchExtractFounders.merge_update batch_table row !! k = row !! k)
     ∧ (∀ k, is_Some (row !! k) →
        is_Some (BatchExtractFounders.merge_update batch_table row !! k))
     ∧ (list_to_set enriched_fields ⊆ dom row →
        dom (BatchExtractFounders.merge_update batch_table row) = dom row)).
Proof.
  split.
  - apply written_frame, update_merge_update_writes.
  - apply written_frame, batch_merge_update_writes.
Qed.

(** X8. [batch_extract_founders.py] never changes a job or funding column that
    the row has, whereas [update_with_real_founders.py] replaces the four
    of them by the values of the table in every row it updates. *)
Theorem batch_keeps_job_and_funding update_table batch_table row :
  (∀ k, k ∈ kept_fields → is_Some (row !! k) →
     BatchExtractFounders.merge_update batch_table row !! k = row !! k)
  ∧ (∀ real_data,
     to_update update_table row = true →
     update_table !! get row "Company_Name" "" = Some real_data →
     let out := UpdateWithRealFounders.merge_update update_table row in
     out.["job_openings"] = Some (jobs real_data)
     ∧ out.["funding_stage"] = Some (funding_stage real_data)
     ∧ out.["amount_raised"] = Some (amount_raised real_data)
     ∧ out.["date_raised"] = Some (date_raised real_data)).
Proof.
  split.
  - intros k Hk [v Hv]. rewrite batch_merge_update_cases.
    destruct (batch_table !! _) as [real_data|]; [|done].
    destruct (BatchExtractFounders.is_pattern_data row); [|done].
    unfold BatchExtractFounders.update_company_with_real_data. cbv zeta.
    rewrite lookup_with_items.
    unfold kept_fields, strs in Hk. cbn [map] in Hk.
    rewrite !elem_of_cons, elem_of_nil in Hk.
    destruct Hk as [->|[->|[->|[->|[]]]]]; cbn [find_item];
      unfold get; rewrite Hv; reflexivity.
  - intros real_data [_ Hpattern]%andb_true_iff Hdata out. subst out.
    rewrite update_merge_update_cases, Hdata, Hpattern.
    unfold UpdateWithRealFounders.update_company_with_real_data.
    repeat split; rewrite lookup_with_items; reflexivity.
Qed.

(** *** The loops *)

Lemma update_loop_map update_table companies (updated_count : nat) :
  UpdateLoop.loop update_table companies updated_count
  = (map (UpdateWithRealFounders.merge_update update_table) companies,
     updated_count + length (List.filter (to_update update_table) companies)).
Proof.
  revert updated_count. induction companies as [|company rest IH];
    intros updated_count; cbn [UpdateLoop.loop map List.filter].
  - by rewrite Nat.add_0_r.
  - rewrite IH. unfold to_update at 2.
    destruct (has_key _ update_table && _); cbn [length]; f_equal; lia.
Qed.

Lemma batch_loop_map batch_table companies (updated_count : nat) :
  BatchLoop.loop batch_table companies updated_count
  = (map (BatchExtractFounders.merge_update batch_table) companies,
     updated_count + length (List.filter (to_update batch_table) companies)).
Proof.
  revert updated_count. induction companies as [|company rest IH];
    intros updated_count; cbn [BatchLoop.loop map List.filter].
  - by rewrite Nat.add_0_r.
  - rewrite IH. unfold to_update at 2.
    change BatchExtractFounders.is_pattern_data
      with UpdateWithRealFounders.is_pattern_data.
    destruct (has_key _ batch_table && _); cbn [length]; f_equal; lia.
Qed.

(** How a merge step with a table of entries that pass the rule changes
    the classification: an updated row becomes real data, any other row is
    as it was. *)
Lemma update_merge_update_pattern update_table row :
  map_Forall (fun _ data => verified data) update_table →
  UpdateWithRealFounders.is_pattern_data
    (UpdateWithRealFounders.merge_update update_table row)
  = UpdateWithRealFounders.is_pattern_data row && negb (to_update update_table row).
Proof.
  intros Hall. rewrite update_merge_update_cases. unfold to_update, has_key.
  destruct (update_table !! _) as [real_data|] eqn:Hdata.
  - rewrite bool_decide_eq_true_2 by done. cbn [andb].
    destruct (UpdateWithRealFounders.is_pattern_data row) eqn:Hp; [|by rewrite Hp].
    cbn [negb andb].
    destruct (update_consistent row real_data) as [[_ ?]|[Hmark _]];
      [by eapply Hall|done|].
    unfold UpdateWithRealFounders.update_company_with_real_data in Hmark.
    rewrite lookup_with_items in Hmark. by injection Hmark.
  - rewrite bool_decide_eq_false_2 by (by intros [? ?]). cbn [andb negb].
    by rewrite andb_true_r.
Qed.

Lemma batch_merge_update_pattern batch_table row :
  map_Forall (fun _ data => batch_verified data) batch_table →
  UpdateWithRealFounders.is_pattern_data
    (BatchExtractFounders.merge_update batch_table row)
  = UpdateWithRealFounders.is_pattern_data row && negb (to_update batch_table row).
Proof.
  intros Hall. rewrite batch_merge_update_cases. unfold to_update, has_key.
  change BatchExtractFounders.is_pattern_data
    with UpdateWithRealFounders.is_pattern_data.
  destruct (batch_table !! _) as [real_data|] eqn:Hdata.
  - rewrite bool_decide_eq_true_2 by done. cbn [andb].
    destruct (UpdateWithRealFounders.is_pattern_data row) eqn:Hp; [|by rewrite Hp].
    cbn [negb andb].
    destruct (batch_update_consistent row real_data) as [[_ ?]|[Hmark _]];
      [by eapply Hall|done|].
    unfold BatchExtractFounders.update_company_with_real_data in Hmark.
    cbv zeta in Hmark.
    rewrite lookup_with_items in Hmark. by injection Hmark.
  - rewrite bool_decide_eq_false_2 by (by intros [? ?]). cbn [andb negb].
    by rewrite andb_true_r.
Qed.

Lemma update_merge_update_name update_table row :
  get (UpdateWithRealFounders.merge_update update_table row) "Company_Name" ""
  = get row "Company_Name" "".
Proof.
  rewrite update_merge_update_cases.
  destruct (update_table !! _) as [real_data|]; [|done].
  destruct (UpdateWithRealFounders.is_pattern_data row); [|done].
  apply update_company_name.
Qed.

Lemma batch_merge_update_name batch_table row :
  get (BatchExtractFounders.merge_update batch_table row) "Company_Name" ""
  = get row "Company_Name" "".
Proof.
  rewrite batch_merge_update_cases.
  destruct (batch_table !! _) as [real_data|]; [|done].
  destruct (BatchExtractFounders.is_pattern_data row); [|done].
  apply batch_company_name.
Qed.

Lemma filter_map_length {A B} (f : A → B) (P : B → bool) (Q : A → bool) (l : list A) :
  (∀ x, P (f x) = Q x) →
  length (List.filter P (map f l)) = length (List.filter Q l).
Proof.
  intros HPQ. induction l as [|x l IH]; [done|]. cbn [map List.filter].
  rewrite HPQ. destruct (Q x); cbn [length]; by rewrite IH.
Qed.

Lemma filter_and_length {A} (P Q : A → bool) (l : list A) :
  length (List.filter (fun x => P x && negb (Q x && P x)) l)
  + length (List.filter (fun x => Q x && P x) l)
  = length (List.filter P l).
Proof.
  induction l as [|x l IH]; [done|]. cbn [List.filter].
  destruct (P x), (Q x); cbn [andb negb length]; lia.
Qed.

(** X9. The loop of an update script returns every row after its merge step
    and counts the rows it updated: those classified PATTERN whose name is
    a key of the table.  When the entries of the table pass the rule, the
    [pattern_count] it prints afterwards is the one before minus
    [updated_count]. *)
Theorem update_loop_counts update_table batch_table companies :
  (∃ companies' updated_count,
     UpdateLoop.loop update_table companies 0 = (companies', updated_count)
     ∧ companies' = map (UpdateWithRealFounders.merge_update update_table) companies
     ∧ updated_count = length (List.filter (to_update update_table) companies)
     ∧ (map_Forall (fun _ data => verified data) update_table →
        UpdateLoop.pattern_count companies' + updated_count
        = UpdateLoop.pattern_count companies))
  ∧ (∃ companies' updated_count,
     BatchLoop.loop batch_table companies 0 = (companies', updated_count)
     ∧ companies' = map (BatchExtractFounders.merge_update batch_table) companies
     ∧ updated_count = length (List.filter (to_update batch_table) companies)
     ∧ (map_Forall (fun _ data => batch_verified data) batch_table →
        BatchLoop.pattern_count companies' + updated_count
        = BatchLoop.pattern_count companies)).
Proof.
  split.
  - eexists _, _. split; [apply update_loop_map|]. split; [done|]. split; [done|].
    intros Hall. unfold UpdateLoop.pattern_count.
    rewrite (filter_map_length _ _
               (fun row => UpdateWithRealFounders.is_pattern_data row
                           && negb (to_update update_table row)))
      by (intros row; by apply update_merge_update_pattern).
    cbn [Nat.add]. unfold to_update. apply filter_and_length.
  - eexists _, _. split; [apply batch_loop_map|]. split; [done|]. split; [done|].
    intros Hall. unfold BatchLoop.pattern_count.
    change BatchExtractFounders.is_pattern_data
      with UpdateWithRealFounders.is_pattern_data.
    rewrite (filter_map_length _ _
               (fun row => UpdateWithRealFounders.is_pattern_data row
                           && negb (to_update batch_table row)))
      by (intros row; by apply batch_merge_update_pattern).
    cbn [Nat.add]. unfold to_update. apply filter_and_length.
Qed.

(** X10. Running an update script again on its own output, with a table whose
    entries pass the rule, updates nothing: [updated_count] is 0 and every
    row is as the first run left it. *)
Theorem update_loop_rerun update_table batch_table companies :
  map_Forall (fun _ data => verified data) update_table →
  map_Forall (fun _ data => batch_verified data) batch_table →
  UpdateLoop.loop update_table (UpdateLoop.loop update_table companies 0).1 0
  = ((UpdateLoop.loop update_table companies 0).1, 0)
  ∧ BatchLoop.loop batch_table (BatchLoop.loop batch_table companies 0).1 0
    = ((BatchLoop.loop batch_table companies 0).1, 0).
Proof.
  intros Hupdate Hbatch. split.
  - rewrite !update_loop_map. cbn [fst Nat.add]. f_equal.
    + rewrite map_map. apply map_ext. intros row.
      apply update_merge_update_idempotent.
    + rewrite (filter_map_length _ _ (fun _ => false)); [by rewrite filter_false|].
      intros row. unfold to_update at 1.
      rewrite update_merge_update_name, update_merge_update_pattern by done.
      unfold to_update.
      by destruct (has_key _ update_table),
        (UpdateWithRealFounders.is_pattern_data row).
  - rewrite !batch_loop_map. cbn [fst Nat.add]. f_equal.
    + rewrite map_map. apply map_ext. intros row.
      apply batch_merge_update_idempotent.
    + rewrite (filter_map_length _ _ (fun _ => false)); [by rewrite filter_false|].
      intros row. unfold to_update at 1.
      rewrite batch_merge_update_name, batch_merge_update_pattern by done.
      unfold to_update.
      by destruct (has_key _ batch_table),
        (UpdateWithRealFounders.is_pattern_data row).
Qed.

End UpdateLoops.

(** ** From main.py to an update script: the counts that are printed *)

Section PipelineCounts.
Context `{UnicodeTables}.
Import EnrichFromYcPages Quality.

Lemma enriched_consistent (overrides : gmap str founder)
    (companies enriched : list dict) :
  map_Forall (fun _ data => verified data) overrides →
  Forall2 (fun company out => Main.enrich overrides company = Return out)
          companies enriched →
  Forall consistent enriched.
Proof.
  intros Hoverrides Hrows.
  induction Hrows as [|company out companies enriched Hout _ IH];
    constructor; [|done].
  by eapply enrich_consistent.
Qed.

(** X6. Rows enriched by [main.py] and then taken through the loop of an
    update script, with tables all of whose entries pass the classification
    rule: the [pattern_count] and the [real_count] that the update script
    prints, which it gets by the rule, are the numbers of rows that the
    other scripts select by the PATTERN and by the REAL marker. *)
Theorem counts_by_marker_and_rule
    (overrides update_table : gmap str founder)
    (batch_table : gmap str BatchExtractFounders.founder)
    (companies enriched : list dict) :
  map_Forall (fun _ data => verified data) overrides →
  map_Forall (fun _ data => verified data) update_table →
  map_Forall (fun _ data => batch_verified data) batch_table →
  Forall2 (fun company out => Main.enrich overrides company = Return out)
          companies enriched →
  (let updated := (UpdateLoop.loop update_table enriched 0).1 in
   UpdateLoop.pattern_count updated = length (pattern_companies updated)
   ∧ UpdateLoop.real_count updated = length (real_companies updated))
  ∧ (let updated := (BatchLoop.loop batch_table enriched 0).1 in
     BatchLoop.pattern_count updated = length (pattern_companies updated)
     ∧ BatchLoop.real_count updated = length (real_companies updated)).
Proof.
  intros Hoverrides Hupdate Hbatch Hrows.
  pose proof (enriched_consistent _ _ _ Hoverrides Hrows) as Henriched.
  split; intros updated; subst updated.
  - rewrite update_loop_map. cbn [fst].
    assert (Hall : Forall consistent
              (map (UpdateWithRealFounders.merge_update update_table) enriched)).
    { apply Forall_map. eapply Forall_impl; [exact Henriched|].
      intros row. by apply update_merge_consistent. }
    destruct (consistent_counts _ Hall) as (_ & Hpattern & Hreal & _). done.
  - rewrite batch_loop_map. cbn [fst].
    assert (Hall : Forall consistent
              (map (BatchExtractFounders.merge_update batch_table) enriched)).
    { apply Forall_map. eapply Forall_impl; [exact Henriched|].
      intros row. by apply batch_merge_consistent. }
    destruct (consistent_counts _ Hall) as (_ & _ & _ & Hpattern & Hreal). done.
Qed.

End PipelineCounts.

(** ** The slug of a link that was built around it *)

Section SlugRoundTrip.
Context `{UnicodeTables}.
Import Re FindFundingRounds.

Lemma take_while_app_stop (P : N → bool) (s rest : str) :
  Forall (fun c => P c = true) s →
  (rest = [] ∨ ∃ c rest', rest = c :: rest' ∧ P c = false) →
  take_while P (s ++ rest) = s.
Proof.
  intros Hs Hrest. induction Hs as [|c s Hc _ IH]; cbn [app take_while].
  - destruct Hrest as [->|(c & rest' & -> & Hc)]; [done|].
    cbn [take_while]. by rewrite Hc.
  - by rewrite Hc, IH.
Qed.

(** An attempt right at ["/companies/"] takes the segment. *)
Lemma attempt_here_segment (seg rest : str) :
  seg ≠ [] →
  Forall (fun c => c ≠ ord "/") seg →
  (rest = [] ∨ ∃ rest', rest = ord "/" :: rest') →
  attempt_here (str_of_string "/companies/" ++ seg ++ rest) = Some [Some seg].
Proof.
  intros Hseg Hnoslash Hrest. unfold attempt_here. rewrite slug_attempt.
  assert (lit_rest NoFlags "/companies/"
            (str_of_string "/companies/" ++ seg ++ rest) = Some (seg ++ rest))
    as -> by by apply lit_rest_NoFlags.
  destruct seg as [|c seg]; [done|]. cbn [app].
  apply Forall_cons in Hnoslash as [Hc Hnoslash].
  assert (not_slash c = true) as ->.
  { unfold not_slash. by apply negb_true_iff, N.eqb_neq. }
  rewrite take_while_app_stop; [done| |].
  - eapply Forall_impl; [done|]. intros c' Hc'.
    unfold not_slash. by apply negb_true_iff, N.eqb_neq.
  - destruct Hrest as [->|[rest' ->]]; [by left|].
    right. exists (ord "/"), rest'. split; [done|]. reflexivity.
Qed.

(** No attempt succeeds before ["/companies/"] when the text up to it holds
    no earlier one. *)
Lemma attempt_here_before (c : N) (pre tail : str) :
  startswith ((c :: pre) ++ str_of_string "/companies") "/companies/" = false →
  attempt_here ((c :: pre) ++ str_of_string "/companies/" ++ tail) = None.
Proof.
  intros Hstart. unfold attempt_here. rewrite slug_attempt.
  destruct (lit_rest NoFlags "/companies/"
              ((c :: pre) ++ str_of_string "/companies/" ++ tail))
    as [s'|] eqn:Hlit; [|done].
  apply lit_rest_NoFlags in Hlit.
  apply not_true_iff_false in Hstart. destruct Hstart.
  apply startswith_prefix.
  assert (Hp1 : str_of_string "/companies/"
                `prefix_of` (c :: pre) ++ str_of_string "/companies/" ++ tail)
    by (by exists s').
  assert (Hp2 : (c :: pre) ++ str_of_string "/companies"
                `prefix_of` (c :: pre) ++ str_of_string "/companies/" ++ tail).
  { apply prefix_app. exists (ord "/" :: tail). reflexivity. }
  destruct (prefix_weak_total _ _ _ Hp1 Hp2) as [?|Hback]; [done|].
  apply prefix_length in Hback as Hlen.
  rewrite length_app in Hlen. cbn [length] in Hlen.
  change (length (str_of_string "/companies")) with 10 in Hlen.
  change (length (str_of_string "/companies/")) with 11 in Hlen.
  assert (length ((c :: pre) ++ str_of_string "/companies")
          = length (str_of_string "/companies/")) as Heq.
  { rewrite length_app. cbn [length].
    change (length (str_of_string "/companies")) with 10.
    change (length (str_of_string "/companies/")) with 11. lia. }
  by rewrite (prefix_length_eq _ _ Hback) by lia.
Qed.

(** X11. A link built as a prefix, ["/companies/"], a segment without a slash
    and, if anything follows, a slash and more, gives back the segment,
    when the prefix with ["/companies"] after it holds no ["/companies/"]. *)
Theorem extract_company_slug_round_trip (pre seg rest : str) :
  contains "/companies/" (cat pre "/companies") = false →
  seg ≠ [] →
  Forall (fun c => c ≠ ord "/") seg →
  (rest = [] ∨ ∃ rest', rest = ord "/" :: rest') →
  extract_company_slug (pre ++ str_of_string "/companies/" ++ seg ++ rest)
  = Some seg.
Proof.
  intros Hpre Hseg Hnoslash Hrest.
  assert (Hsearch : search_from NoFlags slug_pattern
            (pre ++ str_of_string "/companies/" ++ seg ++ rest) = Some [Some seg]).
  { unfold cat in Hpre. induction pre as [|c pre IH].
    - cbn [app]. destruct seg as [|c seg]; [done|].
      change (str_of_string "/companies/" ++ (c :: seg) ++ rest)
        with (ord "/" :: str_of_string "companies/" ++ (c :: seg) ++ rest).
      rewrite search_from_slug_cons.
      change (ord "/" :: str_of_string "companies/" ++ (c :: seg) ++ rest)
        with (str_of_string "/companies/" ++ (c :: seg) ++ rest).
      by rewrite attempt_here_segment.
    - apply contains_false_cons in Hpre as [Hstart Hlater].
      change ((c :: pre) ++ str_of_string "/companies/" ++ seg ++ rest)
        with (c :: (pre ++ str_of_string "/companies/" ++ seg ++ rest)).
      rewrite search_from_slug_cons.
      change (c :: (pre ++ str_of_string "/companies/" ++ seg ++ rest))
        with ((c :: pre) ++ str_of_string "/companies/" ++ seg ++ rest).
      rewrite attempt_here_before by done. by apply IH. }
  unfold extract_company_slug, search. rewrite Hsearch.
  destruct (pre ++ str_of_string "/companies/" ++ seg ++ rest) eqn:Hurl; [|done].
  by destruct pre.
Qed.

(** X12. [search_founder_info] returns its three queries on the company name,
    and a fourth on the slug exactly when the link has one: a slug that was
    found is never empty, so the test [if company_slug] never drops it. *)
Theorem search_founder_info_queries (company_name yc_link description : str) :
  let three := [cat company_name " Y Combinator founder";
                cat company_name " founder CEO";
                cat company_name " YC Summer 2025"] in
  (FindRealFounders.extract_company_name_from_yc_link yc_link = None →
   FindRealFounders.search_founder_info company_name yc_link description = three)
  ∧ (∀ slug,
     FindRealFounders.extract_company_name_from_yc_link yc_link = Some slug →
     slug ≠ []
     ∧ FindRealFounders.search_founder_info company_name yc_link description
       = three ++ [cat slug " founder"]).
Proof.
  intros three. unfold FindRealFounders.search_founder_info.
  split.
  - by intros ->.
  - intros slug Hslug. rewrite Hslug. cbn [truthy_value format_value].
    assert (slug ≠ []) as Hne.
    { revert Hslug. unfold FindRealFounders.extract_company_name_from_yc_link, search.
      destruct (negb (truthy yc_link)); [done|].
      destruct (search_from NoFlags slug_pattern yc_link) as [m|] eqn:Hm; [|done].
      apply slug_search_Some in Hm as (pre & seg & rest & -> & _ & Hseg & _).
      cbn. by intros [= <-]. }
    split; [done|]. by destruct slug.
Qed.

End SlugRoundTrip.

(** ** find_actual_funding.py: what is returned as amount and as label *)

Section FundingAmount.
Context `{UnicodeTables}.
Import Re FindActualFunding FundingParts.

Lemma fold_dollar (c : N) :
  (∀ c, is_ascii c = false → fold_hi c ≠ ord "$") →
  same_char IGNORECASE (ord "$") c = true → c = ord "$".
Proof.
  intros Hfold. cbn [same_char]. unfold fold.
  change (is_ascii (ord "$")) with true. cbn [lower_ascii].
  change (lower_ascii (ord "$")) with (ord "$").
  destruct (is_ascii c) eqn:Hascii.
  - intros Heq%N.eqb_eq. unfold lower_ascii in Heq.
    destruct (is_upper_ascii c) eqn:Hupper; [|done].
    unfold is_upper_ascii in Hupper.
    apply andb_true_iff in Hupper as [Hlo%N.leb_le Hhi%N.leb_le].
    change (ord "$") with 36%N in Heq. lia.
  - intros Heq%N.eqb_eq. by apply Hfold in Hascii.
Qed.

Lemma in_charset_one_of (f : flag) (atoms1 atoms2 : list atom) (c : N) :
  in_charset f (one_of (atoms1 ++ atoms2)) c
  = in_charset f (one_of atoms1) c || in_charset f (one_of atoms2) c.
Proof. unfold in_charset. cbn [negated atoms one_of xorb]. apply existsb_app. Qed.

(** The class after the ["$"], character by character. *)
Lemma amount_body_char (c : N) :
  in_charset IGNORECASE amount_body c = true → amount_char c.
Proof.
  unfold in_charset, amount_body, one_of, amount_char.
  cbn [negated atoms xorb existsb atom_matches].
  change (str_of_string ".") with [46%N].
  change (str_of_string "MBK") with [77%N; 66%N; 75%N].
  cbn [existsb same_char].
  change (fold 46%N) with 46%N. change (fold 77%N) with 109%N.
  change (fold 66%N) with 98%N. change (fold 75%N) with 107%N.
  change (ord ".") with 46%N. change (ord "M") with 77%N.
  change (ord "B") with 66%N. change (ord "K") with 75%N.
  change (ord "m") with 109%N. change (ord "b") with 98%N.
  change (ord "k") with 107%N.
  rewrite !orb_false_r, !orb_true_iff, !N.eqb_eq.
  unfold is_decimal, fold, lower_ascii, is_upper_ascii.
  destruct (is_ascii c) eqn:Hascii.
  - intros Hc.
    assert ((48 <= c <= 57)%N
            ∨ c = 46%N ∨ c = 77%N ∨ c = 66%N ∨ c = 75%N
            ∨ c = 109%N ∨ c = 98%N ∨ c = 107%N) as Hcases.
    { destruct ((65 <=? c)%N && (c <=? 90)%N) eqn:Hupper;
        [apply andb_true_iff in Hupper as [Hlo%N.leb_le Hhi%N.leb_le]|];
        rewrite ?andb_true_iff, ?N.leb_le in Hc; lia. }
    destruct Hcases as [?|Hletter]; [by left|]. right. left.
    rewrite !elem_of_cons. tauto.
  - intros Hc. right. right. split; [done|].
    rewrite !elem_of_cons. tauto.
Qed.

(** A text of the amount pattern: a first character that [re.IGNORECASE]
    takes for ["$"], then at least one more, all of them characters of the
    class after it. *)
Lemma amount_word (w : str) :
  word IGNORECASE amount w →
  ∃ c body, w = c :: body
    ∧ same_char IGNORECASE (ord "$") c = true
    ∧ body ≠ []
    ∧ Forall amount_char body.
Proof.
  unfold amount at 1. cbn [word].
  intros (w1 & w2 & -> & Hw1 & w3 & w4 & -> & [Hne Hw3] & Hw4).
  inversion Hw1 as [|a c p w' Hc Hnil]; subst. inversion Hnil; subst.
  exists c, (w3 ++ w4). split; [done|]. split; [done|].
  split; [by destruct w3|].
  apply Forall_app. split.
  - eapply Forall_impl; [done|]. intros c' Hc'. apply amount_body_char.
    unfold amount_body.
    change [Decimal; Chars "."; Chars "MBK"]
      with ([Decimal; Chars "."] ++ [Chars "MBK"]).
    by rewrite in_charset_one_of, Hc'.
  - destruct Hw4 as [->|(c' & -> & Hc')]; [done|].
    constructor; [|constructor].
    apply amount_body_char. unfold amount_body.
    change [Decimal; Chars "."; Chars "MBK"]
      with ([Decimal; Chars "."] ++ [Chars "MBK"]).
    by rewrite in_charset_one_of, Hc', orb_true_r.
Qed.

(** The groups of a match of each pattern: which is an amount and which a
    label. *)
Lemma pattern_groups (pattern : regex) (text : str) (g1 g2 : str) :
  pattern ∈ patterns →
  search pattern text IGNORECASE = Some [Some g1; Some g2] →
  (word IGNORECASE amount g1
   ∧ (word IGNORECASE labels3 g2 ∨ word IGNORECASE labels4 g2))
  ∨ (word IGNORECASE labels3 g1 ∧ word IGNORECASE amount g2).
Proof.
  intros Hpattern Hm.
  destruct (search_group_word _ _ _ _ 1 g1 Hm eq_refl) as (body1 & Hbody1 & Hw1).
  destruct (search_group_word _ _ _ _ 2 g2 Hm eq_refl) as (body2 & Hbody2 & Hw2).
  revert Hpattern body1 body2 Hbody1 Hbody2 Hw1 Hw2. unfold patterns.
  rewrite !elem_of_cons, elem_of_nil.
  intros [->|[->|[->|[]]]] body1 body2.
  - change (group_bodies 1 pattern1) with [amount].
    change (group_bodies 2 pattern1) with [labels4].
    intros ->%list_elem_of_singleton ->%list_elem_of_singleton. by left; auto.
  - change (group_bodies 1 pattern2) with [labels3].
    change (group_bodies 2 pattern2) with [amount].
    intros ->%list_elem_of_singleton ->%list_elem_of_singleton. by right.
  - change (group_bodies 1 pattern3) with [amount].
    change (group_bodies 2 pattern3) with [labels3].
    intros ->%list_elem_of_singleton ->%list_elem_of_singleton. by left; auto.
Qed.

Lemma label_word_no_dollar (g : str) :
  word IGNORECASE labels3 g ∨ word IGNORECASE labels4 g →
  Forall (fun c => c ≠ ord "$") g.
Proof.
  intros [Hw|Hw]; eapply (word_rejects IGNORECASE); try exact Hw; reflexivity.
Qed.

Lemma contains_dollar_first (body : str) :
  contains "$" (ord "$" :: body) = true.
Proof. reflexivity. Qed.

Lemma contains_dollar_absent (g : str) :
  Forall (fun c => c ≠ ord "$") g → contains "$" g = false.
Proof. exact (contains_one_absent (ord "$") g). Qed.

(** X13. When no code point outside ASCII is a case variant of ["$"] (none is
    in Unicode), [parse_funding_info] returns nothing at all or a label and
    an amount.  The amount is ["$"] and at least one more character, and
    each of these is an ASCII digit, a dot, one of M, B, K, m, b, k, or a
    character outside ASCII that the tables take for a decimal digit or for
    a case variant of a dot, m, b or k, as [re.IGNORECASE] has it for the
    Kelvin sign.  The label has no ["$"] in it. *)
Theorem parse_funding_info_amount (text company_name : str) :
  (∀ c, is_ascii c = false → fold_hi c ≠ ord "$") →
  parse_funding_info text company_name = Return (None, None)
  ∨ ∃ label body,
      parse_funding_info text company_name
      = Return (Some label, Some (ord "$" :: body))
      ∧ body ≠ []
      ∧ Forall amount_char body
      ∧ contains "$" label = false.
Proof.
  intros Hfold.
  assert (Hmatch : ∀ before pattern after m,
            patterns = before ++ pattern :: after →
            Forall (fun q => search q text IGNORECASE = None) before →
            search pattern text IGNORECASE = Some m →
            ∃ label body,
              parse_funding_info text company_name
              = Return (Some label, Some (ord "$" :: body))
              ∧ body ≠ []
              ∧ Forall amount_char body
              ∧ contains "$" label = false).
  { intros before pattern after m Hpatterns Hbefore Hm.
    assert (Hin : pattern ∈ patterns).
    { rewrite Hpatterns. apply elem_of_app. right. by left. }
    destruct (patterns_two_groups pattern Hin) as (Hcount & H1 & H2).
    destruct (search_two_groups _ _ _ _ Hcount H1 H2 Hm) as (g1 & g2 & ->).
    unfold parse_funding_info. rewrite Hpatterns.
    rewrite (parse_loop_first_match before after pattern text g1 g2 Hbefore Hm).
    destruct (pattern_groups pattern text g1 g2 Hin Hm)
      as [[Hamount Hlabel]|[Hlabel Hamount]].
    - apply amount_word in Hamount as (c & body & -> & Hc & Hne & Hbody).
      apply fold_dollar in Hc as ->; [|done].
      apply label_word_no_dollar in Hlabel.
      rewrite contains_dollar_first.
      exists g2, body. split; [done|]. split; [done|]. split; [done|].
      by apply contains_dollar_absent.
    - apply amount_word in Hamount as (c & body & -> & Hc & Hne & Hbody).
      apply fold_dollar in Hc as ->; [|done].
      assert (Forall (fun c => c ≠ ord "$") g1) as Hno
        by (apply label_word_no_dollar; by left).
      rewrite (contains_dollar_absent _ Hno).
      exists g1, body. split; [done|]. split; [done|]. split; [done|].
      by apply contains_dollar_absent. }
  destruct (search pattern1 text IGNORECASE) as [m1|] eqn:H1.
  { right. eapply (Hmatch [] pattern1 [pattern2; pattern3]); by eauto. }
  destruct (search pattern2 text IGNORECASE) as [m2|] eqn:H2.
  { right. eapply (Hmatch [pattern1] pattern2 [pattern3]); by eauto. }
  destruct (search pattern3 text IGNORECASE) as [m3|] eqn:H3.
  { right. eapply (Hmatch [pattern1; pattern2] pattern3 []); by eauto. }
  left. apply parse_loop_no_match. by repeat constructor.
Qed.

End FundingAmount.

(** ** Replacing in texts *)

Section Replace.
Import Text.
Implicit Types (s old new p : str) (P : N → Prop).

(** Replacing takes its code points from the text and from [new]. *)
Lemma replace_from_Forall P old new (skip : nat) s :
  Forall P s → Forall P new → Forall P (replace_from old new skip s).
Proof.
  intros Hs Hnew. revert skip. induction Hs as [|c s Hc Hs IH]; intros skip.
  - done.
  - cbn [replace_from]. destruct skip as [|n]; [|by apply IH].
    destruct (startswith (c :: s) old).
    + apply Forall_app. split; [done|apply IH].
    + constructor; [done|apply IH].
Qed.

Lemma remove_Forall P s old :
  old ≠ [] → Forall P s → Forall P (replace s old "").
Proof.
  intros Hold Hs. rewrite replace_nonempty by done.
  by apply replace_from_Forall.
Qed.

(** Removing a character leaves none of it. *)
Lemma remove_char_absent (x : N) s :
  Forall (fun c => c ≠ x) (replace s [x] []).
Proof.
  cbn [replace]. induction s as [|c s IH]; [done|].
  cbn [replace_from startswith length Nat.sub app].
  rewrite andb_true_r. destruct (N.eqb_spec c x) as [->|Hne]; [done|].
  by constructor.
Qed.

(** Where [old] does not occur, replacing changes nothing. *)
Lemma replace_absent s old new :
  old ≠ [] → contains old s = false → replace s old new = s.
Proof.
  intros Hold. rewrite replace_nonempty by done.
  induction s as [|c s IH]; [done|].
  intros [Hstart Hlater]%contains_false_cons.
  cbn [replace_from]. rewrite Hstart. by rewrite IH.
Qed.

(** An occurrence at the front is removed, and replacing goes on after it. *)
Lemma remove_front s old :
  old ≠ [] → replace (old ++ s) old "" = replace s old "".
Proof.
  intros Hold. rewrite !replace_nonempty by done.
  destruct old as [|o old]; [done|].
  cbn [app replace_from].
  assert (startswith (o :: old ++ s) (o :: old) = true) as ->.
  { apply startswith_prefix. by exists s. }
  cbn [length Nat.sub app]. rewrite Nat.sub_0_r. apply replace_from_skip.
Qed.

Lemma clash_startswith (u p b : str) :
  clash u p = true → startswith (u ++ b) p = false.
Proof.
  revert p. induction u as [|c u IH]; intros p; [done|].
  destruct p as [|a p]; [done|]. cbn [clash app startswith].
  destruct (N.eqb_spec c a) as [->|Hne]; cbn [negb orb andb]; [|done].
  apply IH.
Qed.

(** A prefix free of [p] adds no occurrence of [p]. *)
Lemma contains_free (a p b : str) :
  free a p = true → contains p (a ++ b) = contains p b.
Proof.
  induction a as [|c a IH]; [done|]. cbn [free].
  intros [Hclash Hfree]%andb_true_iff.
  change ((c :: a) ++ b) with (c :: (a ++ b)). cbn [contains].
  change (c :: (a ++ b)) with ((c :: a) ++ b).
  by rewrite (clash_startswith _ _ _ Hclash), IH.
Qed.

End Replace.

(** ** main.py: the shape of a derived domain *)

Section DomainShape.
Context `{UnicodeTables}.
Import Text.

Lemma strs_not_nil (s : string) : s ≠ EmptyString → str_of_string s ≠ [].
Proof. by destruct s. Qed.

(** X14. Every derived domain is a name part followed by [".com"], and the name
    part has no space, comma, dot or hyphen in it: the only dot of the
    domain is the one of [".com"].  For an ASCII company name the name part
    has no capital letter either. *)
Theorem extract_domain_shape (company_name : str) :
  ∃ name_part,
    Main.extract_domain company_name = cat name_part ".com"
    ∧ Forall (fun c => c ∉ removed_chars) name_part
    ∧ (forallb is_ascii company_name = true →
       Forall (fun c => is_upper_ascii c = false) name_part).
Proof.
  unfold Main.extract_domain.
  change (strs [" "; ","; "."; "inc"; "llc"; "the"; "-"])
    with [str_of_string " "; str_of_string ","; str_of_string ".";
          str_of_string "inc"; str_of_string "llc"; str_of_string "the";
          str_of_string "-"].
  cbn [foldl]. cbv zeta.
  set (d1 := replace (lower company_name) " " "").
  set (d2 := replace d1 "," "").
  set (d3 := replace d2 "." "").
  set (d4 := replace d3 "inc" "").
  set (d5 := replace d4 "llc" "").
  set (d6 := replace d5 "the" "").
  set (d7 := replace d6 "-" "").
  exists d7. split; [done|].
  assert (Hkeep : ∀ (P : N → Prop), Forall P d3 → Forall P d7).
  { intros P H3. subst d4 d5 d6 d7.
    by do 4 (apply remove_Forall; [by apply strs_not_nil|]). }
  split.
  - assert (H1 : Forall (fun c => c ≠ ord " ") d3).
    { subst d2 d3. do 2 (apply remove_Forall; [by apply strs_not_nil|]).
      apply (remove_char_absent (ord " ")). }
    assert (H2 : Forall (fun c => c ≠ ord ",") d3).
    { subst d3. apply remove_Forall; [by apply strs_not_nil|].
      apply (remove_char_absent (ord ",")). }
    assert (H3 : Forall (fun c => c ≠ ord ".") d3)
      by apply (remove_char_absent (ord ".")).
    assert (H7 : Forall (fun c => c ≠ ord "-") d7)
      by apply (remove_char_absent (ord "-")).
    apply Hkeep in H1, H2, H3.
    rewrite Forall_forall in *. intros c Hc.
    unfold removed_chars. rewrite !elem_of_cons, elem_of_nil.
    intros [->|[->|[->|[->|[]]]]]; [by eapply H1|by eapply H2|by eapply H3|by eapply H7].
  - intros Hascii. apply Hkeep. subst d1 d2 d3.
    do 3 (apply remove_Forall; [by apply strs_not_nil|]).
    unfold lower. rewrite Hascii. apply Forall_map, Forall_true.
    intros c. unfold lower_ascii, is_upper_ascii.
    destruct ((65 <=? c)%N && (c <=? 90)%N) eqn:Hup; [|done].
    apply andb_true_iff in Hup as [Hlo%N.leb_le Hhi%N.leb_le].
    apply andb_false_iff. right. apply N.leb_gt. lia.
Qed.

End DomainShape.

(** ** update_csv_with_real_data.py, update_with_real_data.py: the domain of a website *)

Section Website.
Import Text.
Implicit Types (s d p website : str).

Lemma drop_while_repeat (P : N → bool) (x : N) (n : nat) s :
  P x = true → drop_while P (repeat x n ++ s) = drop_while P s.
Proof.
  intros Hx. induction n as [|n IH]; [done|].
  cbn [repeat app drop_while]. by rewrite Hx.
Qed.

Lemma drop_while_stop (P : N → bool) s :
  (∀ c, head s = Some c → P c = false) → drop_while P s = s.
Proof.
  destruct s as [|c s]; [done|]. intros Hc. cbn [drop_while].
  by rewrite (Hc c).
Qed.

Lemma rev_repeat (x : N) (n : nat) : rev (repeat x n) = repeat x n.
Proof.
  induction n as [|n IH]; [done|]. cbn [repeat rev]. rewrite IH.
  clear IH. induction n as [|n IH]; [done|]. cbn [repeat app]. by rewrite IH.
Qed.

Lemma head_rev s : head (rev s) = last s.
Proof. rewrite <- (reverse_involutive s) at 2. rewrite last_reverse.
  by rewrite rev_alt. Qed.

(** Stripping [x] on the right takes a run of [x] off a text that does not
    end in [x]. *)
Lemma rstrip_chars_run d (x : N) (n : nat) :
  last d ≠ Some x → rstrip_chars (d ++ repeat x n) [x] = d.
Proof.
  intros Hlast. unfold rstrip_chars.
  rewrite rev_app_distr, rev_repeat, drop_while_repeat.
  - rewrite drop_while_stop; [apply rev_involutive|].
    intros c Hc. rewrite head_rev in Hc. cbn [existsb].
    rewrite orb_false_r. apply N.eqb_neq. congruence.
  - cbn [existsb]. by rewrite N.eqb_refl.
Qed.

Lemma rstrip_chars_last s (x : N) : last (rstrip_chars s [x]) ≠ Some x.
Proof.
  unfold rstrip_chars. rewrite <- head_rev, rev_involutive.
  destruct (drop_while_head (fun c => existsb (N.eqb c) [x]) (rev s))
    as [->|(c & rest & -> & Hc)]; [done|].
  cbn [head existsb] in *. rewrite orb_false_r in Hc.
  apply N.eqb_neq in Hc. congruence.
Qed.

Lemma rstrip_chars_subseteq s chars : rstrip_chars s chars ⊆ s.
Proof.
  unfold rstrip_chars. intros c Hc%list_elem_of_In%in_rev%list_elem_of_In.
  apply list_elem_of_In, in_rev, list_elem_of_In.
  rewrite <- (take_drop_while (fun c => existsb (N.eqb c) chars) (rev s)).
  apply elem_of_app. by right.
Qed.

(** An occurrence of [p] in [s] has all the code points of [p] in [s]. *)
Lemma contains_elem p s : contains p s = true → p ⊆ s.
Proof.
  induction s as [|c s IH]; cbn [contains].
  - rewrite orb_false_r. intros Hp%startswith_prefix.
    apply prefix_nil_inv in Hp as ->. done.
  - intros [Hp%startswith_prefix|Hlater]%orb_true_iff.
    + destruct Hp as [k ->]. intros a Ha. apply elem_of_app. by left.
    + intros a Ha. apply elem_of_cons. right. by apply IH.
Qed.

Lemma startswith_before_run p d (x : N) (n : nat) :
  x ∉ p → startswith (d ++ repeat x n) p = startswith d p.
Proof.
  revert p. induction d as [|c d IH]; intros p Hx.
  - destruct p as [|a p]; [done|]. cbn [app].
    destruct n as [|n]; [done|]. cbn [repeat startswith].
    apply not_elem_of_cons in Hx as [Hne _].
    apply andb_false_iff. left. by apply N.eqb_neq.
  - destruct p as [|a p]; [done|]. cbn [app startswith].
    apply not_elem_of_cons in Hx as [_ Hx]. by rewrite IH.
Qed.

(** A run of [x] after [d] adds no occurrence of a text without [x]. *)
Lemma contains_before_run p d (x : N) (n : nat) :
  p ≠ [] → x ∉ p → contains p (d ++ repeat x n) = contains p d.
Proof.
  intros Hp Hx. induction d as [|c d IH].
  - cbn [app]. destruct p as [|a p]; [done|]. cbn [contains startswith].
    apply not_elem_of_cons in Hx as [Hne _].
    induction n as [|n IHn]; [done|].
    cbn [repeat contains startswith]. rewrite IHn, orb_false_r.
    apply andb_false_iff. left. by apply N.eqb_neq.
  - change ((c :: d) ++ repeat x n) with (c :: (d ++ repeat x n)).
    cbn [contains]. rewrite IH.
    change (c :: (d ++ repeat x n)) with ((c :: d) ++ repeat x n).
    by rewrite startswith_before_run.
Qed.

(** The three removals and the stripping, on a website written as an
    optional scheme, an optional ["www."], a body without the three removed
    texts and slashes. *)
Lemma clean_parts (scheme www d : str) (n : nat) :
  scheme ∈ strs [""; "http://"; "https://"] →
  www ∈ strs [""; "www."] →
  contains "http://" (d ++ repeat (ord "/") n) = false →
  contains "https://" (d ++ repeat (ord "/") n) = false →
  contains "www." (d ++ repeat (ord "/") n) = false →
  last d ≠ Some (ord "/") →
  rstrip_chars
    (replace (replace (replace (scheme ++ www ++ d ++ repeat (ord "/") n)
                               "http://" "") "https://" "") "www." "") "/"
  = d.
Proof.
  set (body := d ++ repeat (ord "/") n).
  intros Hscheme Hwww Hhttp Hhttps Hw Hlast.
  assert (replace (replace (replace (scheme ++ www ++ body)
                                    "http://" "") "https://" "") "www." ""
          = body) as ->; [|by apply (rstrip_chars_run d (ord "/") n)].
  assert (Hn1 : str_of_string "http://" ≠ []) by by apply strs_not_nil.
  assert (Hn2 : str_of_string "https://" ≠ []) by by apply strs_not_nil.
  assert (Hn3 : str_of_string "www." ≠ []) by by apply strs_not_nil.
  assert (Hlast_step : replace (www ++ body) "www." "" = body).
  { apply list_elem_of_In in Hwww. cbn [strs map In] in Hwww.
    destruct Hwww as [<-|[<-|[]]].
    - by apply replace_absent.
    - rewrite remove_front by done. by apply replace_absent. }
  assert (Hfree1 : contains "http://" (www ++ body) = false).
  { apply list_elem_of_In in Hwww. cbn [strs map In] in Hwww.
    destruct Hwww as [<-|[<-|[]]]; [done|]. by rewrite contains_free. }
  assert (Hfree2 : contains "https://" (www ++ body) = false).
  { apply list_elem_of_In in Hwww. cbn [strs map In] in Hwww.
    destruct Hwww as [<-|[<-|[]]]; [done|]. by rewrite contains_free. }
  apply list_elem_of_In in Hscheme. cbn [strs map In] in Hscheme.
  destruct Hscheme as [<-|[<-|[<-|[]]]].
  - change (str_of_string "" ++ www ++ body) with (www ++ body).
    rewrite (replace_absent _ "http://") by done.
    by rewrite (replace_absent _ "https://").
  - rewrite remove_front by done.
    rewrite (replace_absent _ "http://") by done.
    by rewrite (replace_absent _ "https://").
  - rewrite (replace_absent _ "http://"); [|done|by rewrite contains_free].
    rewrite remove_front by done.
    by rewrite (replace_absent _ "https://").
Qed.

(** X15. What is returned for a website: nothing exactly for the empty text;
    otherwise a text that does not end in a slash and is made of code points
    of the website.  Both scripts have the same function. *)
Theorem extract_domain_from_website_clean website :
  UpdateCsvWithRealData.extract_domain_from_website website
    = UpdateWithRealData.extract_domain_from_website website
  ∧ (UpdateCsvWithRealData.extract_domain_from_website website = None
     ↔ website = [])
  ∧ ∀ domain,
      UpdateCsvWithRealData.extract_domain_from_website website = Some domain →
      last domain ≠ Some (ord "/") ∧ domain ⊆ website.
Proof.
  split; [done|]. unfold UpdateCsvWithRealData.extract_domain_from_website.
  split.
  - destruct website; cbn [truthy negb]; by split.
  - intros domain Hd. destruct (truthy website); cbn [negb] in Hd; [|done].
    cbv zeta in Hd. apply (inj Some) in Hd. subst domain. split.
    + apply (rstrip_chars_last _ (ord "/")).
    + etrans; [apply rstrip_chars_subseteq|].
      intros a Ha. eapply (Forall_forall (fun a => a ∈ website)); [|exact Ha].
      do 3 (apply remove_Forall; [by apply strs_not_nil|]).
      by apply Forall_forall.
Qed.

(** X16. A website written as an optional scheme, an optional ["www."], a
    domain and any number of slashes gives back the domain, when the domain
    is not empty, does not end in a slash, has no colon and no ["www."] in
    it. *)
Theorem extract_domain_from_website_round_trip
    (scheme www domain : str) (slashes : nat) :
  scheme ∈ strs [""; "http://"; "https://"] →
  www ∈ strs [""; "www."] →
  domain ≠ [] →
  last domain ≠ Some (ord "/") →
  ord ":" ∉ domain →
  contains "www." domain = false →
  UpdateCsvWithRealData.extract_domain_from_website
    (scheme ++ www ++ domain ++ repeat (ord "/") slashes) = Some domain.
Proof.
  intros Hscheme Hwww Hne Hlast Hcolon Hw.
  unfold UpdateCsvWithRealData.extract_domain_from_website.
  assert (truthy (scheme ++ www ++ domain ++ repeat (ord "/") slashes) = true)
    as ->.
  { destruct scheme; [|done]. destruct www; [|done]. by destruct domain. }
  cbn [negb]. cbv zeta. f_equal.
  assert (Hcolon' : ord ":" ∉ domain ++ repeat (ord "/") slashes).
  { rewrite elem_of_app. intros [?|Hin]; [done|].
    apply list_elem_of_In, repeat_spec in Hin. done. }
  apply clean_parts; try done.
  - destruct (contains "http://" _) eqn:Hc; [|done].
    apply contains_elem in Hc. destruct Hcolon'. apply Hc. compute_done.
  - destruct (contains "https://" _) eqn:Hc; [|done].
    apply contains_elem in Hc. destruct Hcolon'. apply Hc. compute_done.
  - rewrite contains_before_run; [done|by apply strs_not_nil|compute_done].
Qed.

End Website.

(** ** update_csv_with_real_data.py, update_with_real_data.py: guessed addresses *)

Section Email.
Context `{UnicodeTables}.
Implicit Types (domain : option str) (first_name last_name : str).

Lemma truthy_at (a b : str) : truthy (cat a (cat "@" b)) = true.
Proof. by destruct a. Qed.

Lemma truthy_after (a b : str) : truthy b = true → truthy (cat a b) = true.
Proof. destruct a; [|done]. by destruct b. Qed.

Lemma keep_truthy_cons (s : str) (values : list (option str)) :
  truthy s = true → keep_truthy (Some s :: values) = s :: keep_truthy values.
Proof. intros Hs. unfold keep_truthy. cbn [omap list_omap]. by rewrite Hs. Qed.

Lemma keep_truthy_None (values : list (option str)) :
  keep_truthy (None :: values) = keep_truthy values.
Proof. done. Qed.

Lemma email_fallback domain first_name last_name :
  truthy_value domain && truthy first_name = false →
  UpdateCsvWithRealData.generate_email_from_domain domain first_name last_name
  = cat "hello@" (format_value domain).
Proof.
  unfold UpdateCsvWithRealData.generate_email_from_domain.
  by destruct (truthy_value domain), (truthy first_name).
Qed.

Lemma email_first domain first_name last_name :
  truthy_value domain = true → truthy first_name = true →
  UpdateCsvWithRealData.generate_email_from_domain domain first_name last_name
  = cat (lower first_name) (cat "@" (format_value domain)).
Proof.
  intros Hdomain Hfirst.
  unfold UpdateCsvWithRealData.generate_email_from_domain.
  rewrite Hdomain, Hfirst. cbn [negb orb]. cbv zeta.
  rewrite keep_truthy_cons by apply truthy_at.
  cbn [existsb head default]. by rewrite truthy_at.
Qed.

(** X17. The address guessed for a founder is the lowercased first name at the
    domain, whatever the last name is; without a domain or a first name it
    is ["hello@"] followed by the domain as formatted, which for the
    [None] of a missing website reads ["hello@None"].  The fallback after
    the list of patterns is never reached. *)
Theorem generate_email_from_domain_first domain first_name last_name :
  UpdateCsvWithRealData.generate_email_from_domain domain first_name last_name
  = if truthy_value domain && truthy first_name
    then cat (lower first_name) (cat "@" (format_value domain))
    else cat "hello@" (format_value domain).
Proof.
  destruct (truthy_value domain) eqn:Hdomain;
    [destruct (truthy first_name) eqn:Hfirst|]; cbn [andb].
  - by apply email_first.
  - apply email_fallback. by rewrite Hdomain, Hfirst.
  - apply email_fallback. by rewrite Hdomain.
Qed.

(** X18. The list of candidate addresses of update_with_real_data.py starts with
    the address that update_csv_with_real_data.py guesses, and has one or
    three candidates; where it returns [None] the other script returns its
    ["hello@"] address. *)
Theorem generate_email_candidates domain first_name last_name :
  match UpdateWithRealData.generate_email_from_name domain first_name last_name with
  | Some candidates =>
      head candidates
        = Some (UpdateCsvWithRealData.generate_email_from_domain
                  domain first_name last_name)
      ∧ (length candidates = 1 ∨ length candidates = 3)
  | None =>
      UpdateCsvWithRealData.generate_email_from_domain domain first_name last_name
        = cat "hello@" (format_value domain)
  end.
Proof.
  unfold UpdateWithRealData.generate_email_from_name.
  destruct (truthy_value domain) eqn:Hdomain;
    [|apply email_fallback; by rewrite Hdomain].
  destruct (truthy first_name) eqn:Hfirst;
    [|apply email_fallback; by rewrite Hdomain, Hfirst].
  rewrite email_first by done.
  cbn [negb orb andb]. cbv zeta.
  rewrite keep_truthy_cons by apply truthy_at. split; [done|].
  destruct (truthy (if truthy last_name then lower last_name else ""));
    [|by left].
  right. rewrite !keep_truthy_cons; [done|..];
    first [ by apply truthy_after, truthy_at
          | by do 2 apply truthy_after; apply truthy_at ].
Qed.

End Email.

(** ** The fallback address is pattern data *)

Section FallbackAddress.
Context `{UnicodeTables}.

Lemma drop_while_keeps (P : N → bool) (a b : str) :
  (∃ c b', b = c :: b' ∧ P c = false) →
  ∃ a', drop_while P (a ++ b) = a' ++ b.
Proof.
  intros (c & b' & -> & Hc). induction a as [|x a [a' IH]].
  - exists []. cbn [app drop_while]. by rewrite Hc.
  - cbn [app drop_while]. destruct (P x).
    + by exists a'.
    + by exists (x :: a).
Qed.

(** Stripping keeps a prefix that starts and ends with a code point that is
    no white space. *)
Lemma strip_keeps_prefix (w rest : str) :
  (∃ c w', w = c :: w' ∧ is_space c = false) →
  (∃ c w', rev w = c :: w' ∧ is_space c = false) →
  w `prefix_of` strip (w ++ rest).
Proof.
  intros Hfirst Hlast. unfold strip, rstrip, lstrip.
  rewrite (drop_while_stop is_space (w ++ rest)).
  2: { destruct Hfirst as (c & w' & -> & Hc). by intros c' [= <-]. }
  rewrite rev_app_distr.
  destruct (drop_while_keeps is_space (rev rest) (rev w) Hlast) as [a' ->].
  rewrite rev_app_distr, rev_involutive. by exists (rev a').
Qed.

(** X19. An address that [generate_email_from_domain] makes without a domain or
    without a first name, written to the [founder_email] of a row, makes
    the row pattern data for both update scripts. *)
Theorem fallback_address_is_pattern_data
    (company : dict) (domain : option str) (first_name last_name : str) :
  truthy_value domain && truthy first_name = false →
  let row :=
    set "founder_email"
        (UpdateCsvWithRealData.generate_email_from_domain
           domain first_name last_name) company in
  UpdateWithRealFounders.is_pattern_data row = true
  ∧ BatchExtractFounders.is_pattern_data row = true.
Proof.
  intros Hfallback row.
  change BatchExtractFounders.is_pattern_data
    with UpdateWithRealFounders.is_pattern_data.
  enough (UpdateWithRealFounders.is_pattern_data row = true) by done.
  unfold UpdateWithRealFounders.is_pattern_data. cbv zeta.
  destruct (eqb _ "Team" || eqb _ ""); [done|].
  assert (startswith (strip (get row "founder_email" "")) "hello@" = true)
    as ->; [|done].
  apply startswith_prefix. subst row. unfold get, set.
  rewrite lookup_insert, decide_True by done. cbn [from_option id].
  rewrite email_fallback by done. unfold cat.
  apply strip_keeps_prefix.
  - by exists (ord "h"), (str_of_string "ello@").
  - by exists (ord "@"), (str_of_string "olleh").
Qed.

End FallbackAddress.

(** ** find_actual_funding.py: the rows of [main] *)

Section FundingRows.
Context `{UnicodeTables}.
Import FindActualFundingMain.

Lemma lower_ascii_not_upper (s : str) :
  forallb is_ascii s = true → existsb is_upper_ascii (lower s) = false.
Proof.
  intros Hascii. unfold lower. rewrite Hascii.
  clear Hascii. induction s as [|c s IH]; [done|].
  cbn [map existsb]. rewrite IH, orb_false_r.
  unfold lower_ascii, is_upper_ascii.
  destruct ((65 <=? c)%N && (c <=? 90)%N) eqn:Hup; [|done].
  apply andb_true_iff in Hup as [Hlo%N.leb_le Hhi%N.leb_le].
  apply andb_false_iff. right. apply N.leb_gt. lia.
Qed.

(** X20. Progress is looked up under the lowercased company name: for a row with
    an ASCII company name, what the progress file holds under a key with a
    capital letter is never used. *)
Theorem progress_key_with_capital_unused
    (progress : gmap str dict) (key : str) (saved company : dict) :
  forallb is_ascii (get company "Company_Name" "") = true →
  existsb is_upper_ascii key = true →
  enriched_company (<[key := saved]> progress) company
  = enriched_company progress company.
Proof.
  intros Hascii Hupper. unfold enriched_company. cbv zeta.
  rewrite lookup_insert_ne; [done|].
  intros ->. apply lower_ascii_not_upper in Hascii. congruence.
Qed.

(** X21. Every row written has the columns of the row read and the five funding
    columns, [company_slug] also when no slug is found; so rows read with
    the same columns are written with the same columns. *)
Theorem enriched_company_columns (progress : gmap str dict) (company : dict) :
  dom (enriched_company progress company)
  = dom company ∪ list_to_set (strs ["funding_round"; "funding_amount";
                                      "funding_date"; "funding_source";
                                      "company_slug"]).
Proof.
  unfold enriched_company. cbv zeta.
  destruct (progress !! lower _) as [saved|];
    rewrite dom_insert_L, dom_fmap_L, dom_with_items;
    cbn [fmap list_fmap map fst item strs]; set_unfold; intros k; tauto.
Qed.

End FundingRows.
(** ** Runs on sample rows

    The closed statements below are about ASCII text, on which the tables
    of [ascii_only] are all that is consulted. *)

#[local] Existing Instance ascii_only.

Lemma enrich_real_or_pattern_blue :
  (∃ out, Main.enrich Main.REAL_FOUNDERS Samples.blue = Return out
     ∧ out.["founder_first_name"] = Some ("Omar" : str)
     ∧ out.["founder_email"] = Some ("omar@heyblue.com" : str)
     ∧ out.["data_quality"] = Some REAL_mark)
  ∧ ∃ out domain job_openings,
      Main.enrich Main.REAL_FOUNDERS Samples.acme = Return out
      ∧ Spec.derived_domain "Acme" domain
      ∧ Spec.job_choice job_rules (lower "Payroll software for dentists")
          job_openings
      ∧ out.["website"] = Some domain
      ∧ out.["job_openings"] = Some job_openings
      ∧ out.["data_quality"] = Some PATTERN_mark.
Proof.
  split.
  - destruct (enrich_real_or_pattern Main.REAL_FOUNDERS Samples.blue)
      as [_ Hname].
    destruct (Hname "Blue") as [Hreal _]; [reflexivity|].
    destruct (Hreal (Founder "Omar" "Abdelaziz" "omar@heyblue.com"
                       "linkedin.com/in/oabdelaziz" "heyblue.com"
                       "Software Engineering Intern, Product Intern"
                       "Seed" "$1.5M" "Summer 2025"))
      as (out & Hout & Hfirst & _ & Hemail & _ & _ & _ & _ & _ & _ & Hquality & _);
      [reflexivity|].
    exists out. done.
  - destruct (enrich_real_or_pattern Main.REAL_FOUNDERS Samples.acme)
      as [_ Hname].
    destruct (Hname "Acme") as [_ Hpattern]; [reflexivity|].
    destruct Hpattern as [_ Hdescription]; [reflexivity|].
    destruct (Hdescription "Payroll software for dentists")
      as (out & domain & job_openings & Hout & Hdomain & _ & Hjobs & _
          & _ & _ & _ & _ & Hwebsite & Hopenings & _ & _ & _ & Hquality & _);
      [reflexivity|].
    exists out, domain, job_openings. done.
Defined.

Lemma enrich_frame_acme :
  ∃ out, Main.enrich Main.REAL_FOUNDERS Samples.acme = Return out
    ∧ (∀ k, k ∉ enriched_fields → out !! k = Samples.acme !! k)
    ∧ (∀ k, is_Some (Samples.acme !! k) → is_Some (out !! k))
    ∧ out.["Company_Name"] = Samples.acme.["Company_Name"]
    ∧ out.["YC_Link"] = Samples.acme.["YC_Link"]
    ∧ out.["Batch"] = Samples.acme.["Batch"]
    ∧ out.["company_description"] = Samples.acme.["company_description"].
Proof.
  destruct (enrich_frame Main.REAL_FOUNDERS Samples.acme) as [Hframe Hreturns].
  destruct (Hreturns "Acme") as [out Hout];
    [reflexivity|right; eexists; reflexivity|].
  exists out. split; [exact Hout|]. exact (Hframe out Hout).
Defined.

Lemma classify_enrich_verified_blue :
  ∃ out, Main.enrich Main.REAL_FOUNDERS Samples.blue = Return out
    ∧ (classify out = REAL ↔
       ∃ data, Main.REAL_FOUNDERS !! ("Blue" : str) = Some data ∧ verified data)
    ∧ (map_Forall (fun _ data => verified data) Main.REAL_FOUNDERS →
       classify out = REAL ↔ is_Some (Main.REAL_FOUNDERS !! ("Blue" : str))).
Proof.
  apply (classify_enrich_verified Main.REAL_FOUNDERS Samples.blue "Blue");
    [reflexivity|].
  left. eexists. reflexivity.
Defined.

Lemma missing_columns_empty_row :
  Main.enrich Main.REAL_FOUNDERS ∅ = Raise (KeyError "Company_Name")
  ∧ DictReader.enrich Main.REAL_FOUNDERS DictReader.short_line
    = Raise AttributeError
  ∧ DictReader.is_pattern_data DictReader.short_enriched_line
    = Raise AttributeError
  ∧ DictReader.merge_update UpdateWithRealFounders.REAL_FOUNDER_DATA
      DictReader.short_enriched_line
    = Raise AttributeError.
Proof.
  destruct (missing_columns Main.REAL_FOUNDERS
              BatchExtractFounders.REAL_FOUNDER_DATA ∅ DictReader.short_line)
    as ((_ & _ & _ & Hname & _) & _ & _ & (_ & _ & Hdescription & _) & _).
  destruct (missing_columns UpdateWithRealFounders.REAL_FOUNDER_DATA
              BatchExtractFounders.REAL_FOUNDER_DATA ∅
              DictReader.short_enriched_line)
    as (_ & _ & (Hfirst & _) & _ & (_ & Hmerge)).
  split; [apply Hname; reflexivity|].
  split.
  { destruct (Hdescription "Acme") as [_ Hnone]; [reflexivity|reflexivity|].
    apply Hnone. reflexivity. }
  split; [apply Hfirst; reflexivity|].
  destruct (Hmerge "Freya") as (_ & _ & Hraise); [reflexivity|].
  destruct (Hraise AttributeError) as [Hupdate _];
    [apply Hfirst; reflexivity|].
  apply Hupdate. eexists. reflexivity.
Defined.

Lemma extract_company_slug_segment_blue :
  ∃ pre rest,
    str_of_string "https://www.ycombinator.com/companies/blue"
    = pre ++ str_of_string "/companies/" ++ str_of_string "blue" ++ rest
    ∧ str_of_string "blue" ≠ []
    ∧ Forall (fun c => c ≠ ord "/") (str_of_string "blue")
    ∧ (rest = [] ∨ ∃ rest', rest = ord "/" :: rest')
    ∧ ∀ pre' c rest',
        str_of_string "https://www.ycombinator.com/companies/blue"
        = pre' ++ str_of_string "/companies/" ++ c :: rest' →
        c ≠ ord "/" → length pre ≤ length pre'.
Proof.
  apply (extract_company_slug_segment
           "https://www.ycombinator.com/companies/blue").
  reflexivity.
Defined.

Lemma parse_funding_info_first_match_acme :
  ∃ g1 g2,
    [Some (str_of_string "$2M"); Some (str_of_string "seed")] = [Some g1; Some g2]
    ∧ contains "$" g1 = startswith g1 "$"
    ∧ FindActualFunding.parse_funding_info "Acme raised $2M in a seed round" "Acme"
      = Return (if startswith g1 "$" then (Some g2, Some g1) else (Some g1, Some g2)).
Proof.
  apply (parse_funding_info_first_match "Acme raised $2M in a seed round" "Acme")
    with (before := []) (pattern := FindActualFunding.pattern1)
         (after := [FindActualFunding.pattern2; FindActualFunding.pattern3]).
  - reflexivity.
  - constructor.
  - reflexivity.
Defined.

Lemma merge_update_unchanged_freya :
  UpdateWithRealFounders.merge_update UpdateWithRealFounders.REAL_FOUNDER_DATA
    Samples.freya = Samples.freya
  ∧ BatchExtractFounders.merge_update BatchExtractFounders.REAL_FOUNDER_DATA
      Samples.freya = Samples.freya.
Proof.
  apply (merge_update_unchanged UpdateWithRealFounders.REAL_FOUNDER_DATA
           BatchExtractFounders.REAL_FOUNDER_DATA Samples.freya).
  reflexivity.
Defined.

(** The first pattern decides although the second matches further to the
    left in the text. *)
Lemma parse_funding_info_first_pattern_wins :
  FindActualFunding.parse_funding_info
    "a Series B round of $12.5M, raised $1 in a pre-seed round" "Acme"
  = Return (Some (str_of_string "pre-seed"), Some (str_of_string "$1"))
  ∧ is_Some (Re.search FindActualFunding.pattern2
               "a Series B round of $12.5M, raised $1 in a pre-seed round"
               Re.IGNORECASE).
Proof. split; [reflexivity|]. eexists. reflexivity. Qed.

(** C1 as the specification words it fails on a row that lacks
    [company_description] and whose name is no key of the table: [enrich]
    returns no row. *)
Lemma enrich_without_description_returns_nothing :
  Main.REAL_FOUNDERS !! str_of_string "Acme" = None
  ∧ ∀ out, Main.enrich Main.REAL_FOUNDERS Samples.acme_no_description
           ≠ Return out.
Proof.
  split; [reflexivity|]. intros out Hout. vm_compute in Hout. discriminate.
Qed.

(** C2 as the specification words it fails on a row whose placeholder name
    has white space after it: no part of the rule holds of the texts as
    they stand, and the row is classified PATTERN. *)
Lemma classify_padded_is_PATTERN :
  classify Samples.padded = PATTERN
  ∧ ¬ pattern_rule (field Samples.padded "founder_first_name")
                   (field Samples.padded "founder_email")
                   (field Samples.padded "founder_linkedin").
Proof.
  split; [reflexivity|].
  intros [Hrule|[Hrule|[Hrule|Hrule]]]; vm_compute in Hrule; discriminate.
Qed.

(** C3 as the specification words it fails on a table whose entry has no
    LinkedIn page: the name is a key of the table and the enriched row is
    classified PATTERN. *)
Lemma classify_enrich_acme_is_PATTERN :
  is_Some (Samples.acme_table !! ("Acme" : str))
  ∧ ∃ out, Main.enrich Samples.acme_table Samples.acme = Return out
      ∧ classify out = PATTERN.
Proof.
  split; [by eexists|]. eexists. split; reflexivity.
Qed.

(** C5 as the specification words it fails: the derived domain of
    ["Nox Metals, Inc."] is not ["noxmetalsinc.com"]. *)
Lemma extract_domain_nox_metals_not_inc :
  Main.extract_domain "Nox Metals, Inc." ≠ str_of_string "noxmetalsinc.com".
Proof. intros Heq. vm_compute in Heq. discriminate. Qed.

(** C6 as the specification words it fails on a row that lacks
    [company_description]: [enrich_company] raises [KeyError]. *)
Lemma enrich_company_no_description_raises :
  Main.enrich_company Samples.acme_no_description
  = Raise (KeyError "company_description").
Proof. reflexivity. Qed.

(** ** Runs of the further properties *)

Lemma update_table_verified :
  map_Forall (fun _ data => verified data) UpdateWithRealFounders.REAL_FOUNDER_DATA.
Proof. compute_done. Qed.

Lemma batch_table_verified :
  map_Forall (fun _ data => Quality.batch_verified data)
             BatchExtractFounders.REAL_FOUNDER_DATA.
Proof. compute_done. Qed.


Lemma main_counts_blue_acme :
  ∃ enriched,
    MainLoop.main Main.REAL_FOUNDERS [Samples.blue; Samples.acme]
    = Return (enriched, 1, 1).
Proof.
  destruct (main_counts Main.REAL_FOUNDERS [Samples.blue; Samples.acme])
    as (enriched & real_count & pattern_count & Hmain & _ & _ & Hreal & Hpattern & _).
  - constructor; [|constructor; [|constructor]].
    + exists (str_of_string "Blue"). split; [reflexivity|].
      left. eexists. reflexivity.
    + exists (str_of_string "Acme"). split; [reflexivity|].
      right. eexists. reflexivity.
  - exists enriched. rewrite Hmain, Hreal, Hpattern. reflexivity.
Defined.

Lemma main_stops_at_first_error_acme :
  MainLoop.main Main.REAL_FOUNDERS
    [Samples.blue; Samples.acme_no_description; Samples.acme]
  = Raise (KeyError "company_description").
Proof.
  apply (main_stops_at_first_error Main.REAL_FOUNDERS
           [Samples.blue] [Samples.acme] Samples.acme_no_description).
  - constructor; [|constructor].
    exists (str_of_string "Blue"). split; [reflexivity|].
    left. eexists. reflexivity.
  - reflexivity.
Defined.

Lemma marker_filters_after_main_blue_acme :
  ∃ enriched,
    Forall2 (fun company out => Main.enrich Main.REAL_FOUNDERS company = Return out)
            [Samples.blue; Samples.acme] enriched
    ∧ length (EnrichFromYcPages.real_companies enriched) = 1
    ∧ length (EnrichFromYcPages.pattern_companies enriched) = 1.
Proof.
  destruct (enrich_returns Main.REAL_FOUNDERS Samples.blue "Blue")
    as [out1 Hout1]; [reflexivity|left; eexists; reflexivity|].
  destruct (enrich_returns Main.REAL_FOUNDERS Samples.acme "Acme")
    as [out2 Hout2]; [reflexivity|right; eexists; reflexivity|].
  exists [out1; out2].
  assert (Hrows : Forall2
            (fun company out => Main.enrich Main.REAL_FOUNDERS company = Return out)
            [Samples.blue; Samples.acme] [out1; out2])
    by (constructor; [done|]; constructor; [done|]; constructor).
  destruct (marker_filters_after_main Main.REAL_FOUNDERS _ _ Hrows)
    as (Hreal & Hpattern & _).
  split; [exact Hrows|]. rewrite Hreal, Hpattern. split; reflexivity.
Defined.

Lemma marker_agrees_with_rule_freya :
  Quality.consistent
    (UpdateWithRealFounders.merge_update
       UpdateWithRealFounders.REAL_FOUNDER_DATA Rows.freya_pattern)
  ∧ Quality.consistent
      (BatchExtractFounders.merge_update
         BatchExtractFounders.REAL_FOUNDER_DATA Rows.freya_pattern).
Proof.
  apply (marker_agrees_with_rule Main.REAL_FOUNDERS
           UpdateWithRealFounders.REAL_FOUNDER_DATA
           BatchExtractFounders.REAL_FOUNDER_DATA Rows.freya_pattern).
  - exact REAL_FOUNDERS_verified.
  - exact update_table_verified.
  - exact batch_table_verified.
  - right. split; reflexivity.
Defined.

Lemma counts_by_marker_and_rule_blue_acme :
  ∃ enriched,
    Forall2 (fun company out => Main.enrich Main.REAL_FOUNDERS company = Return out)
            [Samples.blue; Samples.acme] enriched
    ∧ UpdateLoop.pattern_count
        (UpdateLoop.loop UpdateWithRealFounders.REAL_FOUNDER_DATA enriched 0).1
      = length (EnrichFromYcPages.pattern_companies
                  (UpdateLoop.loop UpdateWithRealFounders.REAL_FOUNDER_DATA
                     enriched 0).1)
    ∧ BatchLoop.real_count
        (BatchLoop.loop BatchExtractFounders.REAL_FOUNDER_DATA enriched 0).1
      = length (EnrichFromYcPages.real_companies
                  (BatchLoop.loop BatchExtractFounders.REAL_FOUNDER_DATA
                     enriched 0).1).
Proof.
  destruct (enrich_returns Main.REAL_FOUNDERS Samples.blue "Blue")
    as [out1 Hout1]; [reflexivity|left; eexists; reflexivity|].
  destruct (enrich_returns Main.REAL_FOUNDERS Samples.acme "Acme")
    as [out2 Hout2]; [reflexivity|right; eexists; reflexivity|].
  exists [out1; out2].
  assert (Hrows : Forall2
            (fun company out => Main.enrich Main.REAL_FOUNDERS company = Return out)
            [Samples.blue; Samples.acme] [out1; out2])
    by (constructor; [done|]; constructor; [done|]; constructor).
  destruct (counts_by_marker_and_rule Main.REAL_FOUNDERS
              UpdateWithRealFounders.REAL_FOUNDER_DATA
              BatchExtractFounders.REAL_FOUNDER_DATA
              [Samples.blue; Samples.acme] [out1; out2])
    as [[Hpattern _] [_ Hreal]].
  - exact REAL_FOUNDERS_verified.
  - exact update_table_verified.
  - exact batch_table_verified.
  - exact Hrows.
  - split; [exact Hrows|]. split; [exact Hpattern|exact Hreal].
Defined.

Lemma merge_update_frame_freya :
  UpdateWithRealFounders.merge_update
    UpdateWithRealFounders.REAL_FOUNDER_DATA Rows.freya_pattern
    !! str_of_string "Company_Name"
  = Some (str_of_string "Freya")
  ∧ dom (BatchExtractFounders.merge_update
           BatchExtractFounders.REAL_FOUNDER_DATA Rows.freya_pattern)
    = dom Rows.freya_pattern.
Proof.
  destruct (merge_update_frame UpdateWithRealFounders.REAL_FOUNDER_DATA
              BatchExtractFounders.REAL_FOUNDER_DATA Rows.freya_pattern)
    as [(Hframe & _ & _) (_ & _ & Hdom)].
  split.
  - rewrite Hframe; [reflexivity|]. compute_done.
  - apply Hdom. compute_done.
Defined.

Lemma batch_keeps_job_and_funding_freya :
  BatchExtractFounders.merge_update
    BatchExtractFounders.REAL_FOUNDER_DATA Rows.freya_pattern
    !! str_of_string "job_openings"
  = Some (str_of_string "Founding Engineer")
  ∧ ∃ real_data,
      UpdateWithRealFounders.REAL_FOUNDER_DATA !! str_of_string "Freya"
      = Some real_data
      ∧ UpdateWithRealFounders.merge_update
          UpdateWithRealFounders.REAL_FOUNDER_DATA Rows.freya_pattern
          !! str_of_string "job_openings"
        = Some (jobs real_data).
Proof.
  destruct (batch_keeps_job_and_funding
              UpdateWithRealFounders.REAL_FOUNDER_DATA
              BatchExtractFounders.REAL_FOUNDER_DATA Rows.freya_pattern)
    as [Hbatch Hupdate].
  split.
  - rewrite Hbatch; [reflexivity|compute_done|eexists; reflexivity].
  - eexists. split; [reflexivity|].
    refine (proj1 (Hupdate _ _ _)); reflexivity.
Defined.

Lemma update_loop_counts_freya :
  UpdateLoop.pattern_count
    (map (UpdateWithRealFounders.merge_update
            UpdateWithRealFounders.REAL_FOUNDER_DATA)
         [Rows.freya_pattern; Rows.freya_real])
  + length (List.filter
              (Quality.to_update UpdateWithRealFounders.REAL_FOUNDER_DATA)
              [Rows.freya_pattern; Rows.freya_real])
  = UpdateLoop.pattern_count [Rows.freya_pattern; Rows.freya_real].
Proof.
  destruct (update_loop_counts UpdateWithRealFounders.REAL_FOUNDER_DATA
              BatchExtractFounders.REAL_FOUNDER_DATA
              [Rows.freya_pattern; Rows.freya_real])
    as [(companies' & updated_count & _ & -> & -> & Hcount) _].
  apply Hcount. exact update_table_verified.
Defined.

Lemma update_loop_rerun_freya :
  UpdateLoop.loop UpdateWithRealFounders.REAL_FOUNDER_DATA
    (UpdateLoop.loop UpdateWithRealFounders.REAL_FOUNDER_DATA
       [Rows.freya_pattern; Rows.freya_real] 0).1 0
  = ((UpdateLoop.loop UpdateWithRealFounders.REAL_FOUNDER_DATA
        [Rows.freya_pattern; Rows.freya_real] 0).1, 0)
  ∧ BatchLoop.loop BatchExtractFounders.REAL_FOUNDER_DATA
      (BatchLoop.loop BatchExtractFounders.REAL_FOUNDER_DATA
         [Rows.freya_pattern; Rows.freya_real] 0).1 0
    = ((BatchLoop.loop BatchExtractFounders.REAL_FOUNDER_DATA
          [Rows.freya_pattern; Rows.freya_real] 0).1, 0).
Proof.
  apply (update_loop_rerun UpdateWithRealFounders.REAL_FOUNDER_DATA
           BatchExtractFounders.REAL_FOUNDER_DATA
           [Rows.freya_pattern; Rows.freya_real]).
  - exact update_table_verified.
  - exact batch_table_verified.
Defined.

Lemma extract_company_slug_round_trip_blue :
  FindFundingRounds.extract_company_slug
    (str_of_string "https://www.ycombinator.com" ++ str_of_string "/companies/"
     ++ str_of_string "blue" ++ str_of_string "/jobs")
  = Some (str_of_string "blue").
Proof.
  apply (extract_company_slug_round_trip
           "https://www.ycombinator.com" "blue" "/jobs").
  - reflexivity.
  - discriminate.
  - repeat constructor; discriminate.
  - right. eexists. reflexivity.
Defined.

Lemma search_founder_info_queries_blue :
  FindRealFounders.search_founder_info
    "Blue" "https://www.ycombinator.com/companies/blue" ""
  = [cat "Blue" " Y Combinator founder"; cat "Blue" " founder CEO";
     cat "Blue" " YC Summer 2025"] ++ [cat "blue" " founder"].
Proof.
  destruct (search_founder_info_queries
              "Blue" "https://www.ycombinator.com/companies/blue" "")
    as [_ Hslug].
  destruct (Hslug "blue") as [_ Hqueries]; [reflexivity|]. exact Hqueries.
Defined.

Lemma parse_funding_info_amount_acme :
  FindActualFunding.parse_funding_info "Acme raised $2M in a seed round" "Acme"
  = Return (None, None)
  ∨ ∃ label body,
      FindActualFunding.parse_funding_info
        "Acme raised $2M in a seed round" "Acme"
      = Return (Some label, Some (ord "$" :: body))
      ∧ body ≠ []
      ∧ Forall FundingParts.amount_char body
      ∧ contains "$" label = false.
Proof.
  apply (parse_funding_info_amount "Acme raised $2M in a seed round" "Acme").
  intros c Hc. cbn [fold_hi ascii_only]. unfold is_ascii in Hc.
  apply N.ltb_ge in Hc. vm_compute (ord "$"). lia.
Defined.

Lemma extract_domain_shape_nox_metals :
  ∃ name_part,
    Main.extract_domain "Nox Metals, Inc." = cat name_part ".com"
    ∧ Forall (fun c => c ∉ Text.removed_chars) name_part
    ∧ Forall (fun c => is_upper_ascii c = false) name_part.
Proof.
  destruct (extract_domain_shape "Nox Metals, Inc.")
    as (name_part & Hdomain & Hchars & Hlower).
  exists name_part. split; [exact Hdomain|]. split; [exact Hchars|].
  apply Hlower. reflexivity.
Defined.

Lemma extract_domain_from_website_clean_blue :
  ∃ domain,
    UpdateCsvWithRealData.extract_domain_from_website "https://www.heyblue.com/"
    = Some domain
    ∧ last domain ≠ Some (ord "/")
    ∧ domain ⊆ str_of_string "https://www.heyblue.com/".
Proof.
  destruct (extract_domain_from_website_clean "https://www.heyblue.com/")
    as (_ & _ & Hclean).
  eexists. split; [reflexivity|]. apply Hclean. reflexivity.
Defined.

Lemma extract_domain_from_website_round_trip_blue :
  UpdateCsvWithRealData.extract_domain_from_website
    (str_of_string "https://" ++ str_of_string "www."
     ++ str_of_string "heyblue.com" ++ repeat (ord "/") 1)
  = Some (str_of_string "heyblue.com").
Proof.
  apply (extract_domain_from_website_round_trip
           "https://" "www." "heyblue.com" 1).
  - compute_done.
  - compute_done.
  - discriminate.
  - discriminate.
  - compute_done.
  - reflexivity.
Defined.

Lemma fallback_address_is_pattern_data_freya :
  UpdateWithRealFounders.is_pattern_data
    (set "founder_email"
       (UpdateCsvWithRealData.generate_email_from_domain None "Tunga" "Bayrak")
       Rows.freya_real) = true
  ∧ BatchExtractFounders.is_pattern_data
      (set "founder_email"
         (UpdateCsvWithRealData.generate_email_from_domain None "Tunga" "Bayrak")
         Rows.freya_real) = true.
Proof.
  apply (fallback_address_is_pattern_data Rows.freya_real None "Tunga" "Bayrak").
  reflexivity.
Defined.

Lemma progress_key_with_capital_unused_blue :
  FindActualFundingMain.enriched_company
    (<[str_of_string "Blue" := Rows.freya_real]> ∅) Samples.blue
  = FindActualFundingMain.enriched_company ∅ Samples.blue.
Proof.
  apply (progress_key_with_capital_unused ∅ "Blue" Rows.freya_real Samples.blue).
  - reflexivity.
  - reflexivity.
Defined.

(** The Kelvin sign in the place of the K of an amount: with tables that
    have it as a case variant of k, as those of the interpreter do, it is
    part of the amount that is returned. *)
Lemma parse_funding_info_kelvin :
  @FindActualFunding.parse_funding_info FundingParts.kelvin_tables
    (str_of_string "raised $5" ++ [0x212A%N] ++ str_of_string " in a seed round")
    "Acme"
  = Return (Some (str_of_string "seed"),
            Some (str_of_string "$5" ++ [0x212A%N])).
Proof. vm_compute. reflexivity. Qed.
